(** * AI-vs-human voice detector: the audio-to-decision pipeline

    A shallow embedding of [app/audio_processor.py], [app/feature_extractor.py],
    [model/model.py] and [app/explainer.py], followed by the properties of the
    pipeline that the specification states about them.

    Conventions of the embedding.
    - A NumPy [float64] is an exact rational or [NaN] ([npfloat]); rounding,
      overflow and infinities are outside the model.  Comparisons with [NaN]
      are false, arithmetic on [NaN] gives [NaN], as in NumPy.
    - A Python call that may raise returns a [result]; [try/except] is
      [try_except].  Messages of exceptions keep their constant text, the
      numbers formatted into them are left out.
    - librosa, scikit-learn, NumPy's generator and sort, joblib and the
      file system are interfaces ([Libm], [Decoder], [Librosa], [Sklearn],
      [Argsort], [Disk]) whose operations the code only calls; every
      property is stated for all their implementations, and each interface
      has a small executable implementation to run the model on. *)

From Stdlib Require Import String Ascii DecimalString.
From Stdlib Require Import ZArith QArith Qabs Qminmax Qround.
From Stdlib Require Import Bool Lia List Permutation Sorted.
Import ListNotations.

Set Implicit Arguments.

(* ================================================================== *)
(** * Part I. The embedding                                            *)
(* ================================================================== *)

(** ** Python: exceptions, fallible calls, indexing *)

Module Py.

Inductive exn : Type :=
| IndexError
| ZeroDivisionError
| ValueError (msg : string)
| LibraryError (msg : string)   (* raised inside librosa / sklearn / joblib *)
| Exception (msg : string).     (* [raise Exception(f"...")] of the code   *)

Inductive result (A : Type) : Type :=
| Ok (a : A)
| Raise (e : exn).

Arguments Ok {A} a.
Arguments Raise {A} e.

Definition bind {A B} (r : result A) (k : A -> result B) : result B :=
  match r with
  | Ok a => k a
  | Raise e => Raise e
  end.

(** [try: body  except Exception as e: handler e] *)
Definition try_except {A} (body : result A) (handler : exn -> result A)
  : result A :=
  match body with
  | Ok a => Ok a
  | Raise e => handler e
  end.

(** [xs[i]] for a non-negative constant [i]. *)
Definition getitem {A} (xs : list A) (i : nat) : result A :=
  match nth_error xs i with
  | Some x => Ok x
  | None => Raise IndexError
  end.

Definition is_ok {A} (r : result A) : bool :=
  match r with Ok _ => true | Raise _ => false end.

End Py.

Import Py.

Declare Scope py_scope.
Delimit Scope py_scope with py.
Notation "x <- c ;; k" := (Py.bind c (fun x => k))
  (at level 61, c at next level, right associativity) : py_scope.
Notation "' p <- c ;; k" := (Py.bind c (fun p => k))
  (at level 61, p pattern, c at next level, right associativity) : py_scope.
Open Scope py_scope.
Open Scope string_scope.
Open Scope Q_scope.

(** ** NumPy: float64 values and the reductions the code calls *)

(** [sqrt] is the only transcendental-like primitive the code reaches
    (through [np.std]); it is taken from the platform. *)
Class Libm : Type := { sqrt : Q -> Q }.

Module Np.

Inductive npfloat : Type :=
| Num (q : Q)
| NaN.

Definition lift2 (f : Q -> Q -> Q) (a b : npfloat) : npfloat :=
  match a, b with
  | Num x, Num y => Num (f x y)
  | _, _ => NaN
  end.

Definition add := lift2 Qplus.
Definition sub := lift2 Qminus.
Definition mul := lift2 Qmult.
Definition maximum := lift2 Qmax.
Definition minimum := lift2 Qmin.

(** [a / b]; the code never divides by a zero that is not also the result
    of an empty reduction, where NumPy's [0/0] is [nan]. *)
Definition div (a b : npfloat) : npfloat :=
  match a, b with
  | Num x, Num y => if Qeq_bool y 0 then NaN else Num (x / y)
  | _, _ => NaN
  end.

Definition abs (a : npfloat) : npfloat :=
  match a with
  | Num x => Num (Qabs x)
  | NaN => NaN
  end.

Definition isnan (a : npfloat) : bool :=
  match a with Num _ => false | NaN => true end.

(** [a < b] and [a > b]: false as soon as one side is [nan]. *)
Definition lt (a b : npfloat) : bool :=
  match a, b with
  | Num x, Num y => negb (Qle_bool y x)
  | _, _ => false
  end.

Definition gt (a b : npfloat) : bool := lt b a.

Definition of_nat (n : nat) : npfloat := Num (inject_Z (Z.of_nat n)).

Definition sum (xs : list npfloat) : npfloat := fold_left add xs (Num 0).

(** [np.mean]: [nan] on an empty array. *)
Definition mean (xs : list npfloat) : npfloat :=
  div (sum xs) (of_nat (List.length xs)).

Definition zero_size (op : string) : exn :=
  ValueError ("zero-size array to reduction operation " ++ op
              ++ " which has no identity").

(** [np.max] / [np.min]: raise on an empty array, propagate [nan]. *)
Definition max (xs : list npfloat) : result npfloat :=
  match xs with
  | [] => Raise (zero_size "maximum")
  | x :: r => Ok (fold_left maximum r x)
  end.

Definition min (xs : list npfloat) : result npfloat :=
  match xs with
  | [] => Raise (zero_size "minimum")
  | x :: r => Ok (fold_left minimum r x)
  end.

Definition sqrt_ `{Libm} (a : npfloat) : npfloat :=
  match a with
  | Num x => Num (sqrt x)
  | NaN => NaN
  end.

(** [np.std]: square root of the mean squared deviation (ddof = 0). *)
Definition std `{Libm} (xs : list npfloat) : npfloat :=
  let m := mean xs in
  sqrt_ (mean (map (fun x => mul (abs (sub x m)) (abs (sub x m))) xs)).

(** An array of one or two dimensions; [Arr2] is a list of rows. *)
Inductive ndarray : Type :=
| Arr1 (xs : list npfloat)
| Arr2 (rows : list (list npfloat)).

Definition ndim (a : ndarray) : nat :=
  match a with Arr1 _ => 1 | Arr2 _ => 2 end.

(** All elements in row-major order, as the whole-array reductions see them. *)
Definition ravel (a : ndarray) : list npfloat :=
  match a with
  | Arr1 xs => xs
  | Arr2 rows => concat rows
  end.

(** Element-wise application (broadcasting a scalar operation). *)
Definition elementwise (f : npfloat -> npfloat) (a : ndarray) : ndarray :=
  match a with
  | Arr1 xs => Arr1 (map f xs)
  | Arr2 rows => Arr2 (map (map f) rows)
  end.

(** [len(a)]: the size of the first axis. *)
Definition len (a : ndarray) : nat :=
  match a with
  | Arr1 xs => List.length xs
  | Arr2 rows => List.length rows
  end.

(** [np.mean(a, axis=1)] of a two-dimensional array. *)
Definition mean_axis1 (rows : list (list npfloat)) : list npfloat :=
  map mean rows.

End Np.

Import Np.

Coercion Num : Q >-> npfloat.

(** ** app/config.py *)

Module config.
Definition SAMPLE_RATE : Z := 22050.
Definition N_MFCC : nat := 13.
Definition N_FFT : nat := 2048.
Definition HOP_LENGTH : nat := 512.
End config.

(** ** app/audio_processor.py *)

(** The decoder behind [_convert_to_wav]: a temporary file and
    [librosa.load(path, sr, mono=True)], which returns a one-dimensional
    array or raises. *)
Class Decoder : Type :=
  { librosa_load : list Byte.byte -> Z -> result (list npfloat) }.

Record AudioProcessor : Type := { sample_rate : Z }.

(** [AudioProcessor.__init__] *)
Definition AudioProcessor_init : AudioProcessor :=
  {| sample_rate := config.SAMPLE_RATE |}.

Definition _convert_to_wav `{Decoder} (self : AudioProcessor)
  (audio_bytes : list Byte.byte) : result ndarray :=
  try_except
    (audio_array <- librosa_load audio_bytes (sample_rate self) ;;
     Ok (Arr1 audio_array))
    (fun e => Raise (Exception "Audio format conversion error")).

Definition _normalize_audio (audio_array : ndarray) : result ndarray :=
  max_val <- Np.max (map Np.abs (ravel audio_array)) ;;
  if Np.gt max_val (Num 0)
  then Ok (elementwise (fun x => Np.div x max_val) audio_array)
  else Ok audio_array.

Definition _ensure_mono (audio_array : ndarray) : ndarray :=
  match audio_array with
  | Arr1 _ => audio_array
  | Arr2 rows => Arr1 (mean_axis1 rows)
  end.

(** Steps 2 and 3 of [process_audio], in the order the method runs them. *)
Definition normalize_then_mono (audio_array : ndarray) : result ndarray :=
  audio_array <- _normalize_audio audio_array ;;
  Ok (_ensure_mono audio_array).

Definition process_audio `{Decoder} (self : AudioProcessor)
  (audio_bytes : list Byte.byte) : result (ndarray * Z) :=
  try_except
    (audio_array <- _convert_to_wav self audio_bytes ;;
     audio_array <- normalize_then_mono audio_array ;;
     Ok (audio_array, sample_rate self))
    (fun e => Raise (Exception "Audio processing error")).

(** [len(audio_array) / self.sample_rate], Python's true division. *)
Definition true_div (n : nat) (d : Z) : result Q :=
  if (d =? 0)%Z then Raise ZeroDivisionError
  else Ok (inject_Z (Z.of_nat n) / inject_Z d).

Definition validate_audio_duration (self : AudioProcessor)
  (audio_array : ndarray) (min_duration max_duration : Q) : result bool :=
  duration <- true_div (len audio_array) (sample_rate self) ;;
  if Np.lt duration min_duration then Raise (ValueError "Audio too short")
  else if Np.gt duration max_duration then Raise (ValueError "Audio too long")
  else Ok true.

(** The default arguments [min_duration=0.5], [max_duration=30.0]. *)
Definition default_min_duration : Q := 1 # 2.
Definition default_max_duration : Q := 30.

(** ** app/feature_extractor.py *)

(** The librosa calls of the extractor.  A waveform is the mono sample
    sequence [process_audio] returns; a per-frame feature is a matrix of
    rows (librosa's [(rows, frames)] layout). *)
Class Librosa : Type :=
  { note_to_hz : string -> npfloat;
    feature_mfcc :
      list npfloat -> Z -> nat -> nat -> nat -> result (list (list npfloat));
    pyin :
      list npfloat -> npfloat -> npfloat -> Z ->
      result (list npfloat * list bool * list npfloat);
    feature_rms : list npfloat -> nat -> result (list (list npfloat));
    feature_zero_crossing_rate :
      list npfloat -> nat -> result (list (list npfloat));
    feature_spectral_centroid :
      list npfloat -> Z -> nat -> result (list (list npfloat));
    feature_spectral_rolloff :
      list npfloat -> Z -> nat -> result (list (list npfloat));
    feature_spectral_flatness :
      list npfloat -> nat -> result (list (list npfloat));
    feature_spectral_bandwidth :
      list npfloat -> Z -> nat -> result (list (list npfloat));
    feature_spectral_contrast :
      list npfloat -> Z -> nat -> result (list (list npfloat));
    onset_onset_strength : list npfloat -> Z -> nat -> result (list npfloat);
    beat_beat_track :
      list npfloat -> Z -> nat -> result (npfloat * list nat);
    autocorrelate : list npfloat -> result (list npfloat);
    effects_hpss : list npfloat -> result (list npfloat * list npfloat) }.

Record FeatureExtractor : Type :=
  { fe_sample_rate : Z;
    n_mfcc : nat;
    n_fft : nat;
    hop_length : nat }.

(** [FeatureExtractor.__init__] *)
Definition FeatureExtractor_init : FeatureExtractor :=
  {| fe_sample_rate := config.SAMPLE_RATE;
     n_mfcc := config.N_MFCC;
     n_fft := config.N_FFT;
     hop_length := config.HOP_LENGTH |}.

Section FeatureExtraction.

Context `{Libm} `{Librosa}.
Variable self : FeatureExtractor.

Definition _extract_mfcc (audio_array : list npfloat)
  : result (list npfloat) :=
  mfcc <- feature_mfcc audio_array (fe_sample_rate self) (n_mfcc self)
            (n_fft self) (hop_length self) ;;
  let mfcc_mean := mean_axis1 mfcc in
  Ok mfcc_mean.

Definition _extract_pitch_features (audio_array : list npfloat)
  : result (list npfloat) :=
  '(f0, voiced_flag, voiced_probs) <-
     pyin audio_array (note_to_hz "C2") (note_to_hz "C7")
       (fe_sample_rate self) ;;
  let f0_valid := filter (fun x => negb (isnan x)) f0 in
  '(pitch_mean, pitch_std, pitch_min, pitch_max, pitch_range) <-
     (if (0 <? List.length f0_valid)%nat then
        let pitch_mean := mean f0_valid in
        let pitch_std := std f0_valid in
        pitch_min <- Np.min f0_valid ;;
        pitch_max <- Np.max f0_valid ;;
        let pitch_range := sub pitch_max pitch_min in
        Ok (pitch_mean, pitch_std, pitch_min, pitch_max, pitch_range)
      else
        Ok (Num 0, Num 0, Num 0, Num 0, Num 0)) ;;
  Ok [pitch_mean; pitch_std; pitch_min; pitch_max; pitch_range].

Definition _extract_energy_features (audio_array : list npfloat)
  : result (list npfloat) :=
  m <- feature_rms audio_array (hop_length self) ;;
  rms <- getitem m 0 ;;
  let rms_mean := mean rms in
  let rms_std := std rms in
  m <- feature_zero_crossing_rate audio_array (hop_length self) ;;
  zcr <- getitem m 0 ;;
  let zcr_mean := mean zcr in
  let zcr_std := std zcr in
  Ok [rms_mean; rms_std; zcr_mean; zcr_std].

Definition _extract_spectral_features (audio_array : list npfloat)
  : result (list npfloat) :=
  m <- feature_spectral_centroid audio_array (fe_sample_rate self)
         (hop_length self) ;;
  spectral_centroid <- getitem m 0 ;;
  let centroid_mean := mean spectral_centroid in
  let centroid_std := std spectral_centroid in
  m <- feature_spectral_rolloff audio_array (fe_sample_rate self)
         (hop_length self) ;;
  spectral_rolloff <- getitem m 0 ;;
  let rolloff_mean := mean spectral_rolloff in
  let rolloff_std := std spectral_rolloff in
  m <- feature_spectral_flatness audio_array (hop_length self) ;;
  spectral_flatness <- getitem m 0 ;;
  let flatness_mean := mean spectral_flatness in
  let flatness_std := std spectral_flatness in
  m <- feature_spectral_bandwidth audio_array (fe_sample_rate self)
         (hop_length self) ;;
  spectral_bandwidth <- getitem m 0 ;;
  let bandwidth_mean := mean spectral_bandwidth in
  let bandwidth_std := std spectral_bandwidth in
  m <- feature_spectral_contrast audio_array (fe_sample_rate self)
         (hop_length self) ;;
  spectral_contrast <- getitem m 0 ;;
  let contrast_mean := mean spectral_contrast in
  let contrast_std := std spectral_contrast in
  Ok [centroid_mean; centroid_std;
      rolloff_mean; rolloff_std;
      flatness_mean; flatness_std;
      bandwidth_mean; bandwidth_std;
      contrast_mean; contrast_std].

(** The constant [1e-6] of the two ratios. *)
Definition ratio_eps : Q := 1 # 1000000.

Definition _extract_prosody_features (audio_array : list npfloat)
  : result (list npfloat) :=
  onset_env <- onset_onset_strength audio_array (fe_sample_rate self)
                 (hop_length self) ;;
  let onset_mean := mean onset_env in
  let onset_std := std onset_env in
  '(tempo, _) <- beat_beat_track audio_array (fe_sample_rate self)
                   (hop_length self) ;;
  autocorr <- autocorrelate audio_array ;;
  let autocorr_mean := mean (firstn 100 autocorr) in
  let autocorr_std := std (firstn 100 autocorr) in
  '(harmonic, percussive) <- effects_hpss audio_array ;;
  let harmonic_ratio :=
    div (mean (map Np.abs harmonic))
        (add (mean (map Np.abs audio_array)) (Num ratio_eps)) in
  let percussive_ratio :=
    div (mean (map Np.abs percussive))
        (add (mean (map Np.abs audio_array)) (Num ratio_eps)) in
  Ok [onset_mean; onset_std;
      tempo;
      autocorr_mean; autocorr_std;
      harmonic_ratio; percussive_ratio].

(** The body of the [try] block: [features.extend] family after family. *)
Definition extract_features_body (audio_array : list npfloat)
  : result (list npfloat) :=
  let features := @nil npfloat in
  mfcc_features <- _extract_mfcc audio_array ;;
  let features := (features ++ mfcc_features)%list in
  pitch_features <- _extract_pitch_features audio_array ;;
  let features := (features ++ pitch_features)%list in
  energy_features <- _extract_energy_features audio_array ;;
  let features := (features ++ energy_features)%list in
  spectral_features <- _extract_spectral_features audio_array ;;
  let features := (features ++ spectral_features)%list in
  prosody_features <- _extract_prosody_features audio_array ;;
  let features := (features ++ prosody_features)%list in
  let feature_vector := features in
  Ok feature_vector.

Definition extract_features (audio_array : list npfloat)
  : result (list npfloat) :=
  try_except (extract_features_body audio_array)
    (fun e => Raise (Exception "Feature extraction error")).

End FeatureExtraction.

(** ** model/model.py *)

(** What the code uses of a deserialized or fitted scikit-learn object:
    [predict_proba] on a batch of rows, and the attribute
    [feature_importances_] when [hasattr] finds it. *)
Record estimator : Type :=
  { predict_proba : list (list npfloat) -> result (list (list npfloat));
    feature_importances_ : option (list npfloat) }.

Record transformer : Type :=
  { transform : list (list npfloat) -> result (list (list npfloat)) }.

(** A fitted [RandomForestClassifier]: the importances always exist. *)
Record forest : Type :=
  { forest_predict_proba :
      list (list npfloat) -> result (list (list npfloat));
    forest_feature_importances : list npfloat }.

Definition estimator_of_forest (f : forest) : estimator :=
  {| predict_proba := forest_predict_proba f;
     feature_importances_ := Some (forest_feature_importances f) |}.

(** [RandomForestClassifier(...)] before [fit]: every use raises
    [NotFittedError], which [hasattr] reads as a missing attribute. *)
Definition unfitted_forest : estimator :=
  {| predict_proba := fun _ => Raise (LibraryError "NotFittedError");
     feature_importances_ := None |}.

(** What [config.MODEL_PATH] / [config.SCALER_PATH] point to: no file, a
    file [joblib.load] raises on, or a file that holds a pickled object. *)
Inductive artifact (A : Type) : Type :=
| Missing
| Corrupt
| Stored (a : A).

Arguments Missing {A}.
Arguments Corrupt {A}.
Arguments Stored {A} a.

(** A file unpickles to whatever object was dumped, [None] included; an
    object of another kind than the code expects is an [estimator] whose
    [predict_proba] raises and that has no [feature_importances_]. *)
Class Disk : Type :=
  { MODEL_PATH : artifact (option estimator);
    SCALER_PATH : artifact (option transformer) }.

Definition os_path_exists {A} (p : artifact A) : bool :=
  match p with Missing => false | _ => true end.

Definition joblib_load {A} (p : artifact A) : result A :=
  match p with
  | Stored a => Ok a
  | Corrupt => Raise (LibraryError "joblib.load")
  | Missing => Raise (LibraryError "FileNotFoundError")
  end.

(** [hasattr(obj, 'feature_importances_')] with the attribute it finds;
    [None] has no such attribute. *)
Definition getattr_feature_importances_ (obj : option estimator)
  : option (list npfloat) :=
  match obj with
  | Some m => feature_importances_ m
  | None => None
  end.

(** NumPy's seeded global generator and the forest learner. *)
Class Sklearn : Type :=
  { rng : Type;
    random_seed : Z -> rng;
    random_normal :
      Q -> Q -> nat -> nat -> rng -> list (list npfloat) * rng;
    random_permutation : nat -> rng -> list nat * rng;
    RandomForestClassifier_fit :
      Z -> Z -> Z -> list (list npfloat) -> list Z -> forest }.

(** The two facts about them the code relies on: [normal] returns as many
    rows as asked, [permutation n] is a permutation of [range(n)]. *)
Class SklearnLaws (S : Sklearn) : Prop :=
  { random_normal_rows :
      forall loc scale n m g,
        List.length (fst (random_normal loc scale n m g)) = n;
    random_permutation_perm :
      forall n g, Permutation (fst (random_permutation n g)) (seq 0 n) }.

(** [np.argsort] with its default kind: some ascending order of the
    indices ([nan] last); which one among equal keys is not fixed. *)
Class Argsort : Type := { argsort : list npfloat -> list nat }.

Definition sort_le (a b : npfloat) : bool :=
  match a, b with
  | _, NaN => true
  | NaN, Num _ => false
  | Num x, Num y => Qle_bool x y
  end.

Definition key_at (v : list npfloat) (i : nat) : npfloat := nth i v NaN.

Definition key_le (v : list npfloat) (i j : nat) : Prop :=
  sort_le (key_at v i) (key_at v j) = true.

Class ArgsortLaws (A : Argsort) : Prop :=
  { argsort_perm :
      forall v, Permutation (argsort v) (seq 0 (List.length v));
    argsort_sorted :
      forall v, StronglySorted (key_le v) (argsort v) }.

(** [xs[start:]] *)
Definition slice_from {A} (start : Z) (xs : list A) : list A :=
  let n := Z.of_nat (List.length xs) in
  let s := if (start <? 0)%Z then Z.max (start + n) 0 else Z.min start n in
  skipn (Z.to_nat s) xs.

(** A list comprehension [[f x for x in xs]] whose body may raise. *)
Fixpoint comprehension {A B} (f : A -> result B) (xs : list A)
  : result (list B) :=
  match xs with
  | [] => Ok []
  | x :: rest =>
      b <- f x ;;
      r <- comprehension f rest ;;
      Ok (b :: r)
  end.

(** [xs[idxs]], NumPy's indexing by an index array. *)
Definition take {A} (xs : list A) (idxs : list nat) : result (list A) :=
  comprehension (getitem xs) idxs.

Record VoiceDetectionModel : Type :=
  { model : option estimator;
    scaler : option transformer;
    feature_importance : option (list npfloat);
    is_loaded : bool }.

(** [VoiceDetectionModel.__init__] *)
Definition VoiceDetectionModel_init : VoiceDetectionModel :=
  {| model := None; scaler := None;
     feature_importance := None; is_loaded := false |}.

Definition set_model m (self : VoiceDetectionModel) :=
  {| model := m; scaler := scaler self;
     feature_importance := feature_importance self;
     is_loaded := is_loaded self |}.

Definition set_scaler s (self : VoiceDetectionModel) :=
  {| model := model self; scaler := s;
     feature_importance := feature_importance self;
     is_loaded := is_loaded self |}.

Definition set_feature_importance w (self : VoiceDetectionModel) :=
  {| model := model self; scaler := scaler self;
     feature_importance := w;
     is_loaded := is_loaded self |}.

Definition set_is_loaded b (self : VoiceDetectionModel) :=
  {| model := model self; scaler := scaler self;
     feature_importance := feature_importance self;
     is_loaded := b |}.

(** Methods that assign to [self]: the object is threaded through, and an
    exception leaves it as it was when raised. *)
Definition method (A : Type) : Type :=
  VoiceDetectionModel -> result A * VoiceDetectionModel.

Definition ret {A} (a : A) : method A := fun self => (Ok a, self).

Definition raise {A} (e : exn) : method A := fun self => (Raise e, self).

Definition call {A} (r : result A) : method A := fun self => (r, self).

Definition bindM {A B} (c : method A) (k : A -> method B) : method B :=
  fun self =>
    match c self with
    | (Ok a, self') => k a self'
    | (Raise e, self') => (Raise e, self')
    end.

Definition gets {A} (f : VoiceDetectionModel -> A) : method A :=
  fun self => (Ok (f self), self).

Definition assign (f : VoiceDetectionModel -> VoiceDetectionModel)
  : method unit :=
  fun self => (Ok tt, f self).

Definition try_exceptM {A} (body : method A) (handler : exn -> method A)
  : method A :=
  fun self =>
    match body self with
    | (Ok a, self') => (Ok a, self')
    | (Raise e, self') => handler e self'
    end.

Notation "x <~ c ;; k" := (bindM c (fun x => k))
  (at level 61, c at next level, right associativity) : py_scope.
Notation "' p <~ c ;; k" := (bindM c (fun p => k))
  (at level 61, p pattern, c at next level, right associativity) : py_scope.
Notation "c ;;; k" := (bindM c (fun _ => k))
  (at level 61, right associativity) : py_scope.

Section Model.

Context `{Disk} `{Sklearn} `{Argsort}.

(** Lines 62-84 of [_create_dummy_model]: the synthetic training set. *)
Definition n_samples : nat := 200.
Definition n_features : nat := 39.

Definition dummy_training_set : result (list (list npfloat) * list Z) :=
  let g := random_seed 42 in
  let '(ai_voices, g) := random_normal (1 # 2) (1 # 10) n_samples n_features g in
  let '(human_voices, g) := random_normal (1 # 2) (3 # 10) n_samples n_features g in
  let X := (ai_voices ++ human_voices)%list in
  let y := (repeat 0%Z n_samples ++ repeat 1%Z n_samples)%list in
  let '(indices, g) := random_permutation (List.length X) g in
  X <- take X indices ;;
  y <- take y indices ;;
  Ok (X, y).

Definition _create_dummy_model : method unit :=
  assign (set_model (Some unfitted_forest)) ;;;
  '(X, y) <~ call dummy_training_set ;;
  let fitted := RandomForestClassifier_fit 100 10 42 X y in
  assign (set_model (Some (estimator_of_forest fitted))) ;;;
  assign (set_scaler None) ;;;
  assign (set_feature_importance (Some (forest_feature_importances fitted))) ;;;
  assign (set_is_loaded true).

Definition load_model : method unit :=
  try_exceptM
    (let model_path := MODEL_PATH in
     let scaler_path := SCALER_PATH in
     if negb (os_path_exists model_path) then
       _create_dummy_model
     else
       m <~ call (joblib_load model_path) ;;
       assign (set_model m) ;;;
       (if os_path_exists scaler_path then
          s <~ call (joblib_load scaler_path) ;;
          assign (set_scaler s)
        else ret tt) ;;;
       (match getattr_feature_importances_ m with
        | Some w => assign (set_feature_importance (Some w))
        | None => ret tt
        end) ;;;
       assign (set_is_loaded true))
    (fun e => _create_dummy_model).

Definition AI_GENERATED : string := "AI_GENERATED".
Definition HUMAN : string := "HUMAN".

(** [self.model.predict_proba(features)[0]] *)
Definition model_predict_proba0 (m : option estimator)
  (features : list (list npfloat)) : result (list npfloat) :=
  match m with
  | None => Raise (LibraryError "AttributeError")
  | Some m => rows <- predict_proba m features ;; getitem rows 0
  end.

Definition predict (features : list npfloat)
  : method (string * npfloat * list npfloat) :=
  loaded <~ gets is_loaded ;;
  (if negb loaded then load_model else ret tt) ;;;
  try_exceptM
    (let features := [features] in
     sc <~ gets scaler ;;
     features <~ call (match sc with
                       | Some s => transform s features
                       | None => Ok features
                       end) ;;
     m <~ gets model ;;
     probabilities <~ call (model_predict_proba0 m features) ;;
     human_prob <~ call (getitem probabilities 0) ;;
     ai_prob <~ call (getitem probabilities 1) ;;
     let '(classification, confidence_score) :=
       if Np.gt ai_prob human_prob
       then (AI_GENERATED, ai_prob)
       else (HUMAN, human_prob) in
     ret (classification, confidence_score, probabilities))
    (fun e => raise (Exception "Model prediction error")).

Definition get_top_features (self : VoiceDetectionModel)
  (features : list npfloat) (n_top : Z)
  : result (list (nat * npfloat * npfloat)) :=
  match feature_importance self with
  | None => Ok []
  | Some importance =>
      let top_indices := rev (slice_from (- n_top) (argsort importance)) in
      comprehension
        (fun idx =>
           v <- getitem features idx ;;
           w <- getitem importance idx ;;
           Ok (idx, v, w))
        top_indices
  end.

(** The two draws and the shuffle of [_create_dummy_model], by name. *)
Definition ai_voices : list (list npfloat) :=
  fst (random_normal (1 # 2) (1 # 10) n_samples n_features (random_seed 42)).

Definition human_voices : list (list npfloat) :=
  fst (random_normal (1 # 2) (3 # 10) n_samples n_features
         (snd (random_normal (1 # 2) (1 # 10) n_samples n_features
                 (random_seed 42)))).

Definition shuffle : list nat :=
  fst (random_permutation (List.length (ai_voices ++ human_voices)%list)
         (snd (random_normal (1 # 2) (3 # 10) n_samples n_features
                 (snd (random_normal (1 # 2) (1 # 10) n_samples n_features
                         (random_seed 42)))))).

Definition class_labels : list Z :=
  (repeat 0%Z n_samples ++ repeat 1%Z n_samples)%list.

(** The object [_create_dummy_model] leaves behind. *)
Definition placeholder (X : list (list npfloat)) (y : list Z)
  : VoiceDetectionModel :=
  let fitted := RandomForestClassifier_fit 100 10 42 X y in
  {| model := Some (estimator_of_forest fitted);
     scaler := None;
     feature_importance := Some (forest_feature_importances fitted);
     is_loaded := true |}.

End Model.

(** ** app/explainer.py *)

(** [f"{x:.2%}"]: the value times 100, rounded half-to-even to two
    decimals, followed by a percent sign.  The digits are those of the
    exact value: Python rounds the double nearest to [100 * x], whose last
    digit can differ next to a rounding boundary (0.12345 prints as 12.35%,
    the exact 12.345 rounds to 12.34).  The statements below name the
    formatted text as a whole and fix none of its digits. *)
Definition round_half_even (q : Q) : Z :=
  let n := Qnum q in
  let d := Zpos (Qden q) in
  let fl := (n / d)%Z in
  let r2 := (2 * (n mod d))%Z in
  if (r2 <? d)%Z then fl
  else if (d <? r2)%Z then (fl + 1)%Z
  else if Z.even fl then fl else (fl + 1)%Z.

Definition digits (z : Z) : string :=
  NilZero.string_of_uint (N.to_uint (Z.to_N z)).

Definition format_percent2 (x : npfloat) : string :=
  match x with
  | NaN => "nan%"
  | Num q =>
      let n := Z.abs (round_half_even (q * 10000)) in
      let frac := (n mod 100)%Z in
      (if Np.lt x (Num 0) then "-" else "")
        ++ digits (n / 100) ++ "."
        ++ (if (frac <? 10)%Z then "0" else "") ++ digits frac ++ "%"
  end.

Definition top_features_t : Type := option (list (nat * npfloat * npfloat)).

Definition _explain_ai_voice (confidence : npfloat)
  (features : list npfloat) (top_features : top_features_t)
  : result string :=
  let explanations := @nil string in
  pitch_std <- getitem features 14 ;;
  let explanations :=
    if Np.lt pitch_std (Num 20)
    then (explanations ++ ["unnatural pitch consistency"])%list
    else explanations in
  spectral_flatness_mean <- getitem features 26 ;;
  let explanations :=
    if Np.lt spectral_flatness_mean (Num (1 # 10))
    then (explanations ++ ["minimal spectral variations"])%list
    else explanations in
  rms_std <- getitem features 19 ;;
  let explanations :=
    if Np.lt rms_std (Num (5 # 100))
    then (explanations ++ ["uniform energy distribution"])%list
    else explanations in
  tempo <- getitem features 34 ;;
  let explanations :=
    if Np.lt (Num 100) tempo && Np.lt tempo (Num 140)
    then (explanations ++ ["mechanical speech rhythm"])%list
    else explanations in
  harmonic_ratio <- getitem features 37 ;;
  let explanations :=
    if Np.gt harmonic_ratio (Num (7 # 10))
    then (explanations ++ ["overly smooth harmonic structure"])%list
    else explanations in
  let explanations :=
    match explanations with
    | [] => (explanations ++ ["synthetic voice characteristics detected"])%list
    | _ => explanations
    end in
  let strength :=
    if Np.gt confidence (Num (9 # 10)) then "Strong"
    else if Np.gt confidence (Num (7 # 10)) then "Clear"
    else "Moderate" in
  let explanation :=
    strength ++ " indicators of AI generation: "
      ++ String.concat ", " (firstn 3 explanations) in
  Ok explanation.

Definition _explain_human_voice (confidence : npfloat)
  (features : list npfloat) (top_features : top_features_t)
  : result string :=
  let explanations := @nil string in
  pitch_std <- getitem features 14 ;;
  let explanations :=
    if Np.gt pitch_std (Num 30)
    then (explanations ++ ["natural pitch variations"])%list
    else explanations in
  spectral_flatness_mean <- getitem features 26 ;;
  let explanations :=
    if Np.gt spectral_flatness_mean (Num (15 # 100))
    then (explanations ++ ["rich spectral complexity"])%list
    else explanations in
  rms_std <- getitem features 19 ;;
  let explanations :=
    if Np.gt rms_std (Num (8 # 100))
    then (explanations ++ ["natural energy fluctuations"])%list
    else explanations in
  onset_std <- getitem features 33 ;;
  let explanations :=
    if Np.gt onset_std (Num (5 # 10))
    then (explanations ++ ["organic speech rhythm"])%list
    else explanations in
  autocorr_std <- getitem features 36 ;;
  let explanations :=
    if Np.gt autocorr_std (Num 100)
    then (explanations ++ ["natural micro-variations"])%list
    else explanations in
  let explanations :=
    match explanations with
    | [] => (explanations ++ ["human voice characteristics detected"])%list
    | _ => explanations
    end in
  let strength :=
    if Np.gt confidence (Num (9 # 10)) then "Strong"
    else if Np.gt confidence (Num (7 # 10)) then "Clear"
    else "Moderate" in
  let explanation :=
    strength ++ " indicators of human voice: "
      ++ String.concat ", " (firstn 3 explanations) in
  Ok explanation.

Definition generate_explanation (classification : string)
  (confidence : npfloat) (features : list npfloat)
  (top_features : top_features_t) : result string :=
  try_except
    (explanation <-
       (if String.eqb classification "AI_GENERATED"
        then _explain_ai_voice confidence features top_features
        else _explain_human_voice confidence features top_features) ;;
     Ok explanation)
    (fun e =>
       Ok ("Voice classified as " ++ classification ++ " with "
             ++ format_percent2 confidence ++ " confidence")).

(** ** The explanation as the specification words it

    A declarative rule table per label, evaluated uniformly; the theorems
    of Part II compare it with the two cascades above. *)

Record rule : Type :=
  { feature_index : nat;
    holds : npfloat -> bool;
    phrase : string }.

Definition spec_ai_rules : list rule :=
  [ {| feature_index := 14;
       holds := fun x => Np.lt x (Num 20);
       phrase := "unnatural pitch consistency" |};
    {| feature_index := 26;
       holds := fun x => Np.lt x (Num (1 # 10));
       phrase := "minimal spectral variations" |};
    {| feature_index := 19;
       holds := fun x => Np.lt x (Num (5 # 100));
       phrase := "uniform energy distribution" |};
    {| feature_index := 34;
       holds := fun x => Np.lt (Num 100) x && Np.lt x (Num 140);
       phrase := "mechanical speech rhythm" |};
    {| feature_index := 37;
       holds := fun x => Np.gt x (Num (7 # 10));
       phrase := "overly smooth harmonic structure" |} ].

Definition spec_human_rules : list rule :=
  [ {| feature_index := 14;
       holds := fun x => Np.gt x (Num 30);
       phrase := "natural pitch variations" |};
    {| feature_index := 26;
       holds := fun x => Np.gt x (Num (15 # 100));
       phrase := "rich spectral complexity" |};
    {| feature_index := 19;
       holds := fun x => Np.gt x (Num (8 # 100));
       phrase := "natural energy fluctuations" |};
    {| feature_index := 33;
       holds := fun x => Np.gt x (Num (5 # 10));
       phrase := "organic speech rhythm" |};
    {| feature_index := 36;
       holds := fun x => Np.gt x (Num 100);
       phrase := "natural micro-variations" |} ].

Definition rule_matches (features : list npfloat) (r : rule) : bool :=
  match nth_error features (feature_index r) with
  | Some x => holds r x
  | None => false
  end.

Definition spec_severity (confidence : npfloat) : string :=
  if Np.gt confidence (Num (9 # 10)) then "Strong"
  else if Np.gt confidence (Num (7 # 10)) then "Clear"
  else "Moderate".

Definition spec_compose (rules : list rule) (fallback label_phrase : string)
  (confidence : npfloat) (features : list npfloat) : string :=
  let matching := map phrase (filter (rule_matches features) rules) in
  let chosen :=
    match firstn 3 matching with
    | [] => [fallback]
    | ps => ps
    end in
  spec_severity confidence ++ " indicators of " ++ label_phrase ++ ": "
    ++ String.concat ", " chosen.

Definition spec_explain (ai : bool) : npfloat -> list npfloat -> string :=
  if ai
  then spec_compose spec_ai_rules
         "synthetic voice characteristics detected" "AI generation"
  else spec_compose spec_human_rules
         "human voice characteristics detected" "human voice".

Unset Implicit Arguments.

(** ** Normalisation as the specification words it *)



(** ** Notions used in the statements *)

(** [len(audio_array) / self.sample_rate] as a rational. *)
Definition duration_of (self : AudioProcessor) (audio_array : ndarray) : Q :=
  inject_Z (Z.of_nat (len audio_array)) / inject_Z (sample_rate self).

(** The duration, in seconds, that the configured processor computes. *)
Definition seconds (audio_array : ndarray) : Q :=
  duration_of AudioProcessor_init audio_array.

(** A float that is a number. *)
Definition is_num (x : npfloat) : Prop := isnan x = false.

(** Frames a reduction can be taken over: at least one, none of them
    [nan]. *)
Definition finite_frames (xs : list npfloat) : Prop :=
  xs <> [] /\ Forall is_num xs.

(** The peak of a waveform: the value [np.max(np.abs(a))]. *)
Definition peak_is (xs : list npfloat) (m : Q) : Prop :=
  exists p, Np.max (map Np.abs xs) = Ok (Num p) /\ p == m.


(** What librosa returns for this waveform, whenever it returns: as many
    cepstral rows as asked, and frames that are present and free of [nan]
    (the F0 track apart, where [nan] marks the unvoiced frames). *)
Record librosa_finite {L : Librosa} (self : FeatureExtractor)
  (audio : list npfloat) : Prop :=
  { mfcc_rows :
      forall m,
        feature_mfcc audio (fe_sample_rate self) (n_mfcc self) (n_fft self)
          (hop_length self) = Ok m ->
        List.length m = n_mfcc self /\ Forall finite_frames m;
    rms_frames :
      forall m r, feature_rms audio (hop_length self) = Ok m ->
                  nth_error m 0 = Some r -> finite_frames r;
    zcr_frames :
      forall m r, feature_zero_crossing_rate audio (hop_length self) = Ok m ->
                  nth_error m 0 = Some r -> finite_frames r;
    centroid_frames :
      forall m r,
        feature_spectral_centroid audio (fe_sample_rate self)
          (hop_length self) = Ok m ->
        nth_error m 0 = Some r -> finite_frames r;
    rolloff_frames :
      forall m r,
        feature_spectral_rolloff audio (fe_sample_rate self)
          (hop_length self) = Ok m ->
        nth_error m 0 = Some r -> finite_frames r;
    flatness_frames :
      forall m r,
        feature_spectral_flatness audio (hop_length self) = Ok m ->
        nth_error m 0 = Some r -> finite_frames r;
    bandwidth_frames :
      forall m r,
        feature_spectral_bandwidth audio (fe_sample_rate self)
          (hop_length self) = Ok m ->
        nth_error m 0 = Some r -> finite_frames r;
    contrast_frames :
      forall m r,
        feature_spectral_contrast audio (fe_sample_rate self)
          (hop_length self) = Ok m ->
        nth_error m 0 = Some r -> finite_frames r;
    onset_frames :
      forall env,
        onset_onset_strength audio (fe_sample_rate self) (hop_length self)
        = Ok env ->
        finite_frames env;
    tempo_num :
      forall tempo beats,
        beat_beat_track audio (fe_sample_rate self) (hop_length self)
        = Ok (tempo, beats) ->
        is_num tempo;
    autocorr_frames :
      forall r, autocorrelate audio = Ok r -> finite_frames r;
    hpss_frames :
      forall h p, effects_hpss audio = Ok (h, p) ->
                  finite_frames h /\ finite_frames p }.

(** The body of the [try] block of [generate_explanation]. *)
Definition explanation_attempt (classification : string)
  (confidence : npfloat) (features : list npfloat) (tf : top_features_t)
  : result string :=
  if String.eqb classification "AI_GENERATED"
  then _explain_ai_voice confidence features tf
  else _explain_human_voice confidence features tf.

(** The index of a triple of [get_top_features]. *)
Definition index_of (t : nat * npfloat * npfloat) : nat := fst (fst t).

(** A triple pairs an index with the sample's value and the weight there. *)
Definition paired (features importance : list npfloat)
  (t : nat * npfloat * npfloat) : Prop :=
  nth_error features (index_of t) = Some (snd (fst t))
  /\ nth_error importance (index_of t) = Some (snd t).

(** The last [k] indices of the ascending order, highest first. *)
Definition last_reversed {A : Argsort} (importance : list npfloat) (k : nat)
  : list nat :=
  rev (skipn (List.length importance - k) (argsort importance)).

(** ** Reference implementations of the interfaces

    Small executable stand-ins for the libraries, on which the model can be
    run: a generator that returns its mean everywhere, the identity
    permutation, a learner that returns a fixed forest; three frames per
    librosa feature and an F0 track with one unvoiced frame (all unvoiced on
    a silent waveform); a square root correct to six decimals; a stable
    [argsort] by insertion, as NumPy runs it on short arrays. *)

Definition even_forest : forest :=
  {| forest_predict_proba :=
       fun rows => Ok (map (fun _ => [Num (1 # 2); Num (1 # 2)]) rows);
     forest_feature_importances := repeat (Num (1 # 39)) 39 |}.

#[local] Instance constant_sklearn : Sklearn :=
  {| rng := unit;
     random_seed := fun _ => tt;
     random_normal :=
       fun loc _ n m _ => (repeat (repeat (Num loc) m) n, tt);
     random_permutation := fun n _ => (seq 0 n, tt);
     RandomForestClassifier_fit := fun _ _ _ _ _ => even_forest |}.

#[local] Instance empty_disk : Disk :=
  {| MODEL_PATH := Missing; SCALER_PATH := Missing |}.

(** A stored classifier without importances (a soft-voting ensemble, as
    [train_model.py] saves) that answers [0.2, 0.8] for every row. *)
Definition voting_classifier : estimator :=
  {| predict_proba :=
       fun rows => Ok (map (fun _ => [Num (2 # 10); Num (8 # 10)]) rows);
     feature_importances_ := None |}.

#[local] Instance trained_disk : Disk :=
  {| MODEL_PATH := Stored (Some voting_classifier); SCALER_PATH := Missing |}.

(** A model file that holds a pickled [None]. *)
Definition none_disk : Disk :=
  {| MODEL_PATH := Stored None; SCALER_PATH := Missing |}.

#[local] Instance decimal_sqrt : Libm :=
  {| sqrt := fun q =>
       Z.sqrt (Qnum q * 1000000000000 / Zpos (Qden q)) # 1000000 |}.

Definition three_frames : list npfloat := [Num 1; Num 2; Num 3].

Definition silent (y : list npfloat) : bool :=
  forallb (fun x => match x with Num q => Qeq_bool q 0 | NaN => false end) y.

#[local] Instance steady_librosa : Librosa :=
  {| note_to_hz :=
       fun note => if String.eqb note "C2" then Num (654 # 10) else Num 2093;
     feature_mfcc := fun _ _ n _ _ => Ok (repeat three_frames n);
     pyin := fun y _ _ _ =>
       if silent y
       then Ok ([NaN; NaN; NaN], [false; false; false],
                [Num 0; Num 0; Num 0])
       else Ok ([Num 200; NaN; Num 210], [true; false; true],
                [Num 1; Num 0; Num 1]);
     feature_rms := fun _ _ => Ok [three_frames];
     feature_zero_crossing_rate := fun _ _ => Ok [three_frames];
     feature_spectral_centroid := fun _ _ _ => Ok [three_frames];
     feature_spectral_rolloff := fun _ _ _ => Ok [three_frames];
     feature_spectral_flatness := fun _ _ => Ok [three_frames];
     feature_spectral_bandwidth := fun _ _ _ => Ok [three_frames];
     feature_spectral_contrast := fun _ _ _ => Ok [three_frames; three_frames];
     onset_onset_strength := fun _ _ _ => Ok three_frames;
     beat_beat_track := fun _ _ _ => Ok (Num 120, [1; 2]%nat);
     autocorrelate := fun y => Ok y;
     effects_hpss := fun y => Ok (y, y) |}.


Fixpoint insert_index (v : list npfloat) (i : nat) (sorted : list nat)
  : list nat :=
  match sorted with
  | [] => [i]
  | j :: rest =>
      if sort_le (key_at v j) (key_at v i)
      then j :: insert_index v i rest
      else i :: j :: rest
  end.

Definition stable_argsort (v : list npfloat) : list nat :=
  fold_left (fun acc i => insert_index v i acc) (seq 0 (List.length v)) [].

#[local] Instance insertion_argsort : Argsort :=
  {| argsort := stable_argsort |}.

(** Sample inputs. *)
Definition constant_vector (q : Q) : list npfloat := repeat (Num q) 39.

Definition zero_vector : list npfloat := constant_vector 0.

Definition two_samples : list npfloat := [Num 1; Num (-1 # 2)].

Definition two_zeros : list npfloat := [Num 0; Num 0].



(** An object that holds nothing but a weighting. *)
Definition with_importance (w : option (list npfloat)) : VoiceDetectionModel :=
  {| model := None; scaler := None;
     feature_importance := w; is_loaded := true |}.

(** ** app/utils.py *)

(** [base64.b64decode(s, validate=True)] of the standard library. *)
Class Base64 : Type :=
  { b64decode : string -> result (list Byte.byte) }.

(** The characters [str.strip()] removes, among those below 128: tab to
    carriage return, the four separators 28 to 31, and the space.  Strings
    are sequences of such characters, as a Base64 payload is; the white
    space of Unicode above 127 (U+0085, U+00A0 and others), which
    [str.strip()] removes as well, is outside the embedding. *)
Definition isspace (c : ascii) : bool :=
  let n := nat_of_ascii c in
  ((9 <=? n) && (n <=? 13) || (28 <=? n) && (n <=? 31) || (n =? 32))%nat.

Fixpoint lstrip (s : list ascii) : list ascii :=
  match s with
  | c :: rest => if isspace c then lstrip rest else s
  | [] => []
  end.

Definition rstrip (s : list ascii) : list ascii := rev (lstrip (rev s)).

Definition strip (s : list ascii) : list ascii := rstrip (lstrip s).

(** [s.replace(c, '')] for a one-character [c]. *)
Definition remove_char (c : ascii) (s : list ascii) : list ascii :=
  filter (fun x => negb (Ascii.eqb x c)) s.

Definition newline : ascii := ascii_of_nat 10.
Definition carriage_return : ascii := ascii_of_nat 13.

(** As for the exceptions above, the text of a message is the constant
    head of the f-string of the code; the formatted tail ([str(e)], a
    number) is not part of the model. *)
Definition decode_base64_audio `{Base64} (base64_string : string)
  : result (list Byte.byte) :=
  try_except
    (let base64_string :=
       remove_char carriage_return
         (remove_char newline (strip (list_ascii_of_string base64_string))) in
     audio_bytes <- b64decode (string_of_list_ascii base64_string) ;;
     Ok audio_bytes)
    (fun e => Raise (ValueError "Failed to decode base64 audio")).

(** A [Dict[str, Any]] whose values are strings, in insertion order. *)
Definition create_error_response (error : string) (detail : option string)
  : list (string * string) :=
  let response := [("status", "error"); ("error", error)] in
  match detail with
  | Some (String c d) => (response ++ [("detail", String c d)])%list
  | _ => response
  end.

(** [d.get(key)] *)
Fixpoint dict_get {V} (d : list (string * V)) (key : string) : option V :=
  match d with
  | [] => None
  | (k, v) :: rest => if String.eqb k key then Some v else dict_get rest key
  end.

(** ** app/config.py, the settings read from the environment *)

Class Settings : Type :=
  { API_KEY : string;
    MAX_AUDIO_SIZE_MB : Z }.

Definition MAX_AUDIO_SIZE_BYTES `{Settings} : Z :=
  (MAX_AUDIO_SIZE_MB * 1024 * 1024)%Z.

(** ** app/auth.py *)

(** What a request handler ends with: a value, or a raised
    [HTTPException(status_code, detail)]. *)
Inductive http_result (A : Type) : Type :=
| Responded (a : A)
| HTTPException (status_code : nat) (detail : string).

Arguments Responded {A} a.
Arguments HTTPException {A} status_code detail.


(** ** model/model.py, [save_model] with its default paths

    The disk after the call.  [joblib.dump] replaces what the path held,
    and dumps [self.model] whatever it is, [None] included.  The directory
    and the files are taken to be writable: a failing [mkdir] or
    [joblib.dump] is outside the embedding. *)
Definition save_model `{Disk} (self : VoiceDetectionModel) : Disk :=
  {| MODEL_PATH := Stored (model self);
     SCALER_PATH := match scaler self with
                    | Some s => Stored (Some s)
                    | None => SCALER_PATH
                    end |}.

(** ** app/explainer.py, [FEATURE_NAMES] and [get_detailed_analysis] *)

Definition FEATURE_NAMES : list string :=
  [ "MFCC-1"; "MFCC-2"; "MFCC-3"; "MFCC-4"; "MFCC-5"; "MFCC-6"; "MFCC-7";
    "MFCC-8"; "MFCC-9"; "MFCC-10"; "MFCC-11"; "MFCC-12"; "MFCC-13";
    "Pitch Mean"; "Pitch Std"; "Pitch Min"; "Pitch Max"; "Pitch Range";
    "RMS Mean"; "RMS Std"; "ZCR Mean"; "ZCR Std";
    "Spectral Centroid Mean"; "Spectral Centroid Std";
    "Spectral Rolloff Mean"; "Spectral Rolloff Std";
    "Spectral Flatness Mean"; "Spectral Flatness Std";
    "Spectral Bandwidth Mean"; "Spectral Bandwidth Std";
    "Spectral Contrast Mean"; "Spectral Contrast Std";
    "Onset Mean"; "Onset Std"; "Tempo";
    "Autocorr Mean"; "Autocorr Std";
    "Harmonic Ratio"; "Percussive Ratio" ].

#[local] Set Warnings "-register-all".

(** The values a JSON-like dictionary of the analysis holds. *)
Inductive pyval : Type :=
| PyFloat (x : npfloat)
| PyStr (s : string)
| PyList (l : list pyval)
| PyDict (d : list (string * pyval)).

(** One entry of ["top_contributing_features"]. *)
Definition contributing_feature (t : nat * npfloat * npfloat)
  : result pyval :=
  let '(idx, val, imp) := t in
  name <- getitem FEATURE_NAMES idx ;;
  Ok (PyDict [("name", PyStr name);
              ("value", PyFloat val);
              ("importance", PyFloat imp)]).

Definition get_detailed_analysis (features : list npfloat)
  (top_features : top_features_t) : result (list (string * pyval)) :=
  f13 <- getitem features 13 ;;
  f14 <- getitem features 14 ;;
  f17 <- getitem features 17 ;;
  f18 <- getitem features 18 ;;
  f19 <- getitem features 19 ;;
  f20 <- getitem features 20 ;;
  f22 <- getitem features 22 ;;
  f26 <- getitem features 26 ;;
  f30 <- getitem features 30 ;;
  f34 <- getitem features 34 ;;
  f37 <- getitem features 37 ;;
  let analysis :=
    [ ("pitch_analysis",
       PyDict [("mean", PyFloat f13); ("std", PyFloat f14);
               ("range", PyFloat f17)]);
      ("energy_analysis",
       PyDict [("rms_mean", PyFloat f18); ("rms_std", PyFloat f19);
               ("zcr_mean", PyFloat f20)]);
      ("spectral_analysis",
       PyDict [("centroid_mean", PyFloat f22);
               ("flatness_mean", PyFloat f26);
               ("contrast_mean", PyFloat f30)]);
      ("prosody_analysis",
       PyDict [("tempo", PyFloat f34); ("harmonic_ratio", PyFloat f37)]) ] in
  match top_features with
  | Some (t :: rest) =>
      entries <- comprehension contributing_feature (t :: rest) ;;
      Ok (analysis ++ [("top_contributing_features", PyList entries)])%list
  | _ => Ok analysis
  end.

(** ** main.py, [detect_voice] *)

Record VoiceDetectionRequest : Type :=
  { audio_base64 : string;
    language : string }.

Record VoiceDetectionResponse : Type :=
  { status : string;
    response_language : string;
    classification : string;
    confidenceScore : npfloat;
    explanation : string }.

(** The field constraints of the response schema: the two literals and
    [ge=0.0, le=1.0], which [nan] does not pass. *)
Definition in_unit_interval (x : npfloat) : bool :=
  match x with
  | Num q => Qle_bool 0 q && Qle_bool q 1
  | NaN => false
  end.

Definition VoiceDetectionResponse_init (status language classification : string)
  (confidenceScore : npfloat) (explanation : string)
  : result VoiceDetectionResponse :=
  if (String.eqb status "success" || String.eqb status "error")
     && (String.eqb classification "AI_GENERATED"
         || String.eqb classification "HUMAN")
     && in_unit_interval confidenceScore
  then Ok {| status := status;
             response_language := language;
             classification := classification;
             confidenceScore := confidenceScore;
             explanation := explanation |}
  else Raise (LibraryError "ValidationError").

(** app/schemas.py, [VoiceDetectionRequest]: the field constraints
    ([min_length=100], the five literals), then the validator
    [validate_base64], whose [ValueError] pydantic turns into a
    validation error as well. *)
Definition validate_base64 `{Base64} (v : string) : result string :=
  try_except
    (_ <- b64decode v ;; Ok v)
    (fun e => Raise (ValueError "Invalid base64 encoding")).

Definition supported_languages : list string :=
  ["Tamil"; "English"; "Hindi"; "Malayalam"; "Telugu"].

Definition VoiceDetectionRequest_init `{Base64}
  (audio_base64 language : string) : result VoiceDetectionRequest :=
  if (100 <=? String.length audio_base64)%nat
     && existsb (String.eqb language) supported_languages
  then
    try_except
      (v <- validate_base64 audio_base64 ;;
       Ok {| audio_base64 := v; language := language |})
      (fun e => Raise (LibraryError "ValidationError"))
  else Raise (LibraryError "ValidationError").

(** [validate=True]: a character outside the Base64 alphabet, and so any
    white space, makes [b64decode] raise [binascii.Error]. *)
Class Base64Laws (B : Base64) : Prop :=
  { b64decode_validates :
      forall s bytes,
        b64decode s = Ok bytes ->
        forallb (fun c => negb (isspace c)) (list_ascii_of_string s) = true }.

(** [round(x, 4)] *)
Definition round4 (x : npfloat) : npfloat :=
  match x with
  | Num q => Num (round_half_even (q * 10000) # 10000)
  | NaN => NaN
  end.

(** What the body of the handler ends with: a value, a Python exception or
    an [HTTPException]. *)
Inductive raised : Type :=
| Py (e : exn)
| Http (status_code : nat) (detail : string).

Inductive outcome (A : Type) : Type :=
| Done (a : A)
| Thrown (r : raised).

Arguments Done {A} a.
Arguments Thrown {A} r.

Section Endpoint.

Context `{Settings} `{Base64} `{Decoder} `{Libm} `{Librosa}.
Context `{Disk} `{Sklearn} `{Argsort}.

(** The module-level [audio_processor] and [feature_extractor]. *)
Definition audio_processor : AudioProcessor := AudioProcessor_init.
Definition feature_extractor : FeatureExtractor := FeatureExtractor_init.

(** Step 3 of the handler: the [try] around [process_audio] and
    [validate_audio_duration]. *)
Definition process_and_validate (audio_bytes : list Byte.byte)
  : result ndarray :=
  '(audio_array, sample_rate) <- process_audio audio_processor audio_bytes ;;
  _ <- validate_audio_duration audio_processor audio_array
         default_min_duration default_max_duration ;;
  Ok audio_array.

(** The outer [try] block of [detect_voice]; [voice_model] is the global
    model object.  [process_audio] returns a one-dimensional array, whose
    samples [ravel] gives. *)
Definition detect_voice_body (request : VoiceDetectionRequest)
  (voice_model : VoiceDetectionModel)
  : outcome VoiceDetectionResponse * VoiceDetectionModel :=
  match decode_base64_audio (audio_base64 request) with
  | Raise (ValueError msg) => (Thrown (Http 400 msg), voice_model)
  | Raise e => (Thrown (Py e), voice_model)
  | Ok audio_bytes =>
  if (MAX_AUDIO_SIZE_BYTES <? Z.of_nat (List.length audio_bytes))%Z
  then (Thrown (Http 400 "Audio file too large"), voice_model)
  else
  match process_and_validate audio_bytes with
  | Raise e => (Thrown (Http 400 "Audio processing failed"), voice_model)
  | Ok audio_array =>
  match extract_features feature_extractor (ravel audio_array) with
  | Raise e => (Thrown (Http 500 "Feature extraction failed"), voice_model)
  | Ok features =>
  match predict features voice_model with
  | (Raise e, voice_model) =>
      (Thrown (Http 500 "Model prediction failed"), voice_model)
  | (Ok (classification, confidence, probabilities), voice_model) =>
  match get_top_features voice_model features 5 with
  | Raise e => (Thrown (Py e), voice_model)
  | Ok top_features =>
  match generate_explanation classification confidence features
          (Some top_features) with
  | Raise e => (Thrown (Py e), voice_model)
  | Ok explanation =>
  match VoiceDetectionResponse_init "success" (language request)
          classification (round4 confidence) explanation with
  | Raise e => (Thrown (Py e), voice_model)
  | Ok response => (Done response, voice_model)
  end end end end end end end.

(** [except HTTPException: raise] and [except Exception: ... 500]. *)
Definition detect_voice (request : VoiceDetectionRequest)
  (voice_model : VoiceDetectionModel)
  : http_result VoiceDetectionResponse * VoiceDetectionModel :=
  match detect_voice_body request voice_model with
  | (Done response, voice_model) => (Responded response, voice_model)
  | (Thrown (Http status_code detail), voice_model) =>
      (HTTPException status_code detail, voice_model)
  | (Thrown (Py e), voice_model) =>
      (HTTPException 500 "Internal server error", voice_model)
  end.

End Endpoint.

(** [http_exception_handler]: the status code and the JSON body of the
    error response; an [HTTPException] always has its [detail]. *)
Definition http_exception_handler (status_code : nat) (detail : string)
  : nat * list (string * string) :=
  (status_code, create_error_response detail (Some detail)).

(** ** More notions used in the statements *)

(** Equality of float values up to the representation of the rational. *)
Definition np_eq (a b : npfloat) : Prop :=
  match a, b with
  | Num x, Num y => x == y
  | NaN, NaN => True
  | _, _ => False
  end.

(** What the [try] block of [predict] computes from the model and the
    scaler of a loaded object. *)
Definition inference (m : option estimator) (sc : option transformer)
  (features : list npfloat) : result (string * npfloat * list npfloat) :=
  try_except
    (let features := [features] in
     features <- match sc with
                 | Some s => transform s features
                 | None => Ok features
                 end ;;
     probabilities <- model_predict_proba0 m features ;;
     human_prob <- getitem probabilities 0 ;;
     ai_prob <- getitem probabilities 1 ;;
     let '(classification, confidence_score) :=
       if Np.gt ai_prob human_prob
       then (AI_GENERATED, ai_prob)
       else (HUMAN, human_prob) in
     Ok (classification, confidence_score, probabilities))
    (fun e => Raise (Exception "Model prediction error")).

(** The entry of the analysis made from one triple. *)
Definition entry_of (t : nat * npfloat * npfloat) (e : pyval) : Prop :=
  exists name,
    nth_error FEATURE_NAMES (index_of t) = Some name
    /\ e = PyDict [("name", PyStr name);
                   ("value", PyFloat (snd (fst t)));
                   ("importance", PyFloat (snd t))].

(** The payload after [strip] and the two [replace] calls of
    [decode_base64_audio]. *)
Definition cleaned (s : list ascii) : list ascii :=
  remove_char carriage_return (remove_char newline (strip s)).

(** ** More reference implementations *)

(** A codec that takes every character of the Base64 alphabet for one byte
    and refuses any other. *)
Definition in_alphabet (c : ascii) : bool :=
  let n := nat_of_ascii c in
  ((65 <=? n) && (n <=? 90) || (97 <=? n) && (n <=? 122)
   || (48 <=? n) && (n <=? 57) || (n =? 43) || (n =? 47) || (n =? 61))%nat.

#[local] Instance bytewise_codec : Base64 :=
  {| b64decode := fun s =>
       if forallb in_alphabet (list_ascii_of_string s)
       then Ok (map byte_of_ascii (list_ascii_of_string s))
       else Raise (LibraryError "binascii.Error") |}.

(** A payload of a hundred characters. *)
Definition long_payload : string :=
  string_of_list_ascii (repeat "A"%char 100).

#[local] Instance demo_settings : Settings :=
  {| API_KEY := "hackathon_demo_key_2026"; MAX_AUDIO_SIZE_MB := 10 |}.

(** A decoder that yields one second of a constant signal at 1. *)
#[local] Instance one_second_decoder : Decoder :=
  {| librosa_load := fun _ sr => Ok (repeat (Num 1) (Z.to_nat sr)) |}.

(** A stored forest with three weights, and a disk that holds it with a
    scaler that doubles every value. *)
Definition small_forest : forest :=
  {| forest_predict_proba :=
       fun rows => Ok (map (fun _ => [Num (1 # 4); Num (3 # 4)]) rows);
     forest_feature_importances := [Num (1 # 10); Num (6 # 10); Num (3 # 10)] |}.

Definition doubling_scaler : transformer :=
  {| transform := fun rows => Ok (map (map (Np.mul (Num 2))) rows) |}.

(** A disk with a scaler file left behind and no model file. *)
#[local] Instance scaler_only_disk : Disk :=
  {| MODEL_PATH := Missing; SCALER_PATH := Stored (Some doubling_scaler) |}.

(** A classifier fitted on one class only: one probability per row. *)
Definition one_class_model : estimator :=
  {| predict_proba := fun rows => Ok (map (fun _ => [Num 1]) rows);
     feature_importances_ := None |}.

Definition one_class_object : VoiceDetectionModel :=
  {| model := Some one_class_model; scaler := None;
     feature_importance := None; is_loaded := true |}.

(** A classifier that reads the first feature of each row: above 1 the
    class-1 probability is 3/4, otherwise 1/4.  The object that holds it
    has the doubling scaler in front. *)
Definition threshold_classifier : estimator :=
  {| predict_proba :=
       fun rows =>
         Ok (map (fun row =>
                    match row with
                    | x :: _ =>
                        if Np.gt x (Num 1)
                        then [Num (1 # 4); Num (3 # 4)]
                        else [Num (3 # 4); Num (1 # 4)]
                    | [] => [Num (1 # 2); Num (1 # 2)]
                    end) rows);
     feature_importances_ := None |}.

Definition threshold_object : VoiceDetectionModel :=
  {| model := Some threshold_classifier; scaler := Some doubling_scaler;
     feature_importance := None; is_loaded := true |}.

(* ================================================================== *)
(** * Part II. Properties                                              *)
(* ================================================================== *)

(** ** Comparisons of float values *)

Lemma lt_Num (x y : Q) : Np.lt (Num x) (Num y) = true <-> x < y.
Proof.
  unfold Np.lt. rewrite negb_true_iff.
  split; intro E.
  - apply Qnot_le_lt. intro L. apply Qle_bool_iff in L. congruence.
  - destruct (Qle_bool y x) eqn:L; [ | reflexivity ].
    apply Qle_bool_iff in L. exfalso. exact (Qlt_not_le _ _ E L).
Qed.

Lemma lt_Num_false (x y : Q) : Np.lt (Num x) (Num y) = false <-> y <= x.
Proof.
  unfold Np.lt. rewrite negb_false_iff. apply Qle_bool_iff.
Qed.

Lemma gt_Num (x y : Q) : Np.gt (Num x) (Num y) = true <-> y < x.
Proof. unfold Np.gt. apply lt_Num. Qed.

Lemma gt_Num_false (x y : Q) : Np.gt (Num x) (Num y) = false <-> x <= y.
Proof. unfold Np.gt. apply lt_Num_false. Qed.

(** ** Duration validation *)

Section Duration.

Variable self : AudioProcessor.
Hypothesis rate_pos : (0 < sample_rate self)%Z.

Lemma true_div_duration (a : ndarray) :
  true_div (len a) (sample_rate self) = Ok (duration_of self a).
Proof.
  unfold true_div, duration_of.
  destruct (Z.eqb_spec (sample_rate self) 0) as [E | _]; [ lia | reflexivity ].
Qed.

Lemma validate_too_short (a : ndarray) (lo hi : Q) :
  duration_of self a < lo ->
  validate_audio_duration self a lo hi = Raise (ValueError "Audio too short").
Proof.
  intro L. unfold validate_audio_duration.
  rewrite true_div_duration. cbn [bind].
  apply lt_Num in L. rewrite L. reflexivity.
Qed.

Lemma validate_too_long (a : ndarray) (lo hi : Q) :
  lo <= duration_of self a -> hi < duration_of self a ->
  validate_audio_duration self a lo hi = Raise (ValueError "Audio too long").
Proof.
  intros L G. unfold validate_audio_duration.
  rewrite true_div_duration. cbn [bind].
  apply lt_Num_false in L. rewrite L.
  apply gt_Num in G. rewrite G. reflexivity.
Qed.

Lemma validate_within (a : ndarray) (lo hi : Q) :
  lo <= duration_of self a -> duration_of self a <= hi ->
  validate_audio_duration self a lo hi = Ok true.
Proof.
  intros L G. unfold validate_audio_duration.
  rewrite true_div_duration. cbn [bind].
  apply lt_Num_false in L. rewrite L.
  apply gt_Num_false in G. rewrite G. reflexivity.
Qed.

End Duration.

Lemma config_rate_pos : (0 < sample_rate AudioProcessor_init)%Z.
Proof. reflexivity. Qed.

(** C5.  With the configured sample rate and the default bounds,
    [validate_audio_duration] computes the duration as the sample count
    divided by the sample rate; it raises [ValueError] (the specification's
    ValidationError) exactly when that duration is below 0.5 s or above
    30.0 s, in particular for a waveform of 0.3 s and for one of 45 s, and
    returns [True] for every duration within the bounds. *)
Theorem validate_audio_duration_default_bounds :
  forall audio_array : ndarray,
    let check :=
      validate_audio_duration AudioProcessor_init audio_array
        default_min_duration default_max_duration in
    let d := seconds audio_array in
    d == inject_Z (Z.of_nat (len audio_array)) / inject_Z config.SAMPLE_RATE
    /\ (d < 1 # 2 -> check = Raise (ValueError "Audio too short"))
    /\ (30 < d -> check = Raise (ValueError "Audio too long"))
    /\ (1 # 2 <= d <= 30 -> check = Ok true)
    /\ (check = Ok true \/ exists msg, check = Raise (ValueError msg))
    /\ (d == 3 # 10 -> exists msg, check = Raise (ValueError msg))
    /\ (d == 45 -> exists msg, check = Raise (ValueError msg)).
Proof.
  intros a check d.
  assert (Short : d < 1 # 2 -> check = Raise (ValueError "Audio too short")).
  { intro L. apply validate_too_short; [ exact config_rate_pos | exact L ]. }
  assert (Long : 30 < d -> check = Raise (ValueError "Audio too long")).
  { intro G. apply validate_too_long;
      [ exact config_rate_pos | | exact G ].
    apply Qlt_le_weak. apply Qlt_trans with 30; [ reflexivity | exact G ]. }
  assert (Fine : 1 # 2 <= d <= 30 -> check = Ok true).
  { intros [L G]. apply validate_within;
      [ exact config_rate_pos | exact L | exact G ]. }
  split; [ reflexivity | ].
  split; [ exact Short | ].
  split; [ exact Long | ].
  split; [ exact Fine | ].
  split; [ | split ].
  - destruct (Qlt_le_dec d (1 # 2)) as [L | L].
    + right. eexists. exact (Short L).
    + destruct (Qlt_le_dec 30 d) as [G | G].
      * right. eexists. exact (Long G).
      * left. apply Fine. split; assumption.
  - intro E. eexists. apply Short. rewrite E. reflexivity.
  - intro E. eexists. apply Long. rewrite E. reflexivity.
Qed.

(** ** The explainer *)

Ltac split_tests :=
  repeat match goal with
         | |- context [Np.lt ?a ?b] => destruct (Np.lt a b)
         | |- context [Np.gt ?a ?b] => destruct (Np.gt a b)
         end.

Ltac explode_vector v :=
  do 39 (destruct v as [ | ? v ]; [ discriminate | ]);
  destruct v; [ | discriminate ].

Lemma explain_ai_refines (confidence : npfloat) (features : list npfloat)
  (tf : top_features_t) :
  List.length features = 39%nat ->
  _explain_ai_voice confidence features tf
  = Ok (spec_explain true confidence features).
Proof.
  intro L. explode_vector features.
  unfold spec_explain, spec_compose, spec_severity, spec_ai_rules,
    spec_human_rules.
  cbn -[Np.lt Np.gt String.append String.concat].
  split_tests; reflexivity.
Qed.

Lemma explain_human_refines (confidence : npfloat) (features : list npfloat)
  (tf : top_features_t) :
  List.length features = 39%nat ->
  _explain_human_voice confidence features tf
  = Ok (spec_explain false confidence features).
Proof.
  intro L. explode_vector features.
  unfold spec_explain, spec_compose, spec_severity, spec_ai_rules,
    spec_human_rules.
  cbn -[Np.lt Np.gt String.append String.concat].
  split_tests; reflexivity.
Qed.

Lemma severity_prefix_nonempty (confidence : npfloat) (rest : string) :
  (if Np.gt confidence (Num (9 # 10)) then "Strong"
   else if Np.gt confidence (Num (7 # 10)) then "Clear"
   else "Moderate") ++ rest <> "".
Proof. split_tests; discriminate. Qed.

Ltac step_getitem features i :=
  unfold getitem at 1;
  destruct (nth_error features i); cbn [bind]; [ | discriminate ].

Lemma explain_ai_nonempty (confidence : npfloat) (features : list npfloat)
  (tf : top_features_t) (s : string) :
  _explain_ai_voice confidence features tf = Ok s -> s <> "".
Proof.
  unfold _explain_ai_voice.
  step_getitem features 14%nat. step_getitem features 26%nat.
  step_getitem features 19%nat. step_getitem features 34%nat.
  step_getitem features 37%nat.
  intro E. injection E as <-. apply severity_prefix_nonempty.
Qed.

Lemma explain_human_nonempty (confidence : npfloat) (features : list npfloat)
  (tf : top_features_t) (s : string) :
  _explain_human_voice confidence features tf = Ok s -> s <> "".
Proof.
  unfold _explain_human_voice.
  step_getitem features 14%nat. step_getitem features 26%nat.
  step_getitem features 19%nat. step_getitem features 33%nat.
  step_getitem features 36%nat.
  intro E. injection E as <-. apply severity_prefix_nonempty.
Qed.

Lemma generate_explanation_unfold classification confidence features tf :
  generate_explanation classification confidence features tf
  = match explanation_attempt classification confidence features tf with
    | Ok s => Ok s
    | Raise _ =>
        Ok ("Voice classified as " ++ classification ++ " with "
              ++ format_percent2 confidence ++ " confidence")
    end.
Proof.
  unfold generate_explanation, explanation_attempt.
  destruct (String.eqb classification "AI_GENERATED").
  - destruct (_explain_ai_voice confidence features tf); reflexivity.
  - destruct (_explain_human_voice confidence features tf); reflexivity.
Qed.

(** C7.  On a 39-element vector each cascade of the explainer computes
    what the rule table of its label prescribes: the rules are tried in the
    documented order (for AI_GENERATED: pitch std < 20, spectral-flatness
    mean < 0.1, RMS std < 0.05, tempo strictly between 100 and 140, harmonic
    ratio > 0.7), the first three matching phrases are kept, the generic
    phrase of the label stands in when none matches, the severity is Strong
    above 0.9, Clear above 0.7 and Moderate otherwise, and the text is
    "{Strength} indicators of {label-phrase}: {joined phrases}". *)
Theorem explanation_follows_rule_table :
  forall (confidence : npfloat) (features : list npfloat)
         (tf : top_features_t),
    List.length features = 39%nat ->
    _explain_ai_voice confidence features tf
    = Ok (spec_explain true confidence features)
    /\ _explain_human_voice confidence features tf
       = Ok (spec_explain false confidence features)
    /\ generate_explanation AI_GENERATED confidence features tf
       = Ok (spec_explain true confidence features)
    /\ generate_explanation HUMAN confidence features tf
       = Ok (spec_explain false confidence features).
Proof.
  intros confidence features tf L.
  pose proof (explain_ai_refines confidence features tf L) as A.
  pose proof (explain_human_refines confidence features tf L) as B.
  repeat split; try assumption.
  - rewrite generate_explanation_unfold. unfold explanation_attempt.
    cbn [AI_GENERATED String.eqb Ascii.eqb Bool.eqb]. rewrite A. reflexivity.
  - rewrite generate_explanation_unfold. unfold explanation_attempt.
    cbn [HUMAN String.eqb Ascii.eqb Bool.eqb]. rewrite B. reflexivity.
Qed.

Lemma explanation_follows_rule_table_witness :
  generate_explanation AI_GENERATED (Num (95 # 100)) zero_vector None
  = Ok ("Strong indicators of AI generation: unnatural pitch consistency, "
        ++ "minimal spectral variations, uniform energy distribution")
  /\ generate_explanation HUMAN (Num (1 # 2)) zero_vector None
     = Ok "Moderate indicators of human voice: human voice characteristics detected".
Proof.
  split.
  - exact (proj1 (proj2 (proj2
      (explanation_follows_rule_table (Num (95 # 100)) zero_vector None
         eq_refl)))).
  - exact (proj2 (proj2 (proj2
      (explanation_follows_rule_table (Num (1 # 2)) zero_vector None
         eq_refl)))).
Defined.

(** The order of the rules, the cap at three phrases and the open ends of
    the tempo interval, on vectors that hold one value everywhere. *)
Example explanation_at_120 :
  generate_explanation AI_GENERATED (Num (8 # 10)) (constant_vector 120) None
  = Ok ("Clear indicators of AI generation: mechanical speech rhythm, "
        ++ "overly smooth harmonic structure")
  /\ generate_explanation HUMAN (Num (95 # 100)) (constant_vector 120) None
     = Ok ("Strong indicators of human voice: natural pitch variations, "
           ++ "rich spectral complexity, natural energy fluctuations").
Proof. split; reflexivity. Qed.

Example explanation_at_140 :
  generate_explanation AI_GENERATED (Num (9 # 10)) (constant_vector 140) None
  = Ok "Clear indicators of AI generation: overly smooth harmonic structure"
  /\ generate_explanation AI_GENERATED (Num (7 # 10)) (constant_vector 100)
       None
     = Ok ("Moderate indicators of AI generation: "
           ++ "overly smooth harmonic structure").
Proof. split; reflexivity. Qed.

(** C8.  [generate_explanation] returns on every input, and what it
    returns is never the empty string; whenever the cascade of the label
    raises, the result is the sentence built from the label and the
    confidence alone; on a 39-element vector the cascade does not raise. *)
Theorem generate_explanation_never_fails :
  forall (classification : string) (confidence : npfloat)
         (features : list npfloat) (tf : top_features_t),
    exists s : string,
      generate_explanation classification confidence features tf = Ok s
      /\ s <> ""
      /\ (forall e,
             explanation_attempt classification confidence features tf
             = Raise e ->
             s = "Voice classified as " ++ classification ++ " with "
                   ++ format_percent2 confidence ++ " confidence")
      /\ (List.length features = 39%nat ->
          explanation_attempt classification confidence features tf = Ok s).
Proof.
  intros classification confidence features tf.
  rewrite generate_explanation_unfold.
  destruct (explanation_attempt classification confidence features tf)
    as [s | e] eqn:E.
  - exists s. split; [ reflexivity | ]. split; [ | split ].
    + unfold explanation_attempt in E.
      destruct (String.eqb classification "AI_GENERATED").
      * exact (explain_ai_nonempty _ _ _ _ E).
      * exact (explain_human_nonempty _ _ _ _ E).
    + intros e' E'. discriminate E'.
    + intros _. reflexivity.
  - eexists. split; [ reflexivity | ]. split; [ | split ].
    + discriminate.
    + intros _ _. reflexivity.
    + intro L. exfalso. unfold explanation_attempt in E.
      destruct (String.eqb classification "AI_GENERATED").
      * rewrite (explain_ai_refines confidence features tf L) in E. discriminate E.
      * rewrite (explain_human_refines confidence features tf L) in E. discriminate E.
Qed.

(** ** The decision rule of [predict] *)

(** Runs a method call whose outcome is known to be a result. *)
Ltac run_method :=
  repeat match goal with
         | H : (_, _) = (_, _) |- _ => injection H as ? ?; subst
         | H : Ok _ = Ok _ |- _ => injection H as ?; subst
         | H : Ok _ = Raise _ |- _ => discriminate H
         | H : Raise _ = Ok _ |- _ => discriminate H
         | H : context [match ?x with _ => _ end] |- _ =>
             destruct x eqn:?
         end.

Section Prediction.

Context {D : Disk} {S : Sklearn}.

(** Whatever [predict] returns was decided from the first two entries of
    the probability row by one strict comparison. *)
Lemma predict_decided (features : list npfloat)
  (self self' : VoiceDetectionModel) (label : string) (conf : npfloat)
  (probs : list npfloat) :
  predict features self = (Ok (label, conf, probs), self') ->
  exists human_prob ai_prob,
    nth_error probs 0 = Some human_prob
    /\ nth_error probs 1 = Some ai_prob
    /\ (label, conf) = if Np.gt ai_prob human_prob
                       then (AI_GENERATED, ai_prob)
                       else (HUMAN, human_prob).
Proof.
  unfold predict, bindM, try_exceptM, gets, call, ret, raise, getitem.
  intro E. run_method.
  all: eexists; eexists; split; [ reflexivity | split; [ reflexivity | ] ].
  all: match goal with
       | G : Np.gt _ _ = _ |- _ => rewrite G; reflexivity
       end.
Qed.

Lemma AI_GENERATED_not_HUMAN : AI_GENERATED <> HUMAN.
Proof. discriminate. Qed.

(** What [predict] returns is computed by the model of the object: the
    object is loaded first if it was not, the features are made a batch of
    one row and passed through the scaler if there is one, and the
    probabilities are row 0 of [predict_proba] on that batch. *)
Lemma predict_runs_model (features : list npfloat)
  (self self' : VoiceDetectionModel) (label : string) (conf : npfloat)
  (probs : list npfloat) :
  predict features self = (Ok (label, conf, probs), self') ->
  (is_loaded self = true -> self' = self)
  /\ (is_loaded self = false -> load_model self = (Ok tt, self'))
  /\ exists m X rows,
      model self' = Some m
      /\ match scaler self' with
         | Some s => transform s [features]
         | None => Ok [features]
         end = Ok X
      /\ predict_proba m X = Ok rows
      /\ nth_error rows 0 = Some probs.
Proof.
  unfold predict, bindM, try_exceptM, gets, call, ret, raise,
    model_predict_proba0, getitem, bind.
  intro E.
  destruct (is_loaded self) eqn:Ld; cbn [negb] in E.
  - split; [ intros _ | split; [ discriminate | ] ].
    + run_method; reflexivity.
    + run_method.
      all: eexists; eexists; eexists.
      all: repeat (split; [ reflexivity || eassumption | ]).
      all: eassumption.
  - destruct (load_model self) as [[[] | e] loaded] eqn:Lm;
      [ | discriminate E ].
    split; [ discriminate | split; [ intros _ | ] ].
    + run_method; reflexivity.
    + run_method.
      all: eexists; eexists; eexists.
      all: repeat (split; [ reflexivity || eassumption | ]).
      all: eassumption.
Qed.

(** C1.  When [predict] returns, the probabilities it returns are those
    the model of the (loaded) object gives for the features, scaled if the
    object has a scaler: row 0 of [predict_proba] on the one-row batch.  Of
    that row, entry 0 is human_prob and entry 1 ai_prob; the label is
    AI_GENERATED exactly when ai_prob is strictly greater than human_prob,
    and HUMAN otherwise, in particular when the two are equal; the
    confidence is the probability of the chosen label, hence the larger of
    the two. *)
Theorem predict_decision_rule :
  forall (features : list npfloat) (self self' : VoiceDetectionModel)
         (label : string) (conf : npfloat) (probs : list npfloat),
    predict features self = (Ok (label, conf, probs), self') ->
    exists m X rows human_prob ai_prob,
      (is_loaded self = true -> self' = self)
      /\ (is_loaded self = false -> load_model self = (Ok tt, self'))
      /\ model self' = Some m
      /\ match scaler self' with
         | Some s => transform s [features]
         | None => Ok [features]
         end = Ok X
      /\ predict_proba m X = Ok rows
      /\ nth_error rows 0 = Some probs
      /\ nth_error probs 0 = Some human_prob
      /\ nth_error probs 1 = Some ai_prob
      /\ (label = AI_GENERATED <-> Np.gt ai_prob human_prob = true)
      /\ (label = HUMAN <-> Np.gt ai_prob human_prob = false)
      /\ (forall h a, human_prob = Num h -> ai_prob = Num a ->
                      a == h -> label = HUMAN)
      /\ (label = AI_GENERATED -> conf = ai_prob)
      /\ (label = HUMAN -> conf = human_prob)
      /\ (forall h a, human_prob = Num h -> ai_prob = Num a ->
                      exists c, conf = Num c /\ c == Qmax h a).
Proof.
  intros features self self' label conf probs E.
  destruct (predict_runs_model _ _ _ _ _ _ E)
    as (Kept & Loaded & m & X & rows & Em & Ex & Er & E0).
  destruct (predict_decided _ _ _ _ _ _ E) as (hp & ap & P0 & P1 & R).
  exists m, X, rows, hp, ap.
  split; [ exact Kept | ]. split; [ exact Loaded | ].
  split; [ exact Em | ]. split; [ exact Ex | ]. split; [ exact Er | ].
  split; [ exact E0 | ].
  split; [ exact P0 | ]. split; [ exact P1 | ].
  destruct (Np.gt ap hp) eqn:G; try rewrite G in R; injection R as -> ->.
  - repeat split; try reflexivity; try congruence.
    + intro F. exfalso. exact (AI_GENERATED_not_HUMAN F).
    + intros h a -> -> Eq. exfalso.
      apply gt_Num in G. rewrite Eq in G. exact (Qlt_irrefl _ G).
    + intro F. exfalso. exact (AI_GENERATED_not_HUMAN F).
    + intros h a -> ->. apply gt_Num in G.
      exists a. split; [ reflexivity | ].
      symmetry. apply Q.max_r. apply Qlt_le_weak. exact G.
  - repeat split; try reflexivity; try congruence.
    + intro F. exfalso. symmetry in F. exact (AI_GENERATED_not_HUMAN F).
    + intro F. exfalso. symmetry in F. exact (AI_GENERATED_not_HUMAN F).
    + intros h a -> ->. apply gt_Num_false in G.
      exists h. split; [ reflexivity | ].
      symmetry. apply Q.max_l. exact G.
Qed.

End Prediction.

(** The threshold classifier behind the doubling scaler, on a vector of
    3/5: the scaler makes it 6/5, above the threshold, so the row is
    [0.25, 0.75] and the label AI_GENERATED with confidence 3/4; without
    the scaler the row would have been [0.75, 0.25]. *)
Lemma predict_decision_rule_witness :
  @predict empty_disk constant_sklearn (constant_vector (3 # 5))
    threshold_object
  = (Ok (AI_GENERATED, Num (3 # 4), [Num (1 # 4); Num (3 # 4)]),
     threshold_object)
  /\ exists m X rows,
      model threshold_object = Some m
      /\ transform doubling_scaler [constant_vector (3 # 5)] = Ok X
      /\ predict_proba m X = Ok rows
      /\ nth_error rows 0 = Some [Num (1 # 4); Num (3 # 4)]
      /\ (AI_GENERATED = AI_GENERATED <->
          Np.gt (Num (3 # 4)) (Num (1 # 4)) = true).
Proof.
  split; [ reflexivity | ].
  destruct (@predict_decision_rule empty_disk constant_sklearn
              (constant_vector (3 # 5)) threshold_object threshold_object
              AI_GENERATED (Num (3 # 4)) [Num (1 # 4); Num (3 # 4)] eq_refl)
    as (m & X & rows & hp & ap & _ & _ & Em & Ex & Er & E0 & P0 & P1 & R & _).
  injection P0 as <-. injection P1 as <-.
  exists m, X, rows.
  split; [ exact Em | ]. split; [ exact Ex | ]. split; [ exact Er | ].
  split; [ exact E0 | exact R ].
Defined.

(** ** Reductions over frames without [nan] *)

Lemma is_num_inv (x : npfloat) : is_num x -> exists q, x = Num q.
Proof. destruct x as [q | ]; [ eauto | discriminate ]. Qed.

Lemma fold_lift2_num (f : Q -> Q -> Q) (xs : list npfloat) :
  Forall is_num xs ->
  forall a : Q, exists q, fold_left (lift2 f) xs (Num a) = Num q.
Proof.
  induction 1 as [ | x xs Hx _ IH ]; intro a; cbn [fold_left].
  - eauto.
  - destruct (is_num_inv x Hx) as [q ->]. cbn [lift2]. apply IH.
Qed.

Lemma sum_num (xs : list npfloat) :
  Forall is_num xs -> exists q, Np.sum xs = Num q.
Proof. intro F. apply (fold_lift2_num Qplus xs F 0). Qed.

Lemma Qeq_bool_false (x y : Q) : ~ x == y -> Qeq_bool x y = false.
Proof.
  intro N. destruct (Qeq_bool x y) eqn:E; [ | reflexivity ].
  apply Qeq_bool_eq in E. contradiction.
Qed.

Lemma count_positive (xs : list npfloat) :
  xs <> [] -> 0 < inject_Z (Z.of_nat (List.length xs)).
Proof.
  intro N. destruct xs as [ | x xs ]; [ congruence | ].
  unfold Qlt. cbn [Qnum Qden inject_Z List.length]. lia.
Qed.

Lemma mean_num (xs : list npfloat) :
  finite_frames xs -> is_num (mean xs).
Proof.
  intros [N F]. unfold mean, of_nat.
  destruct (sum_num xs F) as [s ->]. cbn [div].
  rewrite Qeq_bool_false; [ reflexivity | ].
  intro E. pose proof (count_positive xs N) as P.
  rewrite E in P. exact (Qlt_irrefl _ P).
Qed.

Lemma finite_frames_map (f : npfloat -> npfloat) (xs : list npfloat) :
  (forall x, is_num x -> is_num (f x)) ->
  finite_frames xs -> finite_frames (map f xs).
Proof.
  intros Hf [N F]. split.
  - destruct xs; [ congruence | discriminate ].
  - apply Forall_map. eapply Forall_impl; [ | exact F ]. exact Hf.
Qed.

Lemma std_num `{Libm} (xs : list npfloat) :
  finite_frames xs -> is_num (std xs).
Proof.
  intro F. unfold std.
  destruct (is_num_inv _ (mean_num xs F)) as [m ->].
  assert (G : finite_frames
                (map (fun x => mul (Np.abs (sub x (Num m)))
                                   (Np.abs (sub x (Num m)))) xs)).
  { apply finite_frames_map; [ | exact F ].
    intros x Hx. destruct (is_num_inv x Hx) as [q ->]. reflexivity. }
  destruct (is_num_inv _ (mean_num _ G)) as [v ->]. reflexivity.
Qed.

Lemma max_num (xs : list npfloat) :
  finite_frames xs -> exists q, Np.max xs = Ok (Num q).
Proof.
  intros [N F]. destruct xs as [ | x xs ]; [ congruence | ].
  inversion F as [ | ? ? Hx Hxs ]; subst.
  destruct (is_num_inv x Hx) as [a ->].
  destruct (fold_lift2_num Qmax xs Hxs a) as [q E].
  exists q. unfold Np.max, maximum. rewrite E. reflexivity.
Qed.

Lemma min_num (xs : list npfloat) :
  finite_frames xs -> exists q, Np.min xs = Ok (Num q).
Proof.
  intros [N F]. destruct xs as [ | x xs ]; [ congruence | ].
  inversion F as [ | ? ? Hx Hxs ]; subst.
  destruct (is_num_inv x Hx) as [a ->].
  destruct (fold_lift2_num Qmin xs Hxs a) as [q E].
  exists q. unfold Np.min, minimum. rewrite E. reflexivity.
Qed.

(** The voiced frames of an F0 track are free of [nan] by construction. *)
Lemma voiced_is_num (f0 : list npfloat) :
  Forall is_num (filter (fun x => negb (isnan x)) f0).
Proof.
  apply Forall_forall. intros x Hx. apply filter_In in Hx.
  destruct Hx as [_ Hx]. unfold is_num. now apply negb_true_iff.
Qed.

Lemma firstn_finite (n : nat) (xs : list npfloat) :
  (0 < n)%nat -> finite_frames xs -> finite_frames (firstn n xs).
Proof.
  intros P [N F]. split.
  - destruct n; [ lia | ]. destruct xs; [ congruence | discriminate ].
  - rewrite <- (firstn_skipn n xs) in F. apply Forall_app in F. tauto.
Qed.

Lemma sum_abs_nonneg (xs : list npfloat) :
  Forall is_num xs ->
  forall a : Q,
    exists q, fold_left add (map Np.abs xs) (Num a) = Num q /\ a <= q.
Proof.
  induction 1 as [ | x xs Hx _ IH ]; intro a; cbn [map fold_left].
  - exists a. split; [ reflexivity | apply Qle_refl ].
  - destruct (is_num_inv x Hx) as [v ->]. cbn [Np.abs add lift2].
    destruct (IH (a + Qabs v)) as (q & E & Le).
    exists q. split; [ exact E | ].
    apply Qle_trans with (a + Qabs v); [ | exact Le ].
    rewrite <- (Qplus_0_r a) at 1.
    apply Qplus_le_r. apply Qabs_nonneg.
Qed.

Lemma mean_abs_nonneg (xs : list npfloat) :
  finite_frames xs ->
  exists q, mean (map Np.abs xs) = Num q /\ 0 <= q.
Proof.
  intros [N F]. unfold mean, Np.sum, of_nat.
  destruct (sum_abs_nonneg xs F 0) as (s & -> & Le).
  rewrite length_map. cbn [div].
  pose proof (count_positive xs N) as P.
  rewrite Qeq_bool_false.
  - eexists. split; [ reflexivity | ].
    apply Qle_shift_div_l; [ exact P | ].
    rewrite Qmult_0_l. exact Le.
  - intro E. rewrite E in P. exact (Qlt_irrefl _ P).
Qed.

(** The guard [+ 1e-6] keeps the denominator of the two ratios away from
    zero. *)
Lemma ratio_num (part whole : list npfloat) :
  finite_frames part -> finite_frames whole ->
  is_num (div (mean (map Np.abs part))
              (add (mean (map Np.abs whole)) (Num ratio_eps))).
Proof.
  intros Fp Fw.
  destruct (mean_abs_nonneg part Fp) as (p & -> & _).
  destruct (mean_abs_nonneg whole Fw) as (w & -> & Le).
  cbn [add lift2 div].
  rewrite Qeq_bool_false; [ reflexivity | ].
  intro E.
  assert (P : 0 < w + ratio_eps).
  { apply Qlt_le_trans with (0 + ratio_eps).
    - reflexivity.
    - apply Qplus_le_l. exact Le. }
  rewrite E in P. exact (Qlt_irrefl _ P).
Qed.

(** ** Feature extraction *)

Section Extraction.

Context {M : Libm} {L : Librosa}.
Variable self : FeatureExtractor.
Variable audio : list npfloat.

Ltac run_family :=
  repeat match goal with
         | H : Ok _ = Ok _ |- _ => injection H as ?; subst
         | H : Raise _ = Ok _ |- _ => discriminate H
         | H : context [getitem ?m 0] |- _ => unfold getitem in H
         | H : context [match ?x with _ => _ end] |- _ => destruct x eqn:?
         end.

Lemma mfcc_family (feats : list npfloat) :
  librosa_finite self audio ->
  _extract_mfcc self audio = Ok feats ->
  List.length feats = n_mfcc self /\ Forall is_num feats.
Proof.
  intros C E. unfold _extract_mfcc, bind in E. run_family.
  destruct (mfcc_rows _ _ C _ Heqr) as [Len Rows].
  unfold mean_axis1. rewrite length_map. split; [ exact Len | ].
  apply Forall_map. eapply Forall_impl; [ | exact Rows ].
  exact mean_num.
Qed.

(** The pitch family needs nothing from librosa: the code itself drops
    the [nan] frames and falls back to zeros when none is left. *)
Lemma pitch_family (feats : list npfloat) :
  _extract_pitch_features self audio = Ok feats ->
  List.length feats = 5%nat /\ Forall is_num feats.
Proof.
  intro E. unfold _extract_pitch_features, bind in E.
  destruct (pyin audio (note_to_hz "C2") (note_to_hz "C7")
              (fe_sample_rate self)) as [[[f0 flags] probs] | e];
    [ | discriminate E ].
  set (voiced := filter (fun x => negb (isnan x)) f0) in *.
  assert (V : Forall is_num voiced) by apply voiced_is_num.
  destruct (Nat.ltb_spec 0 (List.length voiced)) as [P | P].
  - assert (F : finite_frames voiced).
    { split; [ | exact V ]. intro Z. rewrite Z in P. cbn in P. lia. }
    destruct (min_num voiced F) as [lo Elo].
    destruct (max_num voiced F) as [hi Ehi].
    rewrite Elo, Ehi in E. injection E as <-.
    split; [ reflexivity | ].
    repeat constructor; auto using mean_num, std_num.
  - injection E as <-. split; [ reflexivity | repeat constructor ].
Qed.

Lemma energy_family (feats : list npfloat) :
  librosa_finite self audio ->
  _extract_energy_features self audio = Ok feats ->
  List.length feats = 4%nat /\ Forall is_num feats.
Proof.
  intros C E. unfold _extract_energy_features, bind in E. run_family.
  split; [ reflexivity | ].
  repeat constructor; (apply mean_num || apply std_num);
    eauto using rms_frames, zcr_frames.
Qed.

Lemma spectral_family (feats : list npfloat) :
  librosa_finite self audio ->
  _extract_spectral_features self audio = Ok feats ->
  List.length feats = 10%nat /\ Forall is_num feats.
Proof.
  intros C E. unfold _extract_spectral_features, bind in E. run_family.
  split; [ reflexivity | ].
  repeat constructor; (apply mean_num || apply std_num);
    eauto using centroid_frames, rolloff_frames, flatness_frames,
      bandwidth_frames, contrast_frames.
Qed.

Lemma prosody_family (feats : list npfloat) :
  finite_frames audio ->
  librosa_finite self audio ->
  _extract_prosody_features self audio = Ok feats ->
  List.length feats = 7%nat /\ Forall is_num feats.
Proof.
  intros A C E. unfold _extract_prosody_features, bind in E.
  set (head := @firstn npfloat 100) in E. run_family.
  split; [ reflexivity | ].
  subst head.
  match goal with
  | Hh : effects_hpss audio = Ok _ |- _ =>
      destruct (hpss_frames _ _ C _ _ Hh) as [Fh Fp]
  end.
  repeat constructor;
    first [ apply ratio_num; assumption
          | eapply tempo_num; eassumption
          | apply mean_num | apply std_num ];
    first [ apply firstn_finite; [ lia | ] | idtac ];
    eauto using onset_frames, autocorr_frames.
Qed.

(** What a successful extraction is made of. *)
Lemma extract_features_families (features : list npfloat) :
  extract_features self audio = Ok features ->
  exists cepstral pitch energy spectral prosody,
    _extract_mfcc self audio = Ok cepstral
    /\ _extract_pitch_features self audio = Ok pitch
    /\ _extract_energy_features self audio = Ok energy
    /\ _extract_spectral_features self audio = Ok spectral
    /\ _extract_prosody_features self audio = Ok prosody
    /\ features
       = (cepstral ++ pitch ++ energy ++ spectral ++ prosody)%list.
Proof.
  unfold extract_features, extract_features_body, try_except, bind.
  destruct (_extract_mfcc self audio) as [c | ]; [ | discriminate ].
  destruct (_extract_pitch_features self audio) as [p | ]; [ | discriminate ].
  destruct (_extract_energy_features self audio) as [e | ]; [ | discriminate ].
  destruct (_extract_spectral_features self audio) as [s | ];
    [ | discriminate ].
  destruct (_extract_prosody_features self audio) as [r | ];
    [ | discriminate ].
  intro E. injection E as <-.
  exists c, p, e, s, r. repeat split; try reflexivity.
  cbn [app]. now rewrite <- !app_assoc.
Qed.

End Extraction.

Lemma three_frames_finite : finite_frames three_frames.
Proof. split; [ discriminate | repeat constructor ]. Qed.

Lemma two_samples_finite : finite_frames two_samples.
Proof. split; [ discriminate | repeat constructor ]. Qed.

Lemma steady_librosa_finite :
  @librosa_finite steady_librosa FeatureExtractor_init two_samples.
Proof.
  pose proof three_frames_finite as T.
  pose proof two_samples_finite as A.
  constructor; cbn; intros;
    repeat match goal with
           | H : Ok _ = Ok _ |- _ => injection H as ?; subst
           | H : Some _ = Some _ |- _ => injection H as ?; subst
           | |- _ /\ _ => split
           end;
    try assumption; try reflexivity.
  repeat (apply Forall_cons; [ exact T | ]). apply Forall_nil.
Qed.

(** C2.  On a waveform with samples, none of them [nan], for which
    librosa returns present, [nan]-free frames, a successful
    [extract_features] returns the concatenation cepstral, pitch, energy,
    spectral shape, prosody, in this order, of lengths 13, 5, 4, 10 and 7,
    39 elements in all, none of which is [nan] (in exact arithmetic no
    infinity can arise).  The function has no state: the same waveform
    gives the same vector on every call. *)
Theorem extract_features_layout :
  forall {M : Libm} {L : Librosa} (audio features : list npfloat),
    finite_frames audio ->
    librosa_finite FeatureExtractor_init audio ->
    extract_features FeatureExtractor_init audio = Ok features ->
    exists cepstral pitch energy spectral prosody,
      _extract_mfcc FeatureExtractor_init audio = Ok cepstral
      /\ _extract_pitch_features FeatureExtractor_init audio = Ok pitch
      /\ _extract_energy_features FeatureExtractor_init audio = Ok energy
      /\ _extract_spectral_features FeatureExtractor_init audio = Ok spectral
      /\ _extract_prosody_features FeatureExtractor_init audio = Ok prosody
      /\ features
         = (cepstral ++ pitch ++ energy ++ spectral ++ prosody)%list
      /\ List.length cepstral = 13%nat
      /\ List.length pitch = 5%nat
      /\ List.length energy = 4%nat
      /\ List.length spectral = 10%nat
      /\ List.length prosody = 7%nat
      /\ List.length features = 39%nat
      /\ Forall is_num features.
Proof.
  intros M L audio features A C E.
  destruct (extract_features_families _ _ _ E)
    as (c & p & e & s & r & Ec & Ep & Ee & Es & Er & ->).
  destruct (mfcc_family _ _ _ C Ec) as [Lc Fc].
  destruct (pitch_family _ _ _ Ep) as [Lp Fp].
  destruct (energy_family _ _ _ C Ee) as [Le Fe].
  destruct (spectral_family _ _ _ C Es) as [Ls Fs].
  destruct (prosody_family _ _ _ A C Er) as [Lr Fr].
  exists c, p, e, s, r.
  repeat (split; [ assumption || reflexivity | ]).
  split.
  - rewrite !length_app, Lc, Lp, Le, Ls, Lr. reflexivity.
  - repeat (apply Forall_app; split); assumption.
Qed.

Lemma extract_features_layout_witness :
  exists features,
    @extract_features decimal_sqrt steady_librosa FeatureExtractor_init
      two_samples = Ok features
    /\ List.length features = 39%nat
    /\ Forall is_num features.
Proof.
  eexists. split; [ vm_compute; reflexivity | ].
  destruct (@extract_features_layout decimal_sqrt steady_librosa
              two_samples _ two_samples_finite steady_librosa_finite
              eq_refl)
    as (c & p & e & s & r & _ & _ & _ & _ & _ & _ & _ & _ & _ & _ & _
        & Len & Fin).
  split; [ exact Len | exact Fin ].
Defined.

(** C6.  When [pyin] returns, the voiced frames are those whose F0 is not
    [nan].  If there is at least one, the pitch family is mean, standard
    deviation, minimum, maximum and maximum minus minimum of their F0
    values.  If there is none, the family is five zeros, returned as a
    result and not raised; in a successful extraction with 13 cepstral
    rows these are the elements 13 to 17 of the vector. *)
Theorem pitch_features_voiced_or_zero :
  forall {M : Libm} {L : Librosa} (self : FeatureExtractor)
         (audio f0 : list npfloat) (voiced_flag : list bool)
         (voiced_probs : list npfloat),
    pyin audio (note_to_hz "C2") (note_to_hz "C7") (fe_sample_rate self)
    = Ok (f0, voiced_flag, voiced_probs) ->
    let voiced := filter (fun x => negb (isnan x)) f0 in
    (voiced <> [] ->
     exists lo hi,
       Np.min voiced = Ok lo /\ Np.max voiced = Ok hi
       /\ _extract_pitch_features self audio
          = Ok [mean voiced; std voiced; lo; hi; sub hi lo])
    /\ (voiced = [] ->
        _extract_pitch_features self audio
        = Ok [Num 0; Num 0; Num 0; Num 0; Num 0]
        /\ forall features cepstral,
            extract_features self audio = Ok features ->
            _extract_mfcc self audio = Ok cepstral ->
            List.length cepstral = 13%nat ->
            firstn 5 (skipn 13 features)
            = [Num 0; Num 0; Num 0; Num 0; Num 0]).
Proof.
  intros M L self audio f0 flags probs P voiced.
  assert (V : Forall is_num voiced) by apply voiced_is_num.
  split.
  - intro N.
    destruct (min_num voiced (conj N V)) as [lo Elo].
    destruct (max_num voiced (conj N V)) as [hi Ehi].
    exists (Num lo), (Num hi).
    split; [ exact Elo | ]. split; [ exact Ehi | ].
    unfold _extract_pitch_features. rewrite P. cbn [bind].
    fold voiced. rewrite Elo, Ehi.
    destruct voiced; [ congruence | reflexivity ].
  - intro Z.
    assert (Zeros : _extract_pitch_features self audio
                    = Ok [Num 0; Num 0; Num 0; Num 0; Num 0]).
    { unfold _extract_pitch_features. rewrite P. cbn [bind].
      fold voiced. rewrite Z. reflexivity. }
    split; [ exact Zeros | ].
    intros features cepstral E Ec Len.
    destruct (extract_features_families _ _ _ E)
      as (c & p & e & s & r & Ec' & Ep & _ & _ & _ & ->).
    rewrite Ec in Ec'. injection Ec' as <-.
    rewrite Zeros in Ep. injection Ep as <-.
    rewrite skipn_app, Len, Nat.sub_diag, skipn_all2 by lia.
    reflexivity.
Qed.

Lemma pitch_features_voiced_or_zero_witness :
  @_extract_pitch_features decimal_sqrt steady_librosa FeatureExtractor_init
    two_samples
  = Ok [Num (410 # 2); Num (5000000 # 1000000); Num 200; Num 210; Num 10]
  /\ @_extract_pitch_features decimal_sqrt steady_librosa
       FeatureExtractor_init two_zeros
     = Ok [Num 0; Num 0; Num 0; Num 0; Num 0].
Proof.
  split.
  - vm_compute. reflexivity.
  - exact (proj1 (proj2
      (@pitch_features_voiced_or_zero decimal_sqrt steady_librosa
         FeatureExtractor_init two_zeros [NaN; NaN; NaN]
         [false; false; false] [Num 0; Num 0; Num 0] eq_refl) eq_refl)).
Defined.

(** ** Peak normalisation *)

(** The maximum of a [nan]-free array bounds every element and is one of
    them. *)
Lemma fold_maximum_spec (xs : list npfloat) :
  Forall is_num xs ->
  forall a : Q,
    exists m,
      fold_left maximum xs (Num a) = Num m
      /\ a <= m
      /\ (forall q, In (Num q) xs -> q <= m)
      /\ (m == a \/ exists q, In (Num q) xs /\ m == q).
Proof.
  induction 1 as [ | x xs Hx _ IH ]; intro a; cbn [fold_left].
  - exists a. repeat split.
    + apply Qle_refl.
    + intros q [].
    + left. reflexivity.
  - destruct (is_num_inv x Hx) as [v ->]. cbn [maximum lift2].
    destruct (IH (Qmax a v)) as (m & E & Lo & Up & At).
    exists m. split; [ exact E | ]. split; [ | split ].
    + apply Qle_trans with (Qmax a v); [ apply Q.le_max_l | exact Lo ].
    + intros q [Eq | In'].
      * injection Eq as <-.
        apply Qle_trans with (Qmax a v); [ apply Q.le_max_r | exact Lo ].
      * apply Up. exact In'.
    + destruct At as [Eq | (q & In' & Eq)].
      * destruct (Q.max_dec a v) as [Ma | Mv].
        -- left. rewrite Eq. exact Ma.
        -- right. exists v. split; [ left; reflexivity | ].
           rewrite Eq. exact Mv.
      * right. exists q. split; [ right; exact In' | exact Eq ].
Qed.

Lemma max_spec (xs : list npfloat) :
  finite_frames xs ->
  exists m,
    Np.max xs = Ok (Num m)
    /\ (forall q, In (Num q) xs -> q <= m)
    /\ (exists q, In (Num q) xs /\ m == q).
Proof.
  intros [N F]. destruct xs as [ | x xs ]; [ congruence | ].
  inversion F as [ | ? ? Hx Hxs ]; subst.
  destruct (is_num_inv x Hx) as [a ->].
  destruct (fold_maximum_spec xs Hxs a) as (m & E & Lo & Up & At).
  exists m. unfold Np.max. rewrite E. split; [ reflexivity | ]. split.
  - intros q [Eq | In'].
    + injection Eq as <-. exact Lo.
    + apply Up. exact In'.
  - destruct At as [Eq | (q & In' & Eq)].
    + exists a. split; [ left; reflexivity | exact Eq ].
    + exists q. split; [ right; exact In' | exact Eq ].
Qed.

Lemma abs_is_num (x : npfloat) : is_num x -> is_num (Np.abs x).
Proof. destruct x; [ reflexivity | discriminate ]. Qed.

Lemma In_abs (q : Q) (xs : list npfloat) :
  In (Num q) xs -> In (Num (Qabs q)) (map Np.abs xs).
Proof. intro I. exact (in_map Np.abs xs (Num q) I). Qed.

Lemma In_abs_inv (a : Q) (xs : list npfloat) :
  In (Num a) (map Np.abs xs) -> exists q, In (Num q) xs /\ a = Qabs q.
Proof.
  intro I. apply in_map_iff in I. destruct I as (x & E & I).
  destruct x as [q | ]; [ | discriminate E ].
  injection E as <-. eauto.
Qed.

Lemma peak_spec (xs : list npfloat) :
  finite_frames xs ->
  exists m,
    Np.max (map Np.abs xs) = Ok (Num m)
    /\ 0 <= m
    /\ (forall q, In (Num q) xs -> Qabs q <= m)
    /\ (exists q, In (Num q) xs /\ m == Qabs q).
Proof.
  intro F.
  destruct (max_spec (map Np.abs xs)
              (finite_frames_map Np.abs xs abs_is_num F))
    as (m & E & Up & (a & Ia & Ea)).
  destruct (In_abs_inv a xs Ia) as (q & Iq & ->).
  exists m. split; [ exact E | ]. split; [ | split ].
  - rewrite Ea. apply Qabs_nonneg.
  - intros q' I'. apply Up. apply In_abs. exact I'.
  - exists q. split; assumption.
Qed.


Lemma Qabs_div_pos (q m : Q) : 0 < m -> Qabs (q / m) == Qabs q / m.
Proof.
  intro P. unfold Qdiv. rewrite Qabs_Qmult, Qabs_Qinv.
  rewrite (Qabs_pos m) by (apply Qlt_le_weak; exact P). reflexivity.
Qed.

Lemma div_by_peak (x : npfloat) (m : Q) :
  0 < m -> is_num x ->
  exists q, x = Num q /\ Np.div x (Num m) = Num (q / m).
Proof.
  intros P Hx. destruct (is_num_inv x Hx) as [q ->].
  exists q. split; [ reflexivity | ]. cbn [Np.div].
  rewrite Qeq_bool_false; [ reflexivity | ].
  intro E. rewrite E in P. exact (Qlt_irrefl _ P).
Qed.

(** Scaling by a positive peak: the scaled values stay within [[-1, 1]]
    and the sample that carried the peak becomes 1 in absolute value. *)
Lemma scaled_within (xs : list npfloat) (m : Q) :
  0 < m -> Forall is_num xs ->
  (forall q, In (Num q) xs -> Qabs q <= m) ->
  forall y, In (Num y) (map (fun x => Np.div x (Num m)) xs) -> Qabs y <= 1.
Proof.
  intros P F Up y I. apply in_map_iff in I. destruct I as (x & E & I).
  destruct (div_by_peak x m P (proj1 (Forall_forall _ _) F x I))
    as (q & -> & D).
  rewrite D in E. injection E as <-.
  rewrite (Qabs_div_pos q m P).
  apply Qle_shift_div_r; [ exact P | ].
  rewrite Qmult_1_l. apply Up. exact I.
Qed.

Lemma scaled_is_num (xs : list npfloat) (m : Q) :
  0 < m -> Forall is_num xs ->
  Forall is_num (map (fun x => Np.div x (Num m)) xs).
Proof.
  intros P F. apply Forall_map. eapply Forall_impl; [ | exact F ].
  intros x Hx. cbv beta.
  destruct (div_by_peak x m P Hx) as (q & _ & ->). reflexivity.
Qed.

Lemma scaled_peak (xs : list npfloat) (m : Q) :
  0 < m -> finite_frames xs ->
  (forall q, In (Num q) xs -> Qabs q <= m) ->
  (exists q, In (Num q) xs /\ m == Qabs q) ->
  peak_is (map (fun x => Np.div x (Num m)) xs) 1.
Proof.
  intros P F Up (q0 & I0 & E0).
  assert (F' : finite_frames (map (fun x => Np.div x (Num m)) xs)).
  { split.
    - destruct F as [N _]. destruct xs; [ congruence | discriminate ].
    - apply scaled_is_num; [ exact P | exact (proj2 F) ]. }
  destruct (peak_spec _ F') as (p & E & _ & Up' & (y & Iy & Ey)).
  exists p. split; [ exact E | ].
  apply Qle_antisym.
  - rewrite Ey. exact (scaled_within xs m P (proj2 F) Up y Iy).
  - assert (I1 : In (Num (q0 / m)) (map (fun x => Np.div x (Num m)) xs)).
    { apply in_map_iff. exists (Num q0). split; [ | exact I0 ].
      cbn [Np.div]. rewrite Qeq_bool_false; [ reflexivity | ].
      intro Z. rewrite Z in P. exact (Qlt_irrefl _ P). }
    apply Qle_trans with (Qabs (q0 / m)); [ | apply Up'; exact I1 ].
    rewrite (Qabs_div_pos q0 m P), <- E0.
    apply Qle_shift_div_l; [ exact P | ].
    rewrite Qmult_1_l. apply Qle_refl.
Qed.

Lemma normalize_scales (a : ndarray) (m : Q) :
  Np.max (map Np.abs (ravel a)) = Ok (Num m) -> 0 < m ->
  _normalize_audio a = Ok (elementwise (fun x => Np.div x (Num m)) a).
Proof.
  intros E P. unfold _normalize_audio. rewrite E. cbn [bind].
  rewrite (proj2 (gt_Num m 0) P). reflexivity.
Qed.

Lemma normalize_keeps (a : ndarray) (m : Q) :
  Np.max (map Np.abs (ravel a)) = Ok (Num m) -> m <= 0 ->
  _normalize_audio a = Ok a.
Proof.
  intros E P. unfold _normalize_audio. rewrite E. cbn [bind].
  rewrite (proj2 (gt_Num_false m 0) P). reflexivity.
Qed.

Lemma process_audio_decoded {D : Decoder} (self : AudioProcessor)
  (audio_bytes : list Byte.byte) (xs : list npfloat) :
  librosa_load audio_bytes (sample_rate self) = Ok xs ->
  process_audio self audio_bytes
  = match normalize_then_mono (Arr1 xs) with
    | Ok a => Ok (a, sample_rate self)
    | Raise _ => Raise (Exception "Audio processing error")
    end.
Proof.
  intro E. unfold process_audio, _convert_to_wav. rewrite E.
  cbn [bind try_except].
  destruct (normalize_then_mono (Arr1 xs)); reflexivity.
Qed.







(** ** Ranking features by importance *)

(** *** The sort order of NumPy: numbers ascending, [nan] last *)

Lemma sort_le_total (a b : npfloat) :
  sort_le a b = true \/ sort_le b a = true.
Proof.
  destruct a as [x | ], b as [y | ]; cbn; auto.
  destruct (Qlt_le_dec y x) as [L | L].
  - right. apply Qle_bool_iff. apply Qlt_le_weak. exact L.
  - left. apply Qle_bool_iff. exact L.
Qed.

Lemma sort_le_trans (a b c : npfloat) :
  sort_le a b = true -> sort_le b c = true -> sort_le a c = true.
Proof.
  destruct a as [x | ], b as [y | ], c as [z | ]; cbn;
    try reflexivity; try discriminate.
  rewrite !Qle_bool_iff. apply Qle_trans.
Qed.

Lemma sort_le_refl (a : npfloat) : sort_le a a = true.
Proof. destruct (sort_le_total a a); assumption. Qed.

(** *** A stable reference [argsort]: insertion sort, as NumPy runs it on
    short arrays *)

Lemma insert_index_perm (v : list npfloat) (i : nat) (l : list nat) :
  Permutation (insert_index v i l) (i :: l).
Proof.
  induction l as [ | j l IH ]; cbn [insert_index].
  - apply Permutation_refl.
  - destruct (sort_le (key_at v j) (key_at v i)).
    + apply Permutation_trans with (j :: i :: l).
      * apply perm_skip. exact IH.
      * apply perm_swap.
    + apply Permutation_refl.
Qed.

Lemma fold_insert_perm (v : list npfloat) (todo acc : list nat) :
  Permutation (fold_left (fun acc i => insert_index v i acc) todo acc)
              (acc ++ todo)%list.
Proof.
  revert acc. induction todo as [ | i todo IH ]; intro acc; cbn [fold_left].
  - rewrite app_nil_r. apply Permutation_refl.
  - apply Permutation_trans with (1 := IH _).
    apply Permutation_trans with ((i :: acc) ++ todo)%list.
    + apply Permutation_app_tail. apply insert_index_perm.
    + cbn [app]. apply Permutation_middle.
Qed.

Lemma insert_index_sorted (v : list npfloat) (i : nat) (l : list nat) :
  StronglySorted (key_le v) l ->
  StronglySorted (key_le v) (insert_index v i l).
Proof.
  induction 1 as [ | j l Hl IH Hj ]; cbn [insert_index].
  - repeat constructor.
  - destruct (sort_le (key_at v j) (key_at v i)) eqn:E.
    + constructor; [ exact IH | ].
      apply Forall_forall. intros k Ik.
      apply (Permutation_in _ (insert_index_perm v i l)) in Ik.
      destruct Ik as [<- | Ik]; [ exact E | ].
      exact (proj1 (Forall_forall _ _) Hj k Ik).
    + assert (Lij : key_le v i j).
      { destruct (sort_le_total (key_at v i) (key_at v j)) as [T | T];
          [ exact T | congruence ]. }
      constructor; [ constructor; assumption | ].
      constructor; [ exact Lij | ].
      eapply Forall_impl; [ | exact Hj ].
      intros k Ljk. exact (sort_le_trans _ _ _ Lij Ljk).
Qed.

Lemma fold_insert_sorted (v : list npfloat) (todo acc : list nat) :
  StronglySorted (key_le v) acc ->
  StronglySorted (key_le v)
    (fold_left (fun acc i => insert_index v i acc) todo acc).
Proof.
  revert acc. induction todo as [ | i todo IH ]; intros acc S;
    cbn [fold_left].
  - exact S.
  - apply IH. apply insert_index_sorted. exact S.
Qed.

#[local] Instance insertion_argsort_laws : ArgsortLaws insertion_argsort.
Proof.
  constructor; intro v.
  - exact (fold_insert_perm v (seq 0 (List.length v)) []).
  - exact (fold_insert_sorted v (seq 0 (List.length v)) []
             (SSorted_nil (key_le v))).
Qed.

(** *** Slices and reversals of a sorted index list *)

Lemma StronglySorted_app_inv {A} (R : A -> A -> Prop) (l1 l2 : list A) :
  StronglySorted R (l1 ++ l2) ->
  StronglySorted R l1 /\ StronglySorted R l2
  /\ forall x y, In x l1 -> In y l2 -> R x y.
Proof.
  induction l1 as [ | a l1 IH ]; cbn [app]; intro S.
  - repeat split; [ constructor | exact S | intros x y [] ].
  - inversion S as [ | ? ? S' Fa ]; subst.
    destruct (IH S') as (S1 & S2 & Cross).
    apply Forall_app in Fa. destruct Fa as [Fa1 Fa2].
    repeat split.
    + constructor; assumption.
    + exact S2.
    + intros x y [<- | Ix] Iy.
      * exact (proj1 (Forall_forall _ _) Fa2 y Iy).
      * exact (Cross x y Ix Iy).
Qed.

Lemma StronglySorted_snoc {A} (R : A -> A -> Prop) (l : list A) (a : A) :
  StronglySorted R l -> Forall (fun x => R x a) l ->
  StronglySorted R (l ++ [a]).
Proof.
  induction 1 as [ | b l _ IH Fb ]; cbn [app]; intro Fa.
  - repeat constructor.
  - inversion Fa as [ | ? ? Rba Fa' ]; subst.
    constructor; [ exact (IH Fa') | ].
    apply Forall_app. split; [ exact Fb | repeat constructor; exact Rba ].
Qed.

Lemma StronglySorted_rev {A} (R : A -> A -> Prop) (l : list A) :
  StronglySorted R l -> StronglySorted (fun x y => R y x) (rev l).
Proof.
  induction 1 as [ | a l _ IH Fa ]; cbn [rev].
  - constructor.
  - apply StronglySorted_snoc; [ exact IH | ].
    apply Forall_rev. exact Fa.
Qed.

Lemma slice_from_last {A} (n : Z) (xs : list A) :
  (0 < n)%Z ->
  slice_from (- n) xs = skipn (List.length xs - Z.to_nat n) xs.
Proof.
  intro P. unfold slice_from.
  destruct (Z.ltb_spec (- n) 0) as [_ | G]; [ | lia ].
  f_equal. lia.
Qed.

(** [xs[-0:]] is [xs[0:]]: the whole list. *)
Lemma slice_from_minus_zero {A} (xs : list A) : slice_from (- 0) xs = xs.
Proof.
  unfold slice_from. cbn [Z.opp Z.ltb Z.compare].
  rewrite Z.min_l by lia. reflexivity.
Qed.

Lemma comprehension_paired (features importance : list npfloat)
  (idxs : list nat) :
  Forall (fun i => (i < List.length features)%nat
                   /\ (i < List.length importance)%nat) idxs ->
  exists top,
    comprehension
      (fun idx =>
         v <- getitem features idx ;;
         w <- getitem importance idx ;;
         Ok (idx, v, w)) idxs = Ok top
    /\ map index_of top = idxs
    /\ Forall (paired features importance) top.
Proof.
  induction 1 as [ | i idxs [Hf Hw] _ (top & E & Ix & P) ];
    cbn [comprehension].
  - exists []. repeat split. constructor.
  - apply nth_error_Some in Hf, Hw. unfold getitem at 1 2.
    destruct (nth_error features i) as [v | ] eqn:Ev; [ | congruence ].
    destruct (nth_error importance i) as [w | ] eqn:Ew; [ | congruence ].
    cbn [bind]. rewrite E. cbn [bind].
    exists ((i, v, w) :: top). split; [ reflexivity | ]. split.
    + cbn [map index_of fst]. now rewrite Ix.
    + constructor; [ | exact P ]. split; assumption.
Qed.

Section Ranking.

Context {A : Argsort} {AL : ArgsortLaws A}.
Variable importance : list npfloat.

Lemma argsort_in (i : nat) :
  In i (argsort importance) <-> (i < List.length importance)%nat.
Proof.
  split; intro I.
  - apply (Permutation_in _ (argsort_perm importance)) in I.
    apply in_seq in I. lia.
  - apply (Permutation_in _ (Permutation_sym (argsort_perm importance))).
    apply in_seq. lia.
Qed.

Lemma argsort_length :
  List.length (argsort importance) = List.length importance.
Proof.
  rewrite (Permutation_length (argsort_perm importance)). apply length_seq.
Qed.

Lemma argsort_nodup : NoDup (argsort importance).
Proof.
  apply (Permutation_NoDup (Permutation_sym (argsort_perm importance))).
  apply seq_NoDup.
Qed.

Lemma last_reversed_length (k : nat) :
  List.length (last_reversed importance k)
  = Nat.min k (List.length importance).
Proof.
  unfold last_reversed. rewrite length_rev, length_skipn, argsort_length.
  lia.
Qed.

Lemma last_reversed_in (k i : nat) :
  In i (last_reversed importance k) -> (i < List.length importance)%nat.
Proof.
  unfold last_reversed. intro I. apply in_rev in I.
  apply argsort_in.
  rewrite <- (firstn_skipn (List.length importance - k) (argsort importance)).
  apply in_or_app. right. exact I.
Qed.

Lemma last_reversed_nodup (k : nat) : NoDup (last_reversed importance k).
Proof.
  unfold last_reversed. apply NoDup_rev.
  pose proof argsort_nodup as N.
  rewrite <- (firstn_skipn (List.length importance - k) (argsort importance))
    in N.
  exact (NoDup_app_remove_l _ _ N).
Qed.

Lemma last_reversed_descending (k : nat) :
  StronglySorted (fun i j => key_le importance j i)
    (last_reversed importance k).
Proof.
  unfold last_reversed.
  apply (StronglySorted_rev (key_le importance)).
  pose proof (argsort_sorted importance) as S.
  rewrite <- (firstn_skipn (List.length importance - k) (argsort importance))
    in S.
  exact (proj1 (proj2 (StronglySorted_app_inv _ _ _ S))).
Qed.

Lemma last_reversed_top (k j i : nat) :
  (j < List.length importance)%nat ->
  ~ In j (last_reversed importance k) ->
  In i (last_reversed importance k) ->
  key_le importance j i.
Proof.
  unfold last_reversed. intros Lj Nj Ii.
  rewrite <- in_rev in Nj, Ii.
  pose proof (argsort_sorted importance) as S.
  rewrite <- (firstn_skipn (List.length importance - k) (argsort importance))
    in S.
  apply (proj2 (proj2 (StronglySorted_app_inv _ _ _ S))); [ | exact Ii ].
  apply argsort_in in Lj.
  rewrite <- (firstn_skipn (List.length importance - k) (argsort importance))
    in Lj.
  apply in_app_or in Lj. tauto.
Qed.

End Ranking.

Lemma get_top_features_indices {A : Argsort} {AL : ArgsortLaws A}
  (self : VoiceDetectionModel)
  (features importance : list npfloat) (n_top : Z) :
  feature_importance self = Some importance ->
  (0 < n_top)%Z ->
  (List.length importance <= List.length features)%nat ->
  exists top,
    get_top_features self features n_top = Ok top
    /\ map index_of top = last_reversed importance (Z.to_nat n_top)
    /\ Forall (paired features importance) top.
Proof.
  intros E P Len. unfold get_top_features. rewrite E.
  rewrite (slice_from_last n_top (argsort importance) P).
  rewrite (argsort_length importance).
  apply comprehension_paired.
  apply Forall_forall. intros i I.
  pose proof (last_reversed_in importance (Z.to_nat n_top) i I). lia.
Qed.

(** C4, against the claim as stated, on the stable reference [argsort].
    With [n = 0] the slice [[-0:]] keeps everything, so both features come
    back instead of none.  With two equal importances and [n = 1] the index
    returned is 1, the higher one.  With a vector shorter than the
    weighting the lookup raises. *)
Lemma top_features_counterexample :
  @get_top_features insertion_argsort
    (with_importance (Some [Num (1 # 10); Num (9 # 10)]))
    [Num 7; Num 8] 0
  = Ok [(1%nat, Num 8, Num (9 # 10)); (0%nat, Num 7, Num (1 # 10))]
  /\ @get_top_features insertion_argsort
       (with_importance (Some [Num (1 # 2); Num (1 # 2)]))
       [Num 7; Num 8] 1
     = Ok [(1%nat, Num 8, Num (1 # 2))]
  /\ @get_top_features insertion_argsort
       (with_importance (Some [Num (1 # 2)])) [] 1
     = Raise IndexError.
Proof. repeat split. Qed.

(** C4, as the code has it, for every [argsort] NumPy may run.  Without
    a weighting, or with an empty one, the list is empty.  With a weighting,
    [n >= 1] and a vector at least as long as the weighting, the result has
    min(n, number of weights) triples; their indices are distinct; each
    triple pairs its index with the vector's value and the weight at that
    index; the weights descend along the list; and no index left out has a
    weight above one that was kept.  Among equal weights the order is the
    one [argsort] left, reversed. *)
Theorem get_top_features_ranking :
  forall {A : Argsort} {AL : ArgsortLaws A} (self : VoiceDetectionModel)
         (features : list npfloat) (n_top : Z),
    (feature_importance self = None ->
     get_top_features self features n_top = Ok [])
    /\ (feature_importance self = Some [] ->
        get_top_features self features n_top = Ok [])
    /\ (forall importance : list npfloat,
           feature_importance self = Some importance ->
           (0 < n_top)%Z ->
           (List.length importance <= List.length features)%nat ->
           exists top,
             get_top_features self features n_top = Ok top
             /\ List.length top
                = Nat.min (Z.to_nat n_top) (List.length importance)
             /\ map index_of top
                = rev (slice_from (- n_top) (argsort importance))
             /\ NoDup (map index_of top)
             /\ Forall (paired features importance) top
             /\ StronglySorted (fun i j => key_le importance j i)
                  (map index_of top)
             /\ forall j i,
                 (j < List.length importance)%nat ->
                 ~ In j (map index_of top) -> In i (map index_of top) ->
                 key_le importance j i).
Proof.
  intros A AL self features n_top. split; [ | split ].
  - intro E. unfold get_top_features. rewrite E. reflexivity.
  - intro E. unfold get_top_features. rewrite E.
    pose proof (argsort_perm []) as P. cbn in P.
    apply Permutation_sym, Permutation_nil in P. rewrite P.
    unfold slice_from. rewrite skipn_nil. reflexivity.
  - intros importance E P Len.
    destruct (get_top_features_indices self features importance n_top E P Len)
      as (top & R & Ix & Pairs).
    exists top. split; [ exact R | ].
    split.
    { rewrite <- (length_map index_of), Ix. apply last_reversed_length. }
    split.
    { rewrite Ix. unfold last_reversed.
      rewrite (slice_from_last n_top (argsort importance) P).
      now rewrite (argsort_length importance). }
    rewrite Ix.
    split; [ apply last_reversed_nodup | ].
    split; [ exact Pairs | ].
    split; [ apply last_reversed_descending | ].
    intros j i. apply last_reversed_top.
Qed.

Lemma get_top_features_ranking_witness :
  exists top,
    @get_top_features insertion_argsort
      (with_importance (Some [Num (1 # 10); Num (6 # 10); Num (3 # 10)]))
      [Num 7; Num 8; Num 9] 2 = Ok top
    /\ map index_of top = [1; 2]%nat
    /\ List.length top = 2%nat.
Proof.
  destruct (@get_top_features_ranking insertion_argsort
              insertion_argsort_laws
              (with_importance
                 (Some [Num (1 # 10); Num (6 # 10); Num (3 # 10)]))
              [Num 7; Num 8; Num 9] 2) as (_ & _ & Rank).
  destruct (Rank [Num (1 # 10); Num (6 # 10); Num (3 # 10)] eq_refl
              eq_refl (le_n 3))
    as (top & R & Len & Ix & _).
  exists top. split; [ exact R | ]. split; [ exact Ix | exact Len ].
Defined.

(** ** Loading and the placeholder model *)

Lemma take_in_range {A} (xs : list A) (idxs : list nat) :
  Forall (fun i => (i < List.length xs)%nat) idxs ->
  exists r,
    take xs idxs = Ok r
    /\ Forall2 (fun i x => nth_error xs i = Some x) idxs r.
Proof.
  unfold take.
  induction 1 as [ | i idxs Hi _ (r & E & F) ]; cbn [comprehension].
  - exists []. split; [ reflexivity | constructor ].
  - apply nth_error_Some in Hi. unfold getitem at 1.
    destruct (nth_error xs i) as [x | ] eqn:Ex; [ | congruence ].
    cbn [bind]. rewrite E. cbn [bind].
    exists (x :: r). split; [ reflexivity | ].
    constructor; assumption.
Qed.

#[local] Instance constant_sklearn_laws : SklearnLaws constant_sklearn.
Proof.
  constructor.
  - intros loc scale n m g. apply repeat_length.
  - intros n g. apply Permutation_refl.
Qed.

Section Loading.

Context {D : Disk} {S : Sklearn} {SL : SklearnLaws S}.

Lemma dummy_training_set_unfold :
  dummy_training_set
  = (X <- take (ai_voices ++ human_voices)%list shuffle ;;
     y <- take class_labels shuffle ;;
     Ok (X, y)).
Proof.
  unfold dummy_training_set, class_labels, shuffle, human_voices, ai_voices.
  destruct (random_normal (1 # 2) (1 # 10) n_samples n_features
              (random_seed 42)) as [a g1].
  cbn [fst snd].
  destruct (random_normal (1 # 2) (3 # 10) n_samples n_features g1)
    as [h g2].
  cbn [fst snd].
  destruct (random_permutation (List.length (a ++ h)%list) g2) as [p g3].
  reflexivity.
Qed.

Lemma ai_voices_length : List.length ai_voices = n_samples.
Proof. apply random_normal_rows. Qed.

Lemma human_voices_length : List.length human_voices = n_samples.
Proof. apply random_normal_rows. Qed.

Lemma shuffle_in_range :
  Forall (fun i => (i < n_samples + n_samples)%nat) shuffle.
Proof.
  apply Forall_forall. intros i I. unfold shuffle in I.
  apply (Permutation_in _ (random_permutation_perm _ _)) in I.
  apply in_seq in I.
  rewrite length_app, ai_voices_length, human_voices_length in I. lia.
Qed.

(** The synthetic training set always comes out, row [k] of it being row
    [shuffle[k]] of the stacked draws with the label of that row. *)
Lemma dummy_training_set_ok :
  exists X y,
    dummy_training_set = Ok (X, y)
    /\ Forall2 (fun i x => nth_error (ai_voices ++ human_voices)%list i
                           = Some x) shuffle X
    /\ Forall2 (fun i c => nth_error class_labels i = Some c) shuffle y.
Proof.
  rewrite dummy_training_set_unfold.
  destruct (take_in_range (ai_voices ++ human_voices)%list shuffle)
    as (X & EX & FX).
  { rewrite length_app, ai_voices_length, human_voices_length.
    exact shuffle_in_range. }
  destruct (take_in_range class_labels shuffle) as (y & Ey & Fy).
  { unfold class_labels. rewrite length_app, !repeat_length.
    exact shuffle_in_range. }
  exists X, y. rewrite EX, Ey. repeat split; assumption.
Qed.

Lemma create_dummy_model_run (X : list (list npfloat)) (y : list Z)
  (self : VoiceDetectionModel) :
  dummy_training_set = Ok (X, y) ->
  _create_dummy_model self = (Ok tt, placeholder X y).
Proof.
  intro E. unfold _create_dummy_model, bindM, assign, call.
  rewrite E. reflexivity.
Qed.

Lemma load_model_bootstraps (X : list (list npfloat)) (y : list Z)
  (self : VoiceDetectionModel) :
  dummy_training_set = Ok (X, y) ->
  MODEL_PATH = Missing \/ MODEL_PATH = Corrupt \/ SCALER_PATH = Corrupt ->
  load_model self = (Ok tt, placeholder X y).
Proof.
  intros E Why. unfold load_model, try_exceptM.
  destruct MODEL_PATH as [ | | m ] eqn:Em; cbn [os_path_exists negb].
  - rewrite (create_dummy_model_run X y self E). reflexivity.
  - unfold bindM, call. cbn [joblib_load].
    apply (create_dummy_model_run X y _ E).
  - destruct Why as [W | [W | W]]; try discriminate W.
    rewrite W. unfold bindM, call, assign. cbn [joblib_load os_path_exists].
    apply (create_dummy_model_run X y _ E).
Qed.

Lemma artifact_corrupt_dec {A} (p : artifact A) :
  {p = Corrupt} + {p <> Corrupt}.
Proof. destruct p; [ right | left | right ]; congruence. Qed.

Lemma load_model_from_disk (m : option estimator)
  (self : VoiceDetectionModel) :
  MODEL_PATH = Stored m -> SCALER_PATH <> Corrupt ->
  load_model self
  = (Ok tt,
     {| model := m;
        scaler := match SCALER_PATH with
                  | Stored s => s
                  | _ => scaler self
                  end;
        feature_importance := match getattr_feature_importances_ m with
                              | Some w => Some w
                              | None => feature_importance self
                              end;
        is_loaded := true |}).
Proof.
  intros Em Es. unfold load_model, try_exceptM. rewrite Em.
  cbn [os_path_exists negb]. unfold bindM, call, assign. cbn [joblib_load].
  destruct SCALER_PATH as [ | | s ]; [ | congruence | ];
    cbn [os_path_exists joblib_load];
    destruct (getattr_feature_importances_ m); reflexivity.
Qed.

End Loading.

(** C9, against the claim as stated.  A model file that holds a pickled
    [None] deserializes without an exception: the load succeeds, the object
    counts as loaded and its model is [None], so that every later [predict]
    fails.  And with a stored classifier that has no
    [feature_importances_] (the soft-voting ensemble [train_model.py]
    saves is one) the load succeeds and leaves the weighting at [None]. *)
Lemma load_model_counterexample :
  (exists self',
      @load_model none_disk constant_sklearn VoiceDetectionModel_init
      = (Ok tt, self')
      /\ is_loaded self' = true
      /\ model self' = None
      /\ feature_importance self' = None
      /\ forall features,
          @predict none_disk constant_sklearn features self'
          = (Raise (Exception "Model prediction error"), self'))
  /\ (exists self',
         @load_model trained_disk constant_sklearn VoiceDetectionModel_init
         = (Ok tt, self')
         /\ is_loaded self' = true
         /\ model self' = Some voting_classifier
         /\ feature_importance self' = None).
Proof.
  split.
  - eexists. repeat split.
  - eexists. repeat split.
Qed.

(** C9, as the code has it.  [load_model] returns on every object and
    every state of the disk, and leaves the object loaded.  When the model
    file is missing, or it or the scaler file fails to deserialize, the
    object is the placeholder: a forest fitted in memory on the seeded
    synthetic set, no scaler, and the forest's importances as weighting; the
    placeholder depends neither on the disk nor on the object before.  When
    the files deserialize, the model is the object the model file holds,
    [None] if it holds [None], the scaler the object the scaler file
    holds, and the weighting is populated exactly when the stored model has
    [feature_importances_]; otherwise it stays as it was ([None] on a fresh
    object). *)
Theorem load_model_never_fails :
  forall {D : Disk} {S : Sklearn} {SL : SklearnLaws S}
         (self : VoiceDetectionModel),
    exists X y self',
      dummy_training_set = Ok (X, y)
      /\ load_model self = (Ok tt, self')
      /\ is_loaded self' = true
      /\ (MODEL_PATH = Missing \/ MODEL_PATH = Corrupt
          \/ SCALER_PATH = Corrupt ->
          self' = placeholder X y
          /\ model self'
             = Some (estimator_of_forest
                       (RandomForestClassifier_fit 100 10 42 X y))
          /\ scaler self' = None
          /\ feature_importance self'
             = Some (forest_feature_importances
                       (RandomForestClassifier_fit 100 10 42 X y)))
      /\ (forall obj, MODEL_PATH = Stored obj -> SCALER_PATH <> Corrupt ->
                      model self' = obj
                      /\ (model self' <> None <-> obj <> None)
                      /\ scaler self' = match SCALER_PATH with
                                        | Stored s => s
                                        | _ => scaler self
                                        end
                      /\ feature_importance self'
                         = match getattr_feature_importances_ obj with
                           | Some w => Some w
                           | None => feature_importance self
                           end)
      /\ (model self' = None <->
          MODEL_PATH = Stored None /\ SCALER_PATH <> Corrupt).
Proof.
  intros D S SL self.
  destruct dummy_training_set_ok as (X & y & E & _ & _).
  exists X, y.
  assert (Boot : MODEL_PATH = Missing \/ MODEL_PATH = Corrupt
                 \/ SCALER_PATH = Corrupt ->
                 load_model self = (Ok tt, placeholder X y)).
  { exact (load_model_bootstraps X y self E). }
  assert (Placeholder :
            MODEL_PATH = Missing \/ MODEL_PATH = Corrupt
            \/ SCALER_PATH = Corrupt ->
            exists self',
              dummy_training_set = Ok (X, y)
              /\ load_model self = (Ok tt, self')
              /\ is_loaded self' = true
              /\ (MODEL_PATH = Missing \/ MODEL_PATH = Corrupt
                  \/ SCALER_PATH = Corrupt ->
                  self' = placeholder X y
                  /\ model self'
                     = Some (estimator_of_forest
                               (RandomForestClassifier_fit 100 10 42 X y))
                  /\ scaler self' = None
                  /\ feature_importance self'
                     = Some (forest_feature_importances
                               (RandomForestClassifier_fit 100 10 42 X y)))
              /\ (forall obj, MODEL_PATH = Stored obj ->
                              SCALER_PATH <> Corrupt ->
                              model self' = obj
                              /\ (model self' <> None <-> obj <> None)
                              /\ scaler self' = match SCALER_PATH with
                                                | Stored s => s
                                                | _ => scaler self
                                                end
                              /\ feature_importance self'
                                 = match getattr_feature_importances_ obj with
                                   | Some w => Some w
                                   | None => feature_importance self
                                   end)
              /\ (model self' = None <->
                  MODEL_PATH = Stored None /\ SCALER_PATH <> Corrupt)).
  { intro Why. exists (placeholder X y). rewrite (Boot Why).
    split; [ exact E | ]. split; [ reflexivity | ].
    split; [ reflexivity | ].
    split; [ intros _; repeat split | ].
    split.
    - intros obj Em Es. exfalso.
      destruct Why as [W | [W | W]]; congruence.
    - split; [ discriminate | ].
      intros [Em Es]. exfalso.
      destruct Why as [W | [W | W]]; congruence. }
  destruct MODEL_PATH as [ | | m ] eqn:Em; [ auto | auto | ].
  destruct (artifact_corrupt_dec SCALER_PATH) as [Ec | Es]; [ auto | ].
  eexists. rewrite (load_model_from_disk m self Em Es).
  cbn [model scaler feature_importance is_loaded].
  split; [ exact E | ]. split; [ reflexivity | ]. split; [ reflexivity | ].
  split.
  { intros [W | [W | W]]; [ discriminate W | discriminate W | contradiction ]. }
  cbn [model scaler feature_importance is_loaded].
  split.
  - intros obj Eo _. injection Eo as <-.
    split; [ reflexivity | ]. split; [ tauto | ]. split; reflexivity.
  - split.
    + intros ->. split; [ reflexivity | exact Es ].
    + intros [Eo _]. injection Eo as ->. reflexivity.
Qed.

(** ** The placeholder and the meaning of its two classes *)

Lemma Forall2_nth_error {A B} (R : A -> B -> Prop) (l1 : list A)
  (l2 : list B) :
  Forall2 R l1 l2 ->
  forall k a, nth_error l1 k = Some a ->
              exists b, nth_error l2 k = Some b /\ R a b.
Proof.
  induction 1 as [ | a0 b0 l1 l2 R0 _ IH ]; intros k a E.
  - destruct k; discriminate E.
  - destruct k as [ | k ]; cbn [nth_error] in *.
    + injection E as <-. eauto.
    + exact (IH k a E).
Qed.

Lemma nth_error_repeat_inv {A} (a c : A) (n i : nat) :
  nth_error (repeat a n) i = Some c -> c = a.
Proof.
  intro E. apply nth_error_In in E. exact (repeat_spec n a c E).
Qed.

Section Bootstrapped.

Context {D : Disk} {S : Sklearn} {SL : SklearnLaws S}.

(** Where row [i] of the stacked draws comes from, and its label. *)
Lemma stacked_row (i : nat) (row : list npfloat) (c : Z) :
  nth_error (ai_voices ++ human_voices)%list i = Some row ->
  nth_error class_labels i = Some c ->
  ((i < n_samples)%nat /\ nth_error ai_voices i = Some row /\ c = 0%Z)
  \/ ((n_samples <= i)%nat
      /\ nth_error human_voices (i - n_samples) = Some row /\ c = 1%Z).
Proof.
  unfold class_labels. intros Er Ec.
  destruct (Nat.lt_ge_cases i n_samples) as [L | G].
  - left. split; [ exact L | ].
    rewrite nth_error_app1 in Er by (rewrite ai_voices_length; exact L).
    rewrite nth_error_app1 in Ec by (rewrite repeat_length; exact L).
    split; [ exact Er | exact (nth_error_repeat_inv _ _ _ _ Ec) ].
  - right. split; [ exact G | ].
    rewrite nth_error_app2 in Er by (rewrite ai_voices_length; exact G).
    rewrite nth_error_app2 in Ec by (rewrite repeat_length; exact G).
    rewrite ai_voices_length in Er.
    split; [ exact Er | exact (nth_error_repeat_inv _ _ _ _ Ec) ].
Qed.

(** [predict] on an object that is loaded, has no scaler and holds a
    fitted forest. *)
Lemma predict_on_forest (F : forest) (w : option (list npfloat))
  (features : list npfloat) (self' : VoiceDetectionModel)
  (label : string) (conf : npfloat) (probs : list npfloat) :
  predict features
    {| model := Some (estimator_of_forest F); scaler := None;
       feature_importance := w; is_loaded := true |}
  = (Ok (label, conf, probs), self') ->
  exists rows class0 class1,
    forest_predict_proba F [features] = Ok rows
    /\ nth_error rows 0 = Some probs
    /\ nth_error probs 0 = Some class0
    /\ nth_error probs 1 = Some class1
    /\ (label, conf) = if Np.gt class1 class0
                       then (AI_GENERATED, class1)
                       else (HUMAN, class0).
Proof.
  unfold predict, bindM, try_exceptM, gets, call, ret, raise,
    model_predict_proba0, getitem, bind.
  cbn [is_loaded negb scaler model estimator_of_forest predict_proba].
  intro E. run_method.
  all: eexists; eexists; eexists.
  all: repeat (split; [ reflexivity || eassumption | ]).
  all: match goal with
       | G : Np.gt _ _ = _ |- _ => rewrite G; reflexivity
       end.
Qed.

End Bootstrapped.

(** C10.  The synthetic training set of the placeholder gives label 0 to
    the rows drawn with the small spread (the AI-like ones, rows 0 to 199
    of the stack) and label 1 to the rows drawn with the large spread (the
    human-like ones), whatever the shuffle; and [predict] on the placeholder
    reads entry 0 of the forest's probability row, the probability of class
    0, as human_prob and entry 1 as ai_prob.  So the probability of the
    class fitted on the AI-like rows is what is reported under HUMAN. *)
Theorem bootstrapped_classes_are_swapped :
  forall {D : Disk} {S : Sklearn} {SL : SklearnLaws S},
    exists X y,
      dummy_training_set = Ok (X, y)
      /\ (forall self, _create_dummy_model self = (Ok tt, placeholder X y))
      /\ (forall k i,
             nth_error shuffle k = Some i ->
             exists row c,
               nth_error X k = Some row /\ nth_error y k = Some c
               /\ (((i < n_samples)%nat
                    /\ nth_error ai_voices i = Some row /\ c = 0%Z)
                   \/ ((n_samples <= i)%nat
                       /\ nth_error human_voices (i - n_samples) = Some row
                       /\ c = 1%Z)))
      /\ (forall features self' label conf probs,
             predict features (placeholder X y)
             = (Ok (label, conf, probs), self') ->
             exists rows class0 class1,
               forest_predict_proba
                 (RandomForestClassifier_fit 100 10 42 X y) [features]
               = Ok rows
               /\ nth_error rows 0 = Some probs
               /\ nth_error probs 0 = Some class0
               /\ nth_error probs 1 = Some class1
               /\ (label = HUMAN <-> Np.gt class1 class0 = false)
               /\ (label = HUMAN -> conf = class0)
               /\ (label = AI_GENERATED -> conf = class1)).
Proof.
  intros D S SL.
  destruct dummy_training_set_ok as (X & y & E & FX & Fy).
  exists X, y. split; [ exact E | ]. split; [ | split ].
  - intro self. exact (create_dummy_model_run X y self E).
  - intros k i Ek.
    destruct (Forall2_nth_error _ _ _ FX k i Ek) as (row & Er & Sr).
    destruct (Forall2_nth_error _ _ _ Fy k i Ek) as (c & Ec & Sc).
    exists row, c. split; [ exact Er | ]. split; [ exact Ec | ].
    exact (stacked_row i row c Sr Sc).
  - intros features self' label conf probs P.
    destruct (predict_on_forest _ _ _ _ _ _ _ P)
      as (rows & c0 & c1 & Er & E0 & P0 & P1 & R).
    exists rows, c0, c1.
    repeat (split; [ assumption | ]).
    destruct (Np.gt c1 c0); injection R as -> ->.
    + split; [ | split ].
      * split; [ intro F; exfalso; exact (AI_GENERATED_not_HUMAN F)
               | discriminate ].
      * intro F. exfalso. exact (AI_GENERATED_not_HUMAN F).
      * reflexivity.
    + split; [ | split ].
      * split; reflexivity.
      * reflexivity.
      * intro F. exfalso. symmetry in F. exact (AI_GENERATED_not_HUMAN F).
Qed.

(** On a fresh object with no artifact on disk and the reference learner:
    the load returns and leaves the placeholder. *)
Lemma load_model_never_fails_witness :
  exists self',
    @load_model empty_disk constant_sklearn VoiceDetectionModel_init
    = (Ok tt, self')
    /\ is_loaded self' = true
    /\ model self' <> None
    /\ feature_importance self' <> None.
Proof.
  destruct (@load_model_never_fails empty_disk constant_sklearn
              constant_sklearn_laws VoiceDetectionModel_init)
    as (X & y & self' & _ & R & Ld & Boot & _).
  exists self'. split; [ exact R | ]. split; [ exact Ld | ].
  destruct (Boot (or_introl eq_refl)) as (_ & M & _ & W).
  rewrite M, W. split; discriminate.
Defined.

Lemma bootstrapped_classes_are_swapped_witness :
  exists X y,
    @dummy_training_set constant_sklearn = Ok (X, y)
    /\ List.length X = 400%nat
    /\ nth_error y 0 = Some 0%Z
    /\ nth_error y 399 = Some 1%Z.
Proof.
  destruct (@bootstrapped_classes_are_swapped empty_disk constant_sklearn
              constant_sklearn_laws) as (X & y & E & _).
  exists X, y. split; [ exact E | ].
  vm_compute in E. injection E as <- <-.
  repeat split.
Defined.

(* ================================================================== *)
(** * Part III. More properties of the code                            *)
(* ================================================================== *)

(** ** [process_audio] as a whole *)

Lemma normalize_then_mono_mono (xs : list npfloat) :
  xs <> [] ->
  exists ys,
    normalize_then_mono (Arr1 xs) = Ok (Arr1 ys)
    /\ List.length ys = List.length xs.
Proof.
  intro N. unfold normalize_then_mono, _normalize_audio.
  destruct xs as [ | x xs ]; [ congruence | ].
  cbn [ravel map Np.max bind].
  destruct (Np.gt _ _); cbn [bind elementwise _ensure_mono].
  - eexists. split; [ reflexivity | apply length_map ].
  - eexists. split; reflexivity.
Qed.

(** X1.  [process_audio] fails exactly when the decoder fails or decodes
    to no sample at all, and then always with its own
    "Audio processing error"; on every other input it returns a
    one-dimensional waveform with as many samples as were decoded, together
    with the processor's sample rate. *)
Theorem process_audio_outcome :
  forall {D : Decoder} (self : AudioProcessor) (audio_bytes : list Byte.byte),
    (forall e,
        librosa_load audio_bytes (sample_rate self) = Raise e ->
        process_audio self audio_bytes
        = Raise (Exception "Audio processing error"))
    /\ (librosa_load audio_bytes (sample_rate self) = Ok [] ->
        process_audio self audio_bytes
        = Raise (Exception "Audio processing error"))
    /\ (forall xs,
           librosa_load audio_bytes (sample_rate self) = Ok xs ->
           xs <> [] ->
           exists ys,
             process_audio self audio_bytes = Ok (Arr1 ys, sample_rate self)
             /\ List.length ys = List.length xs)
    /\ (forall e,
           process_audio self audio_bytes = Raise e ->
           e = Exception "Audio processing error").
Proof.
  intros D self audio_bytes. split; [ | split; [ | split ] ].
  - intros e E. unfold process_audio, _convert_to_wav. rewrite E. reflexivity.
  - intro E. rewrite (process_audio_decoded self audio_bytes [] E).
    reflexivity.
  - intros xs E N. rewrite (process_audio_decoded self audio_bytes xs E).
    destruct (normalize_then_mono_mono xs N) as (ys & R & Len).
    exists ys. rewrite R. split; [ reflexivity | exact Len ].
  - intros e. unfold process_audio, try_except.
    destruct (_ <- _convert_to_wav self audio_bytes ;; _); intro E;
      [ discriminate E | now injection E as <- ].
Qed.

(** ** Duration bounds in samples *)

Lemma seconds_ge_half (a : ndarray) :
  1 # 2 <= seconds a <-> (11025 <= Z.of_nat (len a))%Z.
Proof.
  unfold seconds, duration_of, Qle, Qdiv, Qmult, Qinv, inject_Z.
  cbn [Qnum Qden AudioProcessor_init sample_rate config.SAMPLE_RATE].
  lia.
Qed.

Lemma seconds_le_thirty (a : ndarray) :
  seconds a <= 30 <-> (Z.of_nat (len a) <= 661500)%Z.
Proof.
  unfold seconds, duration_of, Qle, Qdiv, Qmult, Qinv, inject_Z.
  cbn [Qnum Qden AudioProcessor_init sample_rate config.SAMPLE_RATE].
  lia.
Qed.

(** X2.  At the configured rate of 22050 Hz and with the default bounds,
    [validate_audio_duration] accepts exactly the waveforms of 11025 to
    661500 samples, both ends included; it raises "Audio too short" below
    and "Audio too long" above. *)
Theorem validate_audio_duration_in_samples :
  forall audio_array : ndarray,
    let check :=
      validate_audio_duration AudioProcessor_init audio_array
        default_min_duration default_max_duration in
    let n := Z.of_nat (len audio_array) in
    (check = Ok true <-> (11025 <= n <= 661500)%Z)
    /\ (check = Raise (ValueError "Audio too short") <-> (n < 11025)%Z)
    /\ (check = Raise (ValueError "Audio too long") <-> (661500 < n)%Z).
Proof.
  intros a check n.
  pose proof (seconds_ge_half a) as Lo.
  pose proof (seconds_le_thirty a) as Hi.
  fold n in Lo, Hi.
  destruct (Qlt_le_dec (seconds a) (1 # 2)) as [S | S].
  - assert (R : check = Raise (ValueError "Audio too short")).
    { apply validate_too_short; [ exact config_rate_pos | exact S ]. }
    assert (N : (n < 11025)%Z).
    { apply Z.nle_gt. intro G. apply Lo in G.
      exact (Qlt_not_le _ _ S G). }
    rewrite R. repeat split; intros; try discriminate; try lia; auto.
  - destruct (Qlt_le_dec 30 (seconds a)) as [L | L].
    + assert (R : check = Raise (ValueError "Audio too long")).
      { apply validate_too_long; [ exact config_rate_pos | exact S | exact L ]. }
      assert (N : (661500 < n)%Z).
      { apply Z.nle_gt. intro G. apply Hi in G.
        exact (Qlt_not_le _ _ L G). }
      rewrite R. repeat split; intros; try discriminate; try lia; auto.
    + assert (R : check = Ok true).
      { apply validate_within; [ exact config_rate_pos | exact S | exact L ]. }
      apply Lo in S. apply Hi in L.
      rewrite R. repeat split; intros; try discriminate; try lia; auto.
Qed.

(** ** Normalising what is normalised *)

Lemma np_eq_refl (a : npfloat) : np_eq a a.
Proof. destruct a; cbn; [ reflexivity | exact I ]. Qed.

Lemma Forall2_np_eq_refl (xs : list npfloat) : Forall2 np_eq xs xs.
Proof. induction xs; constructor; [ apply np_eq_refl | assumption ]. Qed.

(** X4.  Normalising twice is normalising once: the output of
    [normalize_then_mono] on a mono waveform with samples, none of them
    [nan], comes out of a second pass with equal samples. *)
Theorem normalization_idempotent :
  forall xs : list npfloat,
    finite_frames xs ->
    exists ys zs,
      normalize_then_mono (Arr1 xs) = Ok (Arr1 ys)
      /\ normalize_then_mono (Arr1 ys) = Ok (Arr1 zs)
      /\ Forall2 np_eq ys zs.
Proof.
  intros xs F.
  destruct (peak_spec xs F) as (m & E & _ & Up & At).
  unfold normalize_then_mono at 1.
  destruct (Qlt_le_dec 0 m) as [Pm | Pm].
  - rewrite (normalize_scales (Arr1 xs) m E Pm).
    cbn [bind elementwise _ensure_mono].
    set (ys := map (fun x => Np.div x (Num m)) xs).
    assert (Fy : finite_frames ys).
    { split.
      - destruct F as [N _]. destruct xs; [ congruence | discriminate ].
      - apply scaled_is_num; [ exact Pm | exact (proj2 F) ]. }
    destruct (scaled_peak xs m Pm F Up At) as (p & Ep & P1).
    fold ys in Ep.
    assert (Pp : 0 < p) by (rewrite P1; reflexivity).
    exists ys. eexists. split; [ reflexivity | ].
    unfold normalize_then_mono.
    rewrite (normalize_scales (Arr1 ys) p Ep Pp).
    cbn [bind elementwise _ensure_mono]. split; [ reflexivity | ].
    clearbody ys. clear - Fy P1 Pp.
    destruct Fy as [_ Fy].
    induction Fy as [ | y ys Hy _ IH ]; cbn [map]; constructor;
      [ | exact IH ].
    destruct (is_num_inv y Hy) as [q ->]. cbn [Np.div].
    rewrite Qeq_bool_false.
    + cbn [np_eq]. rewrite P1. field.
    + intro Z. rewrite Z in Pp. exact (Qlt_irrefl _ Pp).
  - rewrite (normalize_keeps (Arr1 xs) m E Pm). cbn [bind _ensure_mono].
    exists xs, xs. split; [ reflexivity | ].
    unfold normalize_then_mono.
    rewrite (normalize_keeps (Arr1 xs) m E Pm). cbn [bind _ensure_mono].
    split; [ reflexivity | apply Forall2_np_eq_refl ].
Qed.

Lemma normalization_idempotent_witness :
  exists ys zs,
    normalize_then_mono (Arr1 two_samples) = Ok (Arr1 ys)
    /\ normalize_then_mono (Arr1 ys) = Ok (Arr1 zs)
    /\ Forall2 np_eq ys zs.
Proof.
  apply (normalization_idempotent two_samples).
  split; [ discriminate | repeat constructor ].
Defined.

(** ** The indices the explainer reads *)

Section NamedFeatures.

Context {M : Libm} {L : Librosa}.
Variable self : FeatureExtractor.
Variable audio : list npfloat.

Ltac run_call :=
  repeat match goal with
         | H : Ok _ = Ok _ |- _ => injection H as ?; subst
         | H : Raise _ = Ok _ |- _ => discriminate H
         | H : context [getitem ?m 0] |- _ => unfold getitem in H
         | H : context [match ?x with _ => _ end] |- _ => destruct x eqn:?
         end.

(** Steps over one family of the vector, of known length. *)
Ltac skip_family Len :=
  rewrite nth_error_app2 by (rewrite Len; lia);
  rewrite Len; cbn [Nat.sub].

Lemma pitch_form (p : list npfloat) :
  _extract_pitch_features self audio = Ok p ->
  exists f0 flags probs,
    pyin audio (note_to_hz "C2") (note_to_hz "C7") (fe_sample_rate self)
    = Ok (f0, flags, probs)
    /\ nth_error p 1
       = Some (match filter (fun x => negb (isnan x)) f0 with
               | [] => Num 0
               | voiced => std voiced
               end).
Proof.
  intro E. unfold _extract_pitch_features, bind in E.
  destruct (pyin audio (note_to_hz "C2") (note_to_hz "C7")
              (fe_sample_rate self)) as [[[f0 flags] probs] | e];
    [ | discriminate E ].
  exists f0, flags, probs. split; [ reflexivity | ].
  destruct (filter (fun x => negb (isnan x)) f0) as [ | v voiced ].
  - cbn in E. injection E as <-. reflexivity.
  - cbn [List.length Nat.ltb Nat.leb] in E. run_call. reflexivity.
Qed.

Lemma energy_form (e : list npfloat) :
  _extract_energy_features self audio = Ok e ->
  exists m rms,
    feature_rms audio (hop_length self) = Ok m
    /\ nth_error m 0 = Some rms
    /\ nth_error e 1 = Some (std rms).
Proof.
  intro E. unfold _extract_energy_features, bind in E. run_call.
  eexists. eexists. split; [ reflexivity | ]. split; [ eassumption | ].
  reflexivity.
Qed.

Lemma spectral_form (s : list npfloat) :
  _extract_spectral_features self audio = Ok s ->
  exists m flatness,
    feature_spectral_flatness audio (hop_length self) = Ok m
    /\ nth_error m 0 = Some flatness
    /\ nth_error s 4 = Some (mean flatness).
Proof.
  intro E. unfold _extract_spectral_features, bind in E. run_call.
  eexists. eexists. split; [ reflexivity | ]. split; [ eassumption | ].
  reflexivity.
Qed.

Lemma prosody_form (r : list npfloat) :
  _extract_prosody_features self audio = Ok r ->
  exists onset_env tempo beats autocorr harmonic percussive,
    onset_onset_strength audio (fe_sample_rate self) (hop_length self)
    = Ok onset_env
    /\ beat_beat_track audio (fe_sample_rate self) (hop_length self)
       = Ok (tempo, beats)
    /\ autocorrelate audio = Ok autocorr
    /\ effects_hpss audio = Ok (harmonic, percussive)
    /\ nth_error r 1 = Some (std onset_env)
    /\ nth_error r 2 = Some tempo
    /\ nth_error r 4 = Some (std (firstn 100 autocorr))
    /\ nth_error r 5
       = Some (div (mean (map Np.abs harmonic))
                 (add (mean (map Np.abs audio)) (Num ratio_eps))).
Proof.
  intro E. unfold _extract_prosody_features, bind in E.
  set (head := @firstn npfloat 100) in E. run_call.
  do 6 eexists. repeat (split; [ reflexivity | ]). reflexivity.
Qed.

(** X5.  In a successful extraction with 13 cepstral coefficients, the
    seven positions the explainer reads hold the quantities its rules and
    [FEATURE_NAMES] name: 14 the standard deviation of the voiced F0 values
    (0 without a voiced frame), 19 that of the RMS frames, 26 the mean
    spectral flatness, 33 the standard deviation of the onset envelope, 34
    the tempo, 36 the standard deviation of the first 100 autocorrelation
    lags, 37 the harmonic ratio. *)
Theorem explainer_reads_named_features :
  forall features cepstral : list npfloat,
    extract_features self audio = Ok features ->
    _extract_mfcc self audio = Ok cepstral ->
    List.length cepstral = 13%nat ->
    exists f0 flags probs rms_m rms flat_m flatness onset_env tempo beats
           autocorr harmonic percussive,
      pyin audio (note_to_hz "C2") (note_to_hz "C7") (fe_sample_rate self)
      = Ok (f0, flags, probs)
      /\ feature_rms audio (hop_length self) = Ok rms_m
      /\ nth_error rms_m 0 = Some rms
      /\ feature_spectral_flatness audio (hop_length self) = Ok flat_m
      /\ nth_error flat_m 0 = Some flatness
      /\ onset_onset_strength audio (fe_sample_rate self) (hop_length self)
         = Ok onset_env
      /\ beat_beat_track audio (fe_sample_rate self) (hop_length self)
         = Ok (tempo, beats)
      /\ autocorrelate audio = Ok autocorr
      /\ effects_hpss audio = Ok (harmonic, percussive)
      /\ (nth_error FEATURE_NAMES 14 = Some "Pitch Std"
          /\ nth_error features 14
             = Some (match filter (fun x => negb (isnan x)) f0 with
                     | [] => Num 0
                     | voiced => std voiced
                     end))
      /\ (nth_error FEATURE_NAMES 19 = Some "RMS Std"
          /\ nth_error features 19 = Some (std rms))
      /\ (nth_error FEATURE_NAMES 26 = Some "Spectral Flatness Mean"
          /\ nth_error features 26 = Some (mean flatness))
      /\ (nth_error FEATURE_NAMES 33 = Some "Onset Std"
          /\ nth_error features 33 = Some (std onset_env))
      /\ (nth_error FEATURE_NAMES 34 = Some "Tempo"
          /\ nth_error features 34 = Some tempo)
      /\ (nth_error FEATURE_NAMES 36 = Some "Autocorr Std"
          /\ nth_error features 36 = Some (std (firstn 100 autocorr)))
      /\ (nth_error FEATURE_NAMES 37 = Some "Harmonic Ratio"
          /\ nth_error features 37
             = Some (div (mean (map Np.abs harmonic))
                       (add (mean (map Np.abs audio)) (Num ratio_eps)))).
Proof.
  intros features cepstral E Ec Lc.
  destruct (extract_features_families _ _ _ E)
    as (c & p & e & s & r & Ec' & Ep & Ee & Es & Er & ->).
  rewrite Ec in Ec'. injection Ec' as <-.
  destruct (pitch_family _ _ _ Ep) as [Lp _].
  assert (Le : List.length e = 4%nat).
  { clear - Ee. unfold _extract_energy_features, bind in Ee. run_call.
    reflexivity. }
  assert (Ls : List.length s = 10%nat).
  { clear - Es. unfold _extract_spectral_features, bind in Es. run_call.
    reflexivity. }
  destruct (pitch_form p Ep) as (f0 & flags & probs & Py & P1).
  destruct (energy_form e Ee) as (rms_m & rms & Rm & R0 & E1).
  destruct (spectral_form s Es) as (flat_m & flatness & Fm & F0 & S4).
  destruct (prosody_form r Er)
    as (onset_env & tempo & beats & autocorr & harmonic & percussive
        & On & Bt & Ac & Hp & R1 & R2 & R4 & R5).
  exists f0, flags, probs, rms_m, rms, flat_m, flatness, onset_env, tempo,
    beats, autocorr, harmonic, percussive.
  repeat (split; [ assumption | ]).
  repeat split.
  - skip_family Lc. rewrite nth_error_app1 by lia. exact P1.
  - skip_family Lc. skip_family Lp. rewrite nth_error_app1 by lia. exact E1.
  - skip_family Lc. skip_family Lp. skip_family Le.
    rewrite nth_error_app1 by lia. exact S4.
  - skip_family Lc. skip_family Lp. skip_family Le. skip_family Ls. exact R1.
  - skip_family Lc. skip_family Lp. skip_family Le. skip_family Ls. exact R2.
  - skip_family Lc. skip_family Lp. skip_family Le. skip_family Ls. exact R4.
  - skip_family Lc. skip_family Lp. skip_family Le. skip_family Ls. exact R5.
Qed.

End NamedFeatures.

Lemma explainer_reads_named_features_witness :
  exists features,
    @extract_features decimal_sqrt steady_librosa FeatureExtractor_init
      two_samples = Ok features
    /\ nth_error features 34 = Some (Num 120)
    /\ nth_error features 14 = Some (Num (5000000 # 1000000)).
Proof.
  eexists. split; [ vm_compute; reflexivity | ].
  destruct (@explainer_reads_named_features decimal_sqrt steady_librosa
              FeatureExtractor_init two_samples _ _ eq_refl eq_refl eq_refl)
    as (f0 & flags & probs & rms_m & rms & flat_m & flatness & onset_env
        & tempo & beats & autocorr & harmonic & percussive
        & Py & _ & _ & _ & _ & _ & Bt & _ & _ & [_ P14] & _ & _ & _
        & [_ P34] & _).
  cbn in Py. injection Py as <- _ _.
  cbn in Bt. injection Bt as <- _.
  split; [ exact P34 | ].
  refine (eq_trans P14 _). vm_compute. reflexivity.
Defined.

(** ** [predict] and the state of the model object *)

Section PredictState.

Context {D : Disk} {S : Sklearn}.

Lemma predict_loaded (features : list npfloat) (self : VoiceDetectionModel) :
  is_loaded self = true ->
  predict features self
  = (inference (model self) (scaler self) features, self).
Proof.
  intro Ld.
  unfold predict, inference, bindM, try_exceptM, try_except, gets, call, ret,
    raise, bind.
  rewrite Ld. cbn [negb].
  destruct (match scaler self with
            | Some s => transform s [features]
            | None => Ok [features]
            end) as [scaled | e]; [ | reflexivity ].
  destruct (model_predict_proba0 (model self) scaled) as [probs | e];
    [ | reflexivity ].
  destruct (getitem probs 0) as [hp | e]; [ | reflexivity ].
  destruct (getitem probs 1) as [ap | e]; [ | reflexivity ].
  destruct (Np.gt ap hp); reflexivity.
Qed.

Lemma predict_unloaded (features : list npfloat)
  (self loaded : VoiceDetectionModel) :
  is_loaded self = false ->
  load_model self = (Ok tt, loaded) ->
  is_loaded loaded = true ->
  predict features self
  = (inference (model loaded) (scaler loaded) features, loaded).
Proof.
  intros Un Ld Lt. rewrite <- (predict_loaded features loaded Lt).
  unfold predict at 1, bindM at 1 2, gets at 1.
  rewrite Un. cbn [negb]. rewrite Ld.
  unfold predict, bindM, gets. rewrite Lt. reflexivity.
Qed.

Lemma inference_raises (m : option estimator) (sc : option transformer)
  (features : list npfloat) (e : exn) :
  inference m sc features = Raise e ->
  e = Exception "Model prediction error".
Proof.
  unfold inference, try_except.
  destruct (_ <- _ ;; _); intro E; [ discriminate E | now injection E as <- ].
Qed.

Context {SL : SklearnLaws S}.

Lemma load_model_loads (self : VoiceDetectionModel) :
  exists loaded,
    load_model self = (Ok tt, loaded) /\ is_loaded loaded = true.
Proof.
  destruct dummy_training_set_ok as (X & y & E & _ & _).
  destruct MODEL_PATH as [ | | m ] eqn:Em.
  - exists (placeholder X y).
    rewrite (load_model_bootstraps X y self E) by auto. split; reflexivity.
  - exists (placeholder X y).
    rewrite (load_model_bootstraps X y self E) by auto. split; reflexivity.
  - destruct SCALER_PATH as [ | | s ] eqn:Es.
    + eexists. rewrite (load_model_from_disk m self Em) by congruence.
      split; reflexivity.
    + exists (placeholder X y).
      rewrite (load_model_bootstraps X y self E) by auto. split; reflexivity.
    + eexists. rewrite (load_model_from_disk m self Em) by congruence.
      split; reflexivity.
Qed.

End PredictState.

(** X6.  [predict] loads the model on the first call only: a loaded
    object is left exactly as it was, an unloaded one is left as
    [load_model] leaves it; either way the object is loaded afterwards, the
    answer is the one computed from the model and the scaler of that object,
    and no later [predict] changes it again. *)
Theorem predict_loads_once :
  forall {D : Disk} {S : Sklearn} {SL : SklearnLaws S}
         (features : list npfloat) (self : VoiceDetectionModel),
    exists loaded,
      (is_loaded self = true -> loaded = self)
      /\ (is_loaded self = false -> load_model self = (Ok tt, loaded))
      /\ is_loaded loaded = true
      /\ predict features self
         = (inference (model loaded) (scaler loaded) features, loaded)
      /\ forall later, snd (predict later loaded) = loaded.
Proof.
  intros D S SL features self.
  destruct (is_loaded self) eqn:Ld.
  - exists self. repeat split; try congruence.
    + apply predict_loaded. exact Ld.
    + intro later. rewrite (predict_loaded later self Ld). reflexivity.
  - destruct (load_model_loads self) as (loaded & R & Lt).
    exists loaded. repeat split; try congruence.
    + apply predict_unloaded; assumption.
    + intro later. rewrite (predict_loaded later loaded Lt). reflexivity.
Qed.

Lemma predict_loads_once_witness :
  exists loaded,
    @load_model trained_disk constant_sklearn VoiceDetectionModel_init
    = (Ok tt, loaded)
    /\ @predict trained_disk constant_sklearn zero_vector
         VoiceDetectionModel_init
       = (Ok (AI_GENERATED, Num (8 # 10), [Num (2 # 10); Num (8 # 10)]),
          loaded).
Proof.
  destruct (@predict_loads_once trained_disk constant_sklearn
              constant_sklearn_laws zero_vector VoiceDetectionModel_init)
    as (loaded & _ & R & _ & P & _).
  exists loaded. split; [ exact (R eq_refl) | ].
  rewrite P. pose proof (R eq_refl) as R'. vm_compute in R'.
  injection R' as <-. reflexivity.
Defined.

(** X7.  Whatever goes wrong inside [predict] comes out as
    "Model prediction error" and nothing else; in particular a loaded
    object without a model, a scaler that raises, a model that returns no
    row and a model that returns a row of fewer than two probabilities all
    end that way, the object staying as it was. *)
Theorem predict_failures :
  forall {D : Disk} {S : Sklearn} {SL : SklearnLaws S}
         (features : list npfloat) (self : VoiceDetectionModel),
    (forall e self',
        predict features self = (Raise e, self') ->
        e = Exception "Model prediction error")
    /\ (is_loaded self = true ->
        let failed :=
          predict features self
          = (Raise (Exception "Model prediction error"), self) in
        (model self = None -> failed)
        /\ (forall s e, scaler self = Some s ->
                        transform s [features] = Raise e -> failed)
        /\ (forall m, model self = Some m -> scaler self = None ->
                      predict_proba m [features] = Ok [] -> failed)
        /\ (forall m row rest,
               model self = Some m -> scaler self = None ->
               predict_proba m [features] = Ok (row :: rest) ->
               (List.length row < 2)%nat -> failed)).
Proof.
  intros D S SL features self. split.
  - intros e self' E.
    destruct (predict_loads_once features self) as (loaded & _ & _ & _ & P & _).
    rewrite P in E. injection E as E _.
    exact (inference_raises _ _ _ _ E).
  - intros Ld failed. unfold failed.
    rewrite (predict_loaded features self Ld).
    repeat split.
    + intro Em. rewrite Em. unfold inference.
      destruct (scaler self) as [s | ]; [ | reflexivity ].
      destruct (transform s [features]); reflexivity.
    + intros s e Es Et. rewrite Es. unfold inference. rewrite Et.
      reflexivity.
    + intros m Em Es Ep. rewrite Em, Es. unfold inference.
      cbn [bind model_predict_proba0]. rewrite Ep. reflexivity.
    + intros m row rest Em Es Ep Len. rewrite Em, Es. unfold inference.
      cbn [bind model_predict_proba0]. rewrite Ep.
      cbn [bind getitem nth_error].
      destruct row as [ | a [ | b row ] ]; cbn in Len; try lia; reflexivity.
Qed.

Lemma predict_failures_witness :
  @predict empty_disk constant_sklearn zero_vector one_class_object
  = (Raise (Exception "Model prediction error"), one_class_object).
Proof.
  refine (proj2 (proj2 (proj2 (proj2
    (@predict_failures empty_disk constant_sklearn constant_sklearn_laws
       zero_vector one_class_object) eq_refl))) one_class_model [Num 1] []
    eq_refl eq_refl eq_refl _).
  cbn. lia.
Defined.

(** ** Saving and loading again *)

(** X8.  A loaded object that is saved and loaded again on a fresh object
    comes back with the same model and the same scaler, provided that a
    scaler was saved or none lay on disk before; the weighting is the
    model's own, and [predict] answers as it did on the saved object. *)
Theorem save_then_load_round_trip :
  forall {D : Disk} {S : Sklearn} (self : VoiceDetectionModel)
         (m : estimator),
    model self = Some m ->
    is_loaded self = true ->
    (scaler self = None -> SCALER_PATH = Missing) ->
    exists (saved : Disk) (reloaded : VoiceDetectionModel),
      saved = @save_model D self
      /\ @load_model saved S VoiceDetectionModel_init = (Ok tt, reloaded)
      /\ model reloaded = Some m
      /\ scaler reloaded = scaler self
      /\ feature_importance reloaded = feature_importances_ m
      /\ is_loaded reloaded = true
      /\ forall features,
          fst (@predict saved S features reloaded)
          = fst (@predict D S features self).
Proof.
  intros D S self m Em Ld Es.
  set (saved := @save_model D self).
  exists saved. eexists. split; [ reflexivity | ].
  assert (Md : @MODEL_PATH saved = Stored (Some m)).
  { cbn. rewrite Em. reflexivity. }
  assert (Sc : @SCALER_PATH saved <> Corrupt).
  { cbn. destruct (scaler self); [ discriminate | ].
    rewrite Es by reflexivity. discriminate. }
  rewrite (@load_model_from_disk saved S (Some m) VoiceDetectionModel_init
             Md Sc).
  split; [ reflexivity | ].
  cbn [model scaler feature_importance is_loaded VoiceDetectionModel_init
       getattr_feature_importances_].
  assert (Same : match @SCALER_PATH saved with
                 | Stored s => s
                 | _ => None
                 end = scaler self).
  { cbn. destruct (scaler self); [ reflexivity | ].
    rewrite Es by reflexivity. reflexivity. }
  rewrite Same.
  repeat split.
  - destruct (feature_importances_ m); reflexivity.
  - intro features.
    rewrite (@predict_loaded saved S features) by reflexivity.
    rewrite (@predict_loaded D S features self Ld).
    cbn [fst model scaler]. rewrite Em. reflexivity.
Qed.

(** An object with the stored forest and the doubling scaler. *)
Lemma save_then_load_round_trip_witness :
  exists saved reloaded,
    @save_model empty_disk
      {| model := Some (estimator_of_forest small_forest);
         scaler := Some doubling_scaler;
         feature_importance := None; is_loaded := true |} = saved
    /\ @load_model saved constant_sklearn VoiceDetectionModel_init
       = (Ok tt, reloaded)
    /\ scaler reloaded = Some doubling_scaler
    /\ feature_importance reloaded
       = Some [Num (1 # 10); Num (6 # 10); Num (3 # 10)].
Proof.
  destruct (@save_then_load_round_trip empty_disk constant_sklearn
              {| model := Some (estimator_of_forest small_forest);
                 scaler := Some doubling_scaler;
                 feature_importance := None; is_loaded := true |}
              (estimator_of_forest small_forest) eq_refl eq_refl)
    as (saved & reloaded & Sv & R & _ & Sc & W & _).
  - discriminate.
  - exists saved, reloaded. split; [ symmetry; exact Sv | ].
    split; [ exact R | ]. split; [ exact Sc | exact W ].
Defined.

(** X9.  [save_model] writes no scaler file for an object without a
    scaler and leaves an older one in place: loading again then attaches
    that older scaler, and [predict] runs the saved model behind it; if the
    older file does not deserialize, the saved model is not loaded at all
    and the placeholder takes its place. *)
Theorem save_keeps_stale_scaler :
  forall {D : Disk} {S : Sklearn} {SL : SklearnLaws S}
         (self : VoiceDetectionModel) (m : estimator),
    model self = Some m ->
    scaler self = None ->
    exists saved : Disk,
      saved = @save_model D self
      /\ @SCALER_PATH saved = @SCALER_PATH D
      /\ (forall old,
             @SCALER_PATH D = Stored old ->
             exists reloaded,
               @load_model saved S VoiceDetectionModel_init
               = (Ok tt, reloaded)
               /\ model reloaded = Some m
               /\ scaler reloaded = old
               /\ forall features,
                   fst (@predict saved S features reloaded)
                   = inference (Some m) old features)
      /\ (@SCALER_PATH D = Corrupt ->
          exists X y,
            dummy_training_set = Ok (X, y)
            /\ @load_model saved S VoiceDetectionModel_init
               = (Ok tt, placeholder X y)).
Proof.
  intros D S SL self m Em Es.
  set (saved := @save_model D self).
  assert (Md : @MODEL_PATH saved = Stored (Some m)).
  { cbn. rewrite Em. reflexivity. }
  assert (Sd : @SCALER_PATH saved = @SCALER_PATH D).
  { cbn. rewrite Es. reflexivity. }
  exists saved. split; [ reflexivity | ]. split; [ exact Sd | ].
  split.
  - intros old Eo.
    assert (Sc : @SCALER_PATH saved <> Corrupt).
    { rewrite Sd, Eo. discriminate. }
    eexists.
    rewrite (@load_model_from_disk saved S (Some m) VoiceDetectionModel_init
               Md Sc).
    split; [ reflexivity | ].
    cbn [model scaler]. rewrite Sd, Eo.
    repeat split.
    intro features.
    rewrite (@predict_loaded saved S features) by reflexivity.
    reflexivity.
  - intro Ec.
    destruct dummy_training_set_ok as (X & y & E & _ & _).
    exists X, y. split; [ exact E | ].
    apply (@load_model_bootstraps saved S X y _ E).
    right. right. rewrite Sd. exact Ec.
Qed.

Lemma save_keeps_stale_scaler_witness :
  exists saved reloaded,
    @save_model scaler_only_disk
      {| model := Some (estimator_of_forest small_forest); scaler := None;
         feature_importance := None; is_loaded := true |} = saved
    /\ @load_model saved constant_sklearn VoiceDetectionModel_init
       = (Ok tt, reloaded)
    /\ scaler reloaded = Some doubling_scaler.
Proof.
  destruct (@save_keeps_stale_scaler scaler_only_disk constant_sklearn
              constant_sklearn_laws
              {| model := Some (estimator_of_forest small_forest);
                 scaler := None;
                 feature_importance := None; is_loaded := true |}
              (estimator_of_forest small_forest) eq_refl eq_refl)
    as (saved & Sv & _ & Stale & _).
  destruct (Stale (Some doubling_scaler) eq_refl)
    as (reloaded & R & _ & Sc & _).
  exists saved, reloaded. split; [ symmetry; exact Sv | ].
  split; [ exact R | exact Sc ].
Defined.

(** X10.  Loading twice is loading once: on an unchanged disk a second
    [load_model] returns and leaves the object as the first one did. *)
Theorem load_model_idempotent :
  forall {D : Disk} {S : Sklearn} {SL : SklearnLaws S}
         (self : VoiceDetectionModel),
    exists loaded,
      load_model self = (Ok tt, loaded)
      /\ load_model loaded = (Ok tt, loaded).
Proof.
  intros D S SL self.
  destruct dummy_training_set_ok as (X & y & E & _ & _).
  assert (Boot : forall o, MODEL_PATH = Missing \/ MODEL_PATH = Corrupt
                           \/ SCALER_PATH = Corrupt ->
                           load_model o = (Ok tt, placeholder X y)).
  { intros o W. exact (load_model_bootstraps X y o E W). }
  destruct MODEL_PATH as [ | | m ] eqn:Em.
  - exists (placeholder X y). split; apply Boot; auto.
  - exists (placeholder X y). split; apply Boot; auto.
  - destruct SCALER_PATH as [ | | s ] eqn:Es.
    + eexists. split.
      * rewrite (load_model_from_disk m self Em) by congruence. reflexivity.
      * rewrite (load_model_from_disk m _ Em) by congruence.
        rewrite Es. cbn [scaler feature_importance].
        destruct (getattr_feature_importances_ m); reflexivity.
    + exists (placeholder X y). split; apply Boot; auto.
    + eexists. split.
      * rewrite (load_model_from_disk m self Em) by congruence. reflexivity.
      * rewrite (load_model_from_disk m _ Em) by congruence.
        rewrite Es. cbn [scaler feature_importance].
        destruct (getattr_feature_importances_ m); reflexivity.
Qed.

Lemma load_model_idempotent_witness :
  exists loaded,
    @load_model trained_disk constant_sklearn VoiceDetectionModel_init
    = (Ok tt, loaded)
    /\ @load_model trained_disk constant_sklearn loaded = (Ok tt, loaded).
Proof.
  exact (@load_model_idempotent trained_disk constant_sklearn
           constant_sklearn_laws VoiceDetectionModel_init).
Defined.

(** ** [get_top_features] for every [n_top] *)

Lemma slice_from_incl {A} (start : Z) (xs : list A) (x : A) :
  In x (slice_from start xs) -> In x xs.
Proof.
  unfold slice_from. intro I.
  rewrite <- (firstn_skipn
                (Z.to_nat (if (start <? 0)%Z
                           then Z.max (start + Z.of_nat (List.length xs)) 0
                           else Z.min start (Z.of_nat (List.length xs)))) xs).
  apply in_or_app. right. exact I.
Qed.

Lemma get_top_features_any {A : Argsort} {AL : ArgsortLaws A}
  (self : VoiceDetectionModel) (features importance : list npfloat)
  (n_top : Z) :
  feature_importance self = Some importance ->
  (List.length importance <= List.length features)%nat ->
  exists top,
    get_top_features self features n_top = Ok top
    /\ map index_of top = rev (slice_from (- n_top) (argsort importance))
    /\ Forall (paired features importance) top.
Proof.
  intros E Len. unfold get_top_features. rewrite E.
  apply comprehension_paired.
  apply Forall_forall. intros i I.
  apply in_rev, slice_from_incl in I.
  apply (argsort_in importance) in I. lia.
Qed.

(** X11.  [get_top_features] outside [n_top >= 1], on a vector at least
    as long as the weighting: with [n_top = 0] it returns every feature and
    not none, as with any [n_top] of at least the number of weights; with a
    negative [n_top = -k] it drops the [k] least important features and
    returns the others. *)
Theorem get_top_features_other_n :
  forall {A : Argsort} {AL : ArgsortLaws A} (self : VoiceDetectionModel)
         (features importance : list npfloat) (n_top : Z),
    feature_importance self = Some importance ->
    (List.length importance <= List.length features)%nat ->
    exists top,
      get_top_features self features n_top = Ok top
      /\ Forall (paired features importance) top
      /\ (n_top = 0%Z \/ (Z.of_nat (List.length importance) <= n_top)%Z ->
          Permutation (map index_of top) (seq 0 (List.length importance)))
      /\ ((n_top < 0)%Z ->
          map index_of top
          = rev (skipn (Z.to_nat (- n_top)) (argsort importance))
          /\ List.length top
             = (List.length importance - Z.to_nat (- n_top))%nat).
Proof.
  intros A AL self features importance n_top E Len.
  destruct (get_top_features_any self features importance n_top E Len)
    as (top & R & Ix & P).
  exists top. split; [ exact R | ]. split; [ exact P | ].
  pose proof (argsort_length importance) as La.
  split.
  - intro W. rewrite Ix.
    assert (Whole : slice_from (- n_top) (argsort importance)
                    = argsort importance).
    { unfold slice_from. rewrite La.
      destruct W as [-> | G].
      - cbn [Z.opp Z.ltb Z.compare]. rewrite Z.min_l by lia. reflexivity.
      - destruct (Z.ltb_spec (- n_top) 0) as [_ | B].
        + rewrite Z.max_r by lia. reflexivity.
        + rewrite Z.min_l by lia.
          replace (Z.to_nat (- n_top)) with 0%nat by lia. reflexivity. }
    rewrite Whole.
    apply Permutation_trans with (argsort importance).
    + apply Permutation_sym, Permutation_rev.
    + apply argsort_perm.
  - intro Neg.
    assert (Sl : slice_from (- n_top) (argsort importance)
                 = skipn (Z.to_nat (- n_top)) (argsort importance)).
    { unfold slice_from. rewrite La.
      destruct (Z.ltb_spec (- n_top) 0) as [B | _]; [ lia | ].
      destruct (Z.le_gt_cases (- n_top) (Z.of_nat (List.length importance)))
        as [Le | Gt].
      - rewrite Z.min_l by lia. reflexivity.
      - rewrite Z.min_r by lia. rewrite Nat2Z.id.
        rewrite <- La. rewrite skipn_all.
        symmetry. apply skipn_all2. lia. }
    split.
    + rewrite Ix, Sl. reflexivity.
    + rewrite <- (length_map index_of), Ix, Sl, length_rev, length_skipn, La.
      reflexivity.
Qed.

Lemma get_top_features_other_n_witness :
  exists top,
    @get_top_features insertion_argsort
      (with_importance (Some [Num (1 # 10); Num (6 # 10); Num (3 # 10)]))
      [Num 7; Num 8; Num 9] (-1) = Ok top
    /\ map index_of top = [1; 2]%nat.
Proof.
  destruct (@get_top_features_other_n insertion_argsort
              insertion_argsort_laws
              (with_importance
                 (Some [Num (1 # 10); Num (6 # 10); Num (3 # 10)]))
              [Num 7; Num 8; Num 9]
              [Num (1 # 10); Num (6 # 10); Num (3 # 10)] (-1) eq_refl
              (le_n 3))
    as (top & R & _ & _ & Neg).
  exists top. split; [ exact R | ].
  exact (proj1 (Neg eq_refl)).
Defined.

(** ** [get_detailed_analysis] *)


Lemma contributing_features_named (top : list (nat * npfloat * npfloat)) :
  Forall (fun t => (index_of t < 39)%nat) top ->
  exists entries,
    comprehension contributing_feature top = Ok entries
    /\ Forall2 entry_of top entries.
Proof.
  induction 1 as [ | [[idx val] imp] top Hi _ (entries & E & F) ];
    cbn [comprehension].
  - exists []. split; [ reflexivity | constructor ].
  - cbn [index_of fst] in Hi.
    assert (N : nth_error FEATURE_NAMES idx <> None).
    { apply nth_error_Some. exact Hi. }
    unfold contributing_feature at 1, getitem.
    destruct (nth_error FEATURE_NAMES idx) as [name | ] eqn:En;
      [ | congruence ].
    cbn [bind]. rewrite E. cbn [bind].
    eexists. split; [ reflexivity | ].
    constructor; [ | exact F ].
    exists name. split; [ exact En | reflexivity ].
Qed.

Lemma analysis_of_triples (features : list npfloat)
  (top : list (nat * npfloat * npfloat)) :
  List.length features = 39%nat ->
  Forall (fun t => (index_of t < 39)%nat) top ->
  exists d,
    get_detailed_analysis features (Some top) = Ok d
    /\ dict_get d "pitch_analysis" <> None
    /\ dict_get d "energy_analysis" <> None
    /\ dict_get d "spectral_analysis" <> None
    /\ dict_get d "prosody_analysis" <> None
    /\ (top = [] -> dict_get d "top_contributing_features" = None)
    /\ (top <> [] ->
        exists entries,
          dict_get d "top_contributing_features" = Some (PyList entries)
          /\ Forall2 entry_of top entries).
Proof.
  intros L F. explode_vector features.
  unfold get_detailed_analysis. cbn [getitem nth_error bind].
  destruct top as [ | t top ].
  - eexists. split; [ reflexivity | ].
    repeat split; try discriminate. congruence.
  - destruct (contributing_features_named (t :: top) F) as (entries & E & R).
    rewrite E. cbn [bind].
    eexists. split; [ reflexivity | ].
    repeat split; try discriminate.
    intros _. exists entries. split; [ reflexivity | exact R ].
Qed.

(** X12.  The analysis of the triples [get_top_features] returns never
    fails on a 39-element vector and a weighting of at most 39 weights: it
    holds the four fixed sections and, when there is a weight at all, a list
    with one entry per triple, in the same order, each naming its feature by
    [FEATURE_NAMES] and carrying the triple's value and importance; without
    any weight the list is left out. *)
Theorem detailed_analysis_of_top_features :
  forall {A : Argsort} {AL : ArgsortLaws A} (self : VoiceDetectionModel)
         (features importance : list npfloat) (n_top : Z),
    feature_importance self = Some importance ->
    (0 < n_top)%Z ->
    List.length features = 39%nat ->
    (List.length importance <= 39)%nat ->
    exists top d,
      get_top_features self features n_top = Ok top
      /\ get_detailed_analysis features (Some top) = Ok d
      /\ dict_get d "pitch_analysis" <> None
      /\ dict_get d "energy_analysis" <> None
      /\ dict_get d "spectral_analysis" <> None
      /\ dict_get d "prosody_analysis" <> None
      /\ (importance = [] ->
          dict_get d "top_contributing_features" = None)
      /\ (importance <> [] ->
          exists entries,
            dict_get d "top_contributing_features" = Some (PyList entries)
            /\ List.length entries
               = Nat.min (Z.to_nat n_top) (List.length importance)
            /\ Forall2 entry_of top entries).
Proof.
  intros A AL self features importance n_top E P Lf Li.
  destruct (get_top_features_indices self features importance n_top E P)
    as (top & R & Ix & _); [ lia | ].
  assert (Lt : List.length top
               = Nat.min (Z.to_nat n_top) (List.length importance)).
  { rewrite <- (length_map index_of), Ix. apply last_reversed_length. }
  assert (F : Forall (fun t => (index_of t < 39)%nat) top).
  { apply Forall_forall. intros t It.
    pose proof (in_map index_of top t It) as I. rewrite Ix in I.
    pose proof (last_reversed_in importance _ _ I). lia. }
  destruct (analysis_of_triples features top Lf F)
    as (d & Ed & K1 & K2 & K3 & K4 & Empty & Full).
  exists top, d.
  repeat (split; [ assumption | ]).
  split.
  - intros ->. apply Empty. cbn in Lt. rewrite Nat.min_0_r in Lt.
    destruct top; [ reflexivity | discriminate Lt ].
  - intro N. destruct Full as (entries & Eg & Fe).
    + intros ->. cbn in Lt. destruct importance; [ congruence | ].
      cbn in Lt. lia.
    + exists entries. split; [ exact Eg | ]. split; [ | exact Fe ].
      rewrite <- (Forall2_length Fe). exact Lt.
Qed.

Lemma detailed_analysis_of_top_features_witness :
  exists top d,
    @get_top_features insertion_argsort
      (with_importance (Some [Num (1 # 10); Num (6 # 10); Num (3 # 10)]))
      zero_vector 2 = Ok top
    /\ get_detailed_analysis zero_vector (Some top) = Ok d
    /\ dict_get d "top_contributing_features"
       = Some (PyList
                 [PyDict [("name", PyStr "MFCC-2"); ("value", PyFloat (Num 0));
                          ("importance", PyFloat (Num (6 # 10)))];
                  PyDict [("name", PyStr "MFCC-3"); ("value", PyFloat (Num 0));
                          ("importance", PyFloat (Num (3 # 10)))]]).
Proof.
  destruct (@detailed_analysis_of_top_features insertion_argsort
              insertion_argsort_laws
              (with_importance
                 (Some [Num (1 # 10); Num (6 # 10); Num (3 # 10)]))
              zero_vector [Num (1 # 10); Num (6 # 10); Num (3 # 10)] 2
              eq_refl eq_refl eq_refl)
    as (top & d & R & Ed & _).
  - cbn. lia.
  - exists top, d. split; [ exact R | ]. split; [ exact Ed | ].
    vm_compute in R. injection R as <-.
    vm_compute in Ed. injection Ed as <-. reflexivity.
Defined.

(** X13.  [get_detailed_analysis] reads positions up to 37 and looks every
    index up in the 39 names: on a vector of fewer than 38 elements it
    raises [IndexError] whatever the triples, and on a 39-element vector it
    raises [IndexError] as soon as a triple carries an index of 39 or
    more. *)
Theorem detailed_analysis_index_errors :
  forall (features : list npfloat) (top_features : top_features_t),
    ((List.length features < 38)%nat ->
     get_detailed_analysis features top_features = Raise IndexError)
    /\ (List.length features = 39%nat ->
        forall top,
          top_features = Some top ->
          Exists (fun t => (39 <= index_of t)%nat) top ->
          get_detailed_analysis features top_features = Raise IndexError).
Proof.
  intros features top_features. split.
  - intro L. unfold get_detailed_analysis.
    assert (N : nth_error features 37 = None)
      by (apply nth_error_None; lia).
    unfold getitem.
    repeat match goal with
           | |- context [nth_error features ?i] =>
               lazymatch i with
               | 37%nat => fail
               | _ => destruct (nth_error features i); cbn [bind];
                      [ | reflexivity ]
               end
           end.
    rewrite N. reflexivity.
  - intros L top -> Ex. explode_vector features.
    unfold get_detailed_analysis. cbn [getitem nth_error bind].
    destruct top as [ | t top ]; [ inversion Ex | ].
    assert (Fail : comprehension contributing_feature (t :: top)
                   = Raise IndexError).
    { clear - Ex.
      induction Ex as [ [[idx val] imp] rest Hi
                      | [[idx val] imp] rest _ IH ];
        cbn [comprehension].
      - cbn [index_of fst] in Hi.
        unfold contributing_feature at 1, getitem.
        rewrite (proj2 (nth_error_None FEATURE_NAMES idx)) by (cbn; lia).
        reflexivity.
      - unfold contributing_feature at 1, getitem.
        destruct (nth_error FEATURE_NAMES idx); [ | reflexivity ].
        cbn [bind]. rewrite IH. reflexivity. }
    rewrite Fail. reflexivity.
Qed.

(** ** The request handler *)

Lemma generate_explanation_nonempty (label : string) (confidence : npfloat)
  (features : list npfloat) (tf : top_features_t) (s : string) :
  generate_explanation label confidence features tf = Ok s -> s <> "".
Proof.
  rewrite generate_explanation_unfold.
  destruct (explanation_attempt label confidence features tf) as [s' | e] eqn:E;
    intro R; injection R as <-.
  - unfold explanation_attempt in E.
    destruct (String.eqb label "AI_GENERATED").
    + exact (explain_ai_nonempty _ _ _ _ E).
    + exact (explain_human_nonempty _ _ _ _ E).
  - discriminate.
Qed.

Lemma response_validated (st lang label : string) (score : npfloat)
  (text : string) (r : VoiceDetectionResponse) :
  VoiceDetectionResponse_init st lang label score text = Ok r ->
  r = {| status := st; response_language := lang; classification := label;
         confidenceScore := score; explanation := text |}
  /\ (label = AI_GENERATED \/ label = HUMAN)
  /\ exists c, score = Num c /\ 0 <= c <= 1.
Proof.
  unfold VoiceDetectionResponse_init.
  destruct (_ && _ && _) eqn:B; intro E; [ | discriminate E ].
  injection E as <-. split; [ reflexivity | ].
  apply andb_prop in B. destruct B as [B Bu].
  apply andb_prop in B. destruct B as [_ Bl].
  split.
  - apply orb_prop in Bl. destruct Bl as [Bl | Bl];
      apply String.eqb_eq in Bl; auto.
  - destruct score as [c | ]; [ | discriminate Bu ].
    exists c. split; [ reflexivity | ].
    cbn in Bu. apply andb_prop in Bu. destruct Bu as [B0 B1].
    split; apply Qle_bool_iff; assumption.
Qed.

Lemma decode_base64_audio_raises {B : Base64} (s : string) (e : exn) :
  decode_base64_audio s = Raise e ->
  e = ValueError "Failed to decode base64 audio".
Proof.
  unfold decode_base64_audio, try_except.
  destruct (_ <- _ ;; _); intro E; [ discriminate E | now injection E as <- ].
Qed.

Section EndpointProperties.

Context {St : Settings} {B : Base64} {Dc : Decoder} {M : Libm} {L : Librosa}.
Context {D : Disk} {S : Sklearn} {A : Argsort}.

(** X14.  Whatever the request and the state of the model object,
    [detect_voice] either raises an [HTTPException] with status 400 or 500,
    or returns a response with status "success", the request's language,
    one of the two labels, a confidence score between 0 and 1 and an
    explanation that is not empty. *)
Theorem detect_voice_answers :
  forall (request : VoiceDetectionRequest) (voice_model : VoiceDetectionModel),
    match fst (detect_voice request voice_model) with
    | Responded r =>
        status r = "success"
        /\ response_language r = language request
        /\ (classification r = AI_GENERATED \/ classification r = HUMAN)
        /\ (exists c, confidenceScore r = Num c /\ 0 <= c <= 1)
        /\ explanation r <> ""
    | HTTPException status_code _ =>
        status_code = 400%nat \/ status_code = 500%nat
    end.
Proof.
  intros request vm. unfold detect_voice, detect_voice_body.
  destruct (decode_base64_audio (audio_base64 request)) as [bytes | e].
  2:{ destruct e; cbn; auto. }
  destruct (_ <? _)%Z; [ cbn; auto | ].
  destruct (process_and_validate bytes) as [a | e]; [ | cbn; auto ].
  destruct (extract_features feature_extractor (ravel a)) as [f | e];
    [ | cbn; auto ].
  destruct (predict f vm) as [[[[label conf] probs] | e] vm'];
    [ | cbn; auto ].
  destruct (get_top_features vm' f 5) as [top | e]; [ | cbn; auto ].
  destruct (generate_explanation label conf f (Some top)) as [text | e] eqn:G;
    [ | cbn; auto ].
  destruct (VoiceDetectionResponse_init "success" (language request) label
              (round4 conf) text) as [r | e] eqn:V; [ | cbn; auto ].
  cbn [fst].
  destruct (response_validated _ _ _ _ _ _ V) as (-> & Lb & Sc).
  cbn [status response_language classification confidenceScore explanation].
  repeat split; try assumption.
  exact (generate_explanation_nonempty _ _ _ _ _ G).
Qed.

(** X15.  Which stage fails decides the status, and an early failure
    leaves the model object alone: a payload that does not decode, a decoded
    payload above the size limit, and audio that cannot be processed or
    lasts less than 0.5 s or more than 30 s are answered with 400 before the
    model is touched; a failed feature extraction is answered with 500, the
    model untouched as well; a failed prediction is answered with 500. *)
Theorem detect_voice_failures :
  forall (request : VoiceDetectionRequest) (voice_model : VoiceDetectionModel),
    (forall e,
        decode_base64_audio (audio_base64 request) = Raise e ->
        detect_voice request voice_model
        = (HTTPException 400 "Failed to decode base64 audio", voice_model))
    /\ (forall audio_bytes,
           decode_base64_audio (audio_base64 request) = Ok audio_bytes ->
           (MAX_AUDIO_SIZE_BYTES < Z.of_nat (List.length audio_bytes))%Z ->
           detect_voice request voice_model
           = (HTTPException 400 "Audio file too large", voice_model))
    /\ (forall audio_bytes,
           decode_base64_audio (audio_base64 request) = Ok audio_bytes ->
           (Z.of_nat (List.length audio_bytes) <= MAX_AUDIO_SIZE_BYTES)%Z ->
           (forall e,
               process_and_validate audio_bytes = Raise e ->
               detect_voice request voice_model
               = (HTTPException 400 "Audio processing failed", voice_model))
           /\ (forall xs,
                  librosa_load audio_bytes config.SAMPLE_RATE = Ok xs ->
                  (Z.of_nat (List.length xs) < 11025
                   \/ 661500 < Z.of_nat (List.length xs))%Z ->
                  detect_voice request voice_model
                  = (HTTPException 400 "Audio processing failed",
                     voice_model))
           /\ (forall audio_array,
                  process_and_validate audio_bytes = Ok audio_array ->
                  (forall e,
                      extract_features feature_extractor (ravel audio_array)
                      = Raise e ->
                      detect_voice request voice_model
                      = (HTTPException 500 "Feature extraction failed",
                         voice_model))
                  /\ (forall features e voice_model',
                         extract_features feature_extractor
                           (ravel audio_array) = Ok features ->
                         predict features voice_model
                         = (Raise e, voice_model') ->
                         detect_voice request voice_model
                         = (HTTPException 500 "Model prediction failed",
                            voice_model')))).
Proof.
  intros request vm. split; [ | split ].
  - intros e E. unfold detect_voice, detect_voice_body.
    rewrite E, (decode_base64_audio_raises _ _ E). reflexivity.
  - intros bytes E G. unfold detect_voice, detect_voice_body. rewrite E.
    rewrite (proj2 (Z.ltb_lt _ _) G). reflexivity.
  - intros bytes E G.
    assert (Sz : (MAX_AUDIO_SIZE_BYTES <? Z.of_nat (List.length bytes))%Z
                 = false) by (apply Z.ltb_ge; exact G).
    assert (Bad : forall e,
               process_and_validate bytes = Raise e ->
               detect_voice request vm
               = (HTTPException 400 "Audio processing failed", vm)).
    { intros e P. unfold detect_voice, detect_voice_body.
      rewrite E, Sz, P. reflexivity. }
    split; [ exact Bad | ]. split.
    + intros xs Ld Len.
      assert (P : exists e, process_and_validate bytes = Raise e).
      { unfold process_and_validate, audio_processor.
        destruct xs as [ | x xs ].
        - rewrite (proj1 (proj2 (process_audio_outcome AudioProcessor_init
                                   bytes)) Ld).
          eexists. reflexivity.
        - destruct (proj1 (proj2 (proj2 (process_audio_outcome
                      AudioProcessor_init bytes))) (x :: xs) Ld)
            as (ys & R & Ly); [ discriminate | ].
          rewrite R. cbn [bind].
          pose proof (validate_audio_duration_in_samples (Arr1 ys))
            as (_ & Short & Long).
          cbv zeta in Short, Long. cbn [len] in Short, Long.
          rewrite Ly in Short, Long.
          destruct Len as [Len | Len].
          + rewrite (proj2 Short Len). eexists. reflexivity.
          + rewrite (proj2 Long Len). eexists. reflexivity. }
      destruct P as [e P]. exact (Bad e P).
    + intros a P. split.
      * intros e X. unfold detect_voice, detect_voice_body.
        rewrite E, Sz, P, X. reflexivity.
      * intros f e vm' X Pr. unfold detect_voice, detect_voice_body.
        rewrite E, Sz, P, X, Pr. reflexivity.
Qed.

(** X16.  A request never changes a model object that is loaded: after
    [detect_voice], successful or not, the object is the one before. *)
Theorem detect_voice_keeps_loaded_model :
  forall (request : VoiceDetectionRequest) (voice_model : VoiceDetectionModel),
    is_loaded voice_model = true ->
    snd (detect_voice request voice_model) = voice_model.
Proof.
  intros request vm Ld. unfold detect_voice, detect_voice_body.
  destruct (decode_base64_audio (audio_base64 request)) as [bytes | e].
  2:{ destruct e; reflexivity. }
  destruct (_ <? _)%Z; [ reflexivity | ].
  destruct (process_and_validate bytes) as [a | e]; [ | reflexivity ].
  destruct (extract_features feature_extractor (ravel a)) as [f | e];
    [ | reflexivity ].
  rewrite (predict_loaded f vm Ld).
  destruct (inference (model vm) (scaler vm) f) as [[[label conf] probs] | e];
    [ | reflexivity ].
  destruct (get_top_features vm f 5) as [top | e]; [ | reflexivity ].
  destruct (generate_explanation label conf f (Some top)) as [text | e];
    [ | reflexivity ].
  destruct (VoiceDetectionResponse_init "success" (language request) label
              (round4 conf) text) as [r | e]; reflexivity.
Qed.

End EndpointProperties.

(** A request whose payload is four characters of the alphabet, and a
    loaded object holding the stored forest. *)
Lemma detect_voice_keeps_loaded_model_witness :
  @detect_voice demo_settings bytewise_codec one_second_decoder decimal_sqrt
    steady_librosa empty_disk constant_sklearn insertion_argsort
    {| audio_base64 := "QUJD"; language := "Tamil" |}
    (placeholder [] [])
  = (Responded
       {| status := "success";
          response_language := "Tamil";
          classification := "HUMAN";
          confidenceScore := Num (5000 # 10000);
          explanation :=
            "Moderate indicators of human voice: rich spectral complexity, "
            ++ "natural energy fluctuations, organic speech rhythm" |},
     placeholder [] []).
Proof.
  assert (R : fst (@detect_voice demo_settings bytewise_codec
                     one_second_decoder decimal_sqrt steady_librosa empty_disk
                     constant_sklearn insertion_argsort
                     {| audio_base64 := "QUJD"; language := "Tamil" |}
                     (placeholder [] []))
              = Responded
                  {| status := "success";
                     response_language := "Tamil";
                     classification := "HUMAN";
                     confidenceScore := Num (5000 # 10000);
                     explanation :=
                       "Moderate indicators of human voice: rich spectral complexity, "
                       ++ "natural energy fluctuations, organic speech rhythm" |}).
  { vm_compute. reflexivity. }
  pose proof (@detect_voice_keeps_loaded_model demo_settings bytewise_codec
                one_second_decoder decimal_sqrt steady_librosa empty_disk
                constant_sklearn insertion_argsort
                {| audio_base64 := "QUJD"; language := "Tamil" |}
                (placeholder [] []) eq_refl) as K.
  destruct (detect_voice _ _) as [r vm]. cbn [fst snd] in R, K.
  rewrite R, K. reflexivity.
Defined.

(** X17.  Every error the handler raises reaches the client with its
    status code and a body of three keys: "status" is "error", and "error"
    and "detail" both carry the message, which is never empty. *)
Theorem detect_voice_error_body :
  forall {St : Settings} {B : Base64} {Dc : Decoder} {M : Libm}
         {L : Librosa} {D : Disk} {S : Sklearn} {A : Argsort}
         (request : VoiceDetectionRequest) (voice_model : VoiceDetectionModel)
         (status_code : nat) (detail : string),
    fst (detect_voice request voice_model) = HTTPException status_code detail ->
    let '(code, body) := http_exception_handler status_code detail in
    code = status_code
    /\ dict_get body "status" = Some "error"
    /\ dict_get body "error" = Some detail
    /\ dict_get body "detail" = Some detail
    /\ detail <> "".
Proof.
  intros St B Dc M L D S A request vm code detail.
  unfold detect_voice, detect_voice_body.
  assert (Body : forall c d,
             d <> "" ->
             (@HTTPException VoiceDetectionResponse c d
              = HTTPException code detail) ->
             let '(code', body) := http_exception_handler code detail in
             code' = code
             /\ dict_get body "status" = Some "error"
             /\ dict_get body "error" = Some detail
             /\ dict_get body "detail" = Some detail
             /\ detail <> "").
  { intros c d N E. injection E as -> ->.
    unfold http_exception_handler, create_error_response.
    destruct detail as [ | ch rest ]; [ congruence | ].
    cbn [app dict_get String.eqb Ascii.eqb Bool.eqb].
    repeat split. exact N. }
  destruct (decode_base64_audio (audio_base64 request)) as [bytes | e] eqn:Dd.
  2:{ rewrite (decode_base64_audio_raises _ _ Dd). cbn [fst].
      apply Body. discriminate. }
  destruct (_ <? _)%Z; [ cbn [fst]; apply Body; discriminate | ].
  destruct (process_and_validate bytes) as [a | e];
    [ | cbn [fst]; apply Body; discriminate ].
  destruct (extract_features feature_extractor (ravel a)) as [f | e];
    [ | cbn [fst]; apply Body; discriminate ].
  destruct (predict f vm) as [[[[label conf] probs] | e] vm'];
    [ | cbn [fst]; apply Body; discriminate ].
  destruct (get_top_features vm' f 5) as [top | e];
    [ | cbn [fst]; apply Body; discriminate ].
  destruct (generate_explanation label conf f (Some top)) as [text | e];
    [ | cbn [fst]; apply Body; discriminate ].
  destruct (VoiceDetectionResponse_init "success" (language request) label
              (round4 conf) text) as [r | e];
    [ discriminate | cbn [fst]; apply Body; discriminate ].
Qed.

(** A payload with a character outside the alphabet. *)
Lemma detect_voice_error_body_witness :
  http_exception_handler 400 "Failed to decode base64 audio"
  = (400%nat,
     [("status", "error"); ("error", "Failed to decode base64 audio");
      ("detail", "Failed to decode base64 audio")])
  /\ "Failed to decode base64 audio" <> "".
Proof.
  pose proof (@detect_voice_error_body demo_settings bytewise_codec
                one_second_decoder decimal_sqrt steady_librosa empty_disk
                constant_sklearn insertion_argsort
                {| audio_base64 := "not base64!"; language := "Tamil" |}
                VoiceDetectionModel_init 400 "Failed to decode base64 audio"
                eq_refl) as K.
  cbn in K. destruct K as (_ & _ & _ & _ & N).
  split; [ reflexivity | exact N ].
Defined.

(** ** Labels other than AI_GENERATED *)

(** X18.  The explainer knows one label only: every classification string
    that is not exactly "AI_GENERATED", of whatever spelling, is explained
    with the human rule set, as HUMAN is. *)
Theorem explanation_of_other_labels :
  forall (label : string) (confidence : npfloat) (features : list npfloat)
         (tf : top_features_t),
    label <> "AI_GENERATED" ->
    List.length features = 39%nat ->
    generate_explanation label confidence features tf
    = Ok (spec_explain false confidence features)
    /\ generate_explanation label confidence features tf
       = generate_explanation HUMAN confidence features tf.
Proof.
  intros label confidence features tf N L.
  assert (G : forall l, l <> "AI_GENERATED" ->
                        generate_explanation l confidence features tf
                        = Ok (spec_explain false confidence features)).
  { intros l Nl. rewrite generate_explanation_unfold.
    unfold explanation_attempt.
    rewrite (proj2 (String.eqb_neq l "AI_GENERATED") Nl).
    rewrite (explain_human_refines confidence features tf L). reflexivity. }
  split.
  - exact (G label N).
  - rewrite (G label N). symmetry. apply G. discriminate.
Qed.

Lemma explanation_of_other_labels_witness :
  generate_explanation "ai_generated" (Num (95 # 100)) (constant_vector 120)
    None
  = Ok ("Strong indicators of human voice: natural pitch variations, "
        ++ "rich spectral complexity, natural energy fluctuations").
Proof.
  refine (proj1 (explanation_of_other_labels "ai_generated" (Num (95 # 100))
                   (constant_vector 120) None _ eq_refl)).
  discriminate.
Defined.

(** ** The API key *)


(** ** Line breaks in the payload *)

Lemma lstrip_spaces (s t : list ascii) :
  forallb isspace s = true -> lstrip (s ++ t)%list = lstrip t.
Proof.
  induction s as [ | c s IH ]; cbn [forallb app lstrip]; [ reflexivity | ].
  intro F. apply andb_prop in F as [Fc Fs]. rewrite Fc. exact (IH Fs).
Qed.

Lemma lstrip_body (s t : list ascii) :
  forallb isspace s = false -> lstrip (s ++ t)%list = (lstrip s ++ t)%list.
Proof.
  induction s as [ | c s IH ]; cbn [forallb app lstrip]; [ discriminate | ].
  destruct (isspace c); cbn [andb]; [ exact IH | reflexivity ].
Qed.

Lemma lstrip_body_kept (s : list ascii) :
  forallb isspace s = false -> forallb isspace (lstrip s) = false.
Proof.
  induction s as [ | c s IH ]; cbn [forallb lstrip]; [ discriminate | ].
  destruct (isspace c) eqn:C; cbn [andb]; [ exact IH | ].
  intros _. cbn [forallb]. rewrite C. reflexivity.
Qed.

Lemma forallb_rev {X} (f : X -> bool) (s : list X) :
  forallb f (rev s) = forallb f s.
Proof.
  induction s as [ | c s IH ]; [ reflexivity | ].
  cbn [rev forallb]. rewrite forallb_app, IH. cbn [forallb].
  rewrite andb_true_r. apply andb_comm.
Qed.

Lemma rstrip_spaces (t s : list ascii) :
  forallb isspace s = true -> rstrip (t ++ s)%list = rstrip t.
Proof.
  intro F. unfold rstrip. rewrite rev_app_distr.
  rewrite lstrip_spaces by (rewrite forallb_rev; exact F). reflexivity.
Qed.

Lemma rstrip_body (t s : list ascii) :
  forallb isspace s = false -> rstrip (t ++ s)%list = (t ++ rstrip s)%list.
Proof.
  intro F. unfold rstrip. rewrite rev_app_distr.
  rewrite lstrip_body by (rewrite forallb_rev; exact F).
  rewrite rev_app_distr, rev_involutive. reflexivity.
Qed.

Lemma remove_line_break (c : ascii) (u r : list ascii) :
  c = newline \/ c = carriage_return ->
  remove_char carriage_return (remove_char newline (u ++ c :: r)%list)
  = remove_char carriage_return (remove_char newline (u ++ r)%list).
Proof.
  intros [-> | ->]; unfold remove_char; rewrite !filter_app; cbn [filter].
  - rewrite Ascii.eqb_refl. reflexivity.
  - replace (Ascii.eqb carriage_return newline) with false by reflexivity.
    cbn [negb filter]. rewrite Ascii.eqb_refl. reflexivity.
Qed.

Lemma cleaned_line_break (c : ascii) (s1 s2 : list ascii) :
  c = newline \/ c = carriage_return ->
  cleaned (s1 ++ c :: s2)%list = cleaned (s1 ++ s2)%list.
Proof.
  intro C. unfold cleaned, strip.
  assert (Sp : isspace c = true) by (destruct C as [-> | ->]; reflexivity).
  destruct (forallb isspace s1) eqn:F1.
  - rewrite !lstrip_spaces by exact F1.
    cbn [lstrip]. rewrite Sp. reflexivity.
  - rewrite !lstrip_body by exact F1.
    pose proof (lstrip_body_kept s1 F1) as Fu.
    destruct (forallb isspace s2) eqn:F2.
    + rewrite (rstrip_spaces (lstrip s1) (c :: s2))
        by (cbn [forallb]; rewrite Sp, F2; reflexivity).
      rewrite (rstrip_spaces (lstrip s1) s2) by exact F2. reflexivity.
    + rewrite (rstrip_body (lstrip s1) (c :: s2))
        by (cbn [forallb]; rewrite Sp, F2; reflexivity).
      rewrite (rstrip_body (lstrip s1) s2) by exact F2.
      replace (rstrip (c :: s2)) with (c :: rstrip s2)
        by (symmetry; exact (rstrip_body [c] s2 F2)).
      apply remove_line_break. exact C.
Qed.

Lemma list_ascii_of_string_app (s t : string) :
  list_ascii_of_string (s ++ t)
  = (list_ascii_of_string s ++ list_ascii_of_string t)%list.
Proof.
  induction s as [ | c s IH ]; cbn; [ reflexivity | ]. f_equal. exact IH.
Qed.

(** X20.  A line feed or a carriage return anywhere in the payload changes
    nothing: [decode_base64_audio] gives the same bytes, or the same
    error, as for the payload without it. *)
Theorem decode_base64_audio_ignores_line_breaks :
  forall {B : Base64} (before after : string) (c : ascii),
    c = newline \/ c = carriage_return ->
    decode_base64_audio (before ++ String c after)
    = decode_base64_audio (before ++ after).
Proof.
  intros B before after c C. unfold decode_base64_audio.
  rewrite !list_ascii_of_string_app. cbn [list_ascii_of_string].
  pose proof (cleaned_line_break c (list_ascii_of_string before)
                (list_ascii_of_string after) C) as K.
  unfold cleaned in K. rewrite K. reflexivity.
Qed.

Lemma decode_base64_audio_ignores_line_breaks_witness :
  @decode_base64_audio bytewise_codec ("QU" ++ String newline "JD")
  = @decode_base64_audio bytewise_codec "QUJD".
Proof.
  apply (@decode_base64_audio_ignores_line_breaks bytewise_codec "QU" "JD"
           newline).
  left. reflexivity.
Defined.

(** ** Requests that passed the schema *)

Lemma lstrip_clean (s : list ascii) :
  forallb (fun c => negb (isspace c)) s = true -> lstrip s = s.
Proof.
  destruct s as [ | c s ]; [ reflexivity | ].
  cbn [forallb lstrip]. intro F. apply andb_prop in F as [Fc _].
  destruct (isspace c); [ discriminate Fc | reflexivity ].
Qed.

Lemma remove_char_clean (c : ascii) (s : list ascii) :
  isspace c = true ->
  forallb (fun x => negb (isspace x)) s = true -> remove_char c s = s.
Proof.
  intros C. unfold remove_char.
  induction s as [ | x s IH ]; cbn [forallb filter]; [ reflexivity | ].
  intro F. apply andb_prop in F as [Fx Fs].
  destruct (Ascii.eqb_spec x c) as [-> | N].
  - rewrite C in Fx. discriminate Fx.
  - cbn [negb]. f_equal. exact (IH Fs).
Qed.

Lemma cleaned_clean (s : list ascii) :
  forallb (fun c => negb (isspace c)) s = true -> cleaned s = s.
Proof.
  intro F. unfold cleaned, strip, rstrip.
  rewrite (lstrip_clean s F).
  rewrite lstrip_clean by (rewrite forallb_rev; exact F).
  rewrite rev_involutive.
  rewrite (remove_char_clean newline s eq_refl F).
  exact (remove_char_clean carriage_return s eq_refl F).
Qed.

Lemma in_alphabet_not_space (c : ascii) :
  in_alphabet c = true -> negb (isspace c) = true.
Proof.
  destruct c as [[] [] [] [] [] [] [] []]; vm_compute; intro E;
    solve [ reflexivity | discriminate E ].
Qed.

#[local] Instance bytewise_codec_laws : Base64Laws bytewise_codec.
Proof.
  constructor. intros s bytes. cbn [b64decode bytewise_codec].
  destruct (forallb in_alphabet (list_ascii_of_string s)) eqn:F;
    [ intros _ | discriminate ].
  induction (list_ascii_of_string s) as [ | c l IH ]; [ reflexivity | ].
  cbn [forallb] in *. apply andb_prop in F as [Fc Fl].
  rewrite (in_alphabet_not_space c Fc). exact (IH Fl).
Qed.

(** X21.  A request that passed the request schema has a payload of at
    least 100 characters and one of the five languages, and its payload
    always decodes: [decode_base64_audio] returns the bytes [b64decode]
    gives for the payload as sent, so the handler never answers such a
    request with the decoding error. *)
Theorem validated_request_decodes :
  forall {St : Settings} {B : Base64} {BL : Base64Laws B} {Dc : Decoder}
         {M : Libm} {L : Librosa} {D : Disk} {S : Sklearn} {A : Argsort}
         (payload lang : string) (request : VoiceDetectionRequest)
         (voice_model : VoiceDetectionModel),
    VoiceDetectionRequest_init payload lang = Ok request ->
    audio_base64 request = payload
    /\ language request = lang
    /\ (100 <= String.length payload)%nat
    /\ In lang supported_languages
    /\ (exists audio_bytes,
           b64decode payload = Ok audio_bytes
           /\ decode_base64_audio (audio_base64 request) = Ok audio_bytes)
    /\ fst (detect_voice request voice_model)
       <> HTTPException 400 "Failed to decode base64 audio".
Proof.
  intros St B BL Dc M L D S A payload lang request vm.
  unfold VoiceDetectionRequest_init, validate_base64.
  destruct (100 <=? String.length payload)%nat eqn:Len; [ | discriminate ].
  destruct (existsb (String.eqb lang) supported_languages) eqn:Lang;
    [ | discriminate ].
  cbn [andb].
  destruct (b64decode payload) as [bytes | e] eqn:Dec;
    cbn [bind try_except]; [ | discriminate ].
  intro E. injection E as <-.
  cbn [audio_base64 language].
  assert (Decoded : decode_base64_audio payload = Ok bytes).
  { unfold decode_base64_audio.
    pose proof (cleaned_clean _ (b64decode_validates _ _ Dec)) as K.
    unfold cleaned in K. rewrite K, string_of_list_ascii_of_string, Dec.
    reflexivity. }
  split; [ reflexivity | ]. split; [ reflexivity | ].
  split; [ apply Nat.leb_le; exact Len | ].
  split.
  { apply existsb_exists in Lang as (l & Il & El).
    apply String.eqb_eq in El. subst l. exact Il. }
  split; [ exists bytes; split; [ reflexivity | exact Decoded ] | ].
  unfold detect_voice, detect_voice_body. cbn [audio_base64]. rewrite Decoded.
  destruct (_ <? _)%Z; [ cbn [fst]; discriminate | ].
  destruct (process_and_validate bytes) as [a | e];
    [ | cbn [fst]; discriminate ].
  destruct (extract_features feature_extractor (ravel a)) as [f | e];
    [ | cbn [fst]; discriminate ].
  destruct (predict f vm) as [[[[label conf] probs] | e] vm'];
    [ | cbn [fst]; discriminate ].
  destruct (get_top_features vm' f 5) as [top | e];
    [ | cbn [fst]; discriminate ].
  destruct (generate_explanation label conf f (Some top)) as [text | e];
    [ | cbn [fst]; discriminate ].
  destruct (VoiceDetectionResponse_init _ _ _ _ _) as [r | e];
    cbn [fst]; discriminate.
Qed.

Lemma validated_request_decodes_witness :
  exists audio_bytes,
    @b64decode bytewise_codec long_payload = Ok audio_bytes
    /\ @decode_base64_audio bytewise_codec long_payload = Ok audio_bytes.
Proof.
  exact (proj1 (proj2 (proj2 (proj2 (proj2
    (@validated_request_decodes demo_settings bytewise_codec
       bytewise_codec_laws one_second_decoder decimal_sqrt steady_librosa
       empty_disk constant_sklearn insertion_argsort
       long_payload "Hindi"
       {| audio_base64 := long_payload; language := "Hindi" |}
       VoiceDetectionModel_init eq_refl)))))).
Defined.
